(** * Trading dashboard: results aggregation and presentation pipeline

    A shallow embedding of the TypeScript front end:
    - [frontend/src/hooks/useApi.ts]            (module [UseApi])
    - [frontend/src/services/apiService.ts]     (module [ApiService])
    - [frontend/src/types.ts]                   (module [Types])
    - [frontend/src/components/TradesTable.tsx] (module [TradesTable])
    - [frontend/src/components/SummaryMetrics.tsx]
                                                (module [SummaryMetrics])
    - [frontend/src/components/PerformanceChart.tsx]
                                                (module [PerformanceChart])
    - [frontend/src/components/ResultsPanel.tsx]
                                                (module [ResultsPanel])

    JavaScript numbers are IEEE 754 binary64 values and are embedded as the
    kernel's primitive floats, so that [NaN] and [Infinity] arise exactly
    where they do at run time.  Strings are [String.string].  A React
    component is embedded as the function from its props (and state) to a
    tree that records which branch was rendered and from which values. *)

From Stdlib Require Import Bool Arith ZArith List String Ascii Lia.
From Stdlib Require Import Floats DecimalString Permutation Sorted OrderedTypeEx.
Import ListNotations.

#[local] Set Warnings "-inexact-float".


Local Open Scope string_scope.
Local Open Scope list_scope.

(** ** JavaScript preliminaries *)

Module Js.

(** A JavaScript [number]. *)
Definition number := PrimFloat.float.

(** Truthiness of an optional string ([undefined], [null] and the empty
    string are falsy), as tested by [if (x)], [!x] and [x || y]. *)
Definition truthy (s : option string) : bool :=
  match s with
  | Some EmptyString => false
  | Some _ => true
  | None => false
  end.

(** [a || b] on an optional string with a string fallback. *)
Definition orElse (a : option string) (b : string) : string :=
  match a with
  | Some EmptyString => b
  | Some s => s
  | None => b
  end.

(** [String.prototype.includes]: code-unit-exact substring search. *)
Fixpoint includes (needle hay : string) : bool :=
  if String.prefix needle hay then true
  else match hay with
       | EmptyString => false
       | String _ rest => includes needle rest
       end.

(** [Array.prototype.includes] on an array of strings. *)
Fixpoint arrayIncludes (keys : list string) (key : string) : bool :=
  match keys with
  | [] => false
  | k :: rest => if String.eqb k key then true else arrayIncludes rest key
  end.

(** [s.replace('_', ' ')]: a string pattern replaces the first match only. *)
Fixpoint replaceFirstUnderscore (s : string) : string :=
  match s with
  | EmptyString => EmptyString
  | String c rest =>
      if Ascii.eqb c "_" then String " " rest
      else String c (replaceFirstUnderscore rest)
  end.

(** [s.replace(/_/g, ' ')] *)
Fixpoint replaceAllUnderscores (s : string) : string :=
  match s with
  | EmptyString => EmptyString
  | String c rest =>
      String (if Ascii.eqb c "_" then " "%char else c) (replaceAllUnderscores rest)
  end.

(** The class [\w] of a regular expression without the [u] flag. *)
Definition isWordChar (c : ascii) : bool :=
  let n := nat_of_ascii c in
  (((48 <=? n) && (n <=? 57)) || ((65 <=? n) && (n <=? 90))
   || ((97 <=? n) && (n <=? 122)) || (n =? 95))%nat.

(** [toUpperCase] on one code unit below 128. *)
Definition toUpperCase (c : ascii) : ascii :=
  let n := nat_of_ascii c in
  if ((97 <=? n) && (n <=? 122))%nat then ascii_of_nat (n - 32) else c.

(** [toLowerCase] on one code unit below 128, and on a string of them. *)
Definition toLowerCase (c : ascii) : ascii :=
  let n := nat_of_ascii c in
  if ((65 <=? n) && (n <=? 90))%nat then ascii_of_nat (n + 32) else c.

Fixpoint toLowerCaseString (s : string) : string :=
  match s with
  | EmptyString => EmptyString
  | String c rest => String (toLowerCase c) (toLowerCaseString rest)
  end.

(** [s.replace(/\b\w/g, l => l.toUpperCase())]: a word character that
    follows the start of the string or a non-word character is upper-cased.
    [prevWord] tells whether the previous character was a word character. *)
Fixpoint capitalizeWords (prevWord : bool) (s : string) : string :=
  match s with
  | EmptyString => EmptyString
  | String c rest =>
      let w := isWordChar c in
      String (if w && negb prevWord then toUpperCase c else c) (capitalizeWords w rest)
  end.

(** Values of type [any] found in an open-ended summary object. *)
Inductive value :=
| VNumber (x : number)
| VString (s : string)
| VBoolean (b : bool)
| VNull
| VObject.

(** The number a compare function returns, as [Array.prototype.sort] reads
    it (abstract operation SortCompare: [NaN] counts as [+0]). *)
Definition sortCompare (v : number) : comparison :=
  if PrimFloat.ltb v 0%float then Lt
  else if PrimFloat.ltb 0%float v then Gt
  else Eq.

Section ArraySort.

Variable A : Type.
Variable comparefn : A -> A -> number.

(** [Array.prototype.sort] for a consistent compare function.  The language
    fixes the result then: the elements in the order of [comparefn], those
    that compare equal in the order they had (a stable sort, ECMAScript 2019
    and later).  It is embedded as insertion sort, in which an element moves
    behind another one only when [comparefn] puts it strictly after.  For a
    compare function that is not consistent the language leaves the order
    to the engine; what V8 does is embedded in [V8.sort] below. *)
Fixpoint insert (x : A) (sorted : list A) : list A :=
  match sorted with
  | [] => [x]
  | y :: rest =>
      match sortCompare (comparefn x y) with
      | Gt => y :: insert x rest
      | _ => x :: sorted
      end
  end.

Definition sort (items : list A) : list A :=
  fold_right insert [] items.

End ArraySort.

Arguments insert {A} _ _ _.
Arguments sort {A} _ _.

End Js.

(** ** [hooks/useApi.ts]: the request lifecycle controller *)

Module UseApi.

(** What the awaited [apiFunction] promise can reject with: an
    [AxiosError] (whose [response], its [data] and the [detail] in it are
    each optional), any other [Error], or a value that is not an [Error]. *)
Record AxiosResponse := {
  status : nat;
  detail : option string
}.

Inductive Thrown :=
| AxiosError (response : option AxiosResponse) (message : string)
| OtherError (message : string)
| NotAnError.

(** [error.response?.data?.detail] *)
Definition responseDetail (response : option AxiosResponse) : option string :=
  match response with
  | Some r => detail r
  | None => None
  end.

(** The [errorMessage] computed in the [catch] block of [execute]. *)
Definition errorMessage (error : Thrown) : string :=
  match error with
  | AxiosError response message => Js.orElse (responseDetail response) message
  | OtherError message => message
  | NotAnError => "An unknown error occurred"
  end.

Section Controller.

(** The type [T] the wrapped [apiFunction] resolves to. *)
Variable T : Type.

Record ApiState := {
  data : option T;
  loading : bool;
  error : option string
}.

(** The argument of [useState]. *)
Definition initialState : ApiState :=
  {| data := None; loading := false; error := None |}.

(** What the promise returned by [execute] resolves to. *)
Inductive ExecuteResult :=
| Success (result : T)
| Failure (message : string).

(** How the awaited [apiFunction(...args)] settles. *)
Inductive Settlement :=
| Fulfilled (result : T)
| RejectedWith (err : Thrown).

(** [execute] up to its [await]: the updater of the first [setState]. *)
Definition executeStart (prev : ApiState) : ApiState :=
  {| data := data prev; loading := true; error := None |}.

(** [execute] from its [await] on: the updater of the second [setState], in
    the [try] or in the [catch] block, and the value returned. *)
Definition executeSettled (settled : Settlement) : (ApiState -> ApiState) * ExecuteResult :=
  match settled with
  | Fulfilled result =>
      (fun prev => {| data := Some result; loading := false; error := error prev |},
       Success result)
  | RejectedWith err =>
      let message := errorMessage err in
      (fun prev => {| data := data prev; loading := false; error := Some message |},
       Failure message)
  end.

(** [reset]: [setState] with a fresh record. *)
Definition reset (prev : ApiState) : ApiState :=
  {| data := None; loading := false; error := None |}.

(** [execute] suspends once, at [await apiFunction(...args)].  A run of the
    hook is therefore a sequence of events: a call of [execute] (which runs
    up to the [await]), the settlement of the promise a suspended call is
    waiting for (which runs the rest of that call), or a call of [reset].
    Calls are told apart by a number. *)
Inductive Event :=
| Execute (call : nat)
| Settled (call : nat) (settled : Settlement)
| Reset.

(** The hook's state together with the calls suspended at the [await]. *)
Record Hook := {
  state : ApiState;
  pending : list nat
}.

Definition mount : Hook := {| state := initialState; pending := [] |}.

Fixpoint isPending (call : nat) (calls : list nat) : bool :=
  match calls with
  | [] => false
  | c :: rest => if Nat.eqb call c then true else isPending call rest
  end.

Fixpoint resume (call : nat) (calls : list nat) : list nat :=
  match calls with
  | [] => []
  | c :: rest => if Nat.eqb call c then rest else c :: resume call rest
  end.

(** One event.  The settlement of a call that is not suspended cannot
    happen and leaves the hook as it is. *)
Definition step (h : Hook) (ev : Event) : Hook :=
  match ev with
  | Execute call =>
      {| state := executeStart (state h); pending := call :: pending h |}
  | Settled call settled =>
      if isPending call (pending h)
      then {| state := fst (executeSettled settled) (state h);
              pending := resume call (pending h) |}
      else h
  | Reset =>
      {| state := reset (state h); pending := pending h |}
  end.

Definition run (h : Hook) (evs : list Event) : Hook :=
  fold_left step evs h.

End Controller.

Arguments data {T} _.
Arguments loading {T} _.
Arguments error {T} _.
Arguments state {T} _.
Arguments pending {T} _.
Arguments Execute {T} _.
Arguments Settled {T} _ _.
Arguments Fulfilled {T} _.
Arguments RejectedWith {T} _.
Arguments Reset {T}.
Arguments step {T} _ _.
Arguments run {T} _ _.
Arguments mount {T}.
Arguments initialState {T}.

End UseApi.

(** ** [services/apiService.ts]: [handleApiError] *)

Module ApiService.

Import UseApi.

(** [ERROR_MESSAGES] of [utils/constants.ts], the entries used here. *)
Definition NETWORK := "Network error. Please check your connection.".
Definition UNAUTHORIZED := "Authentication required. Please log in.".
Definition FORBIDDEN := "Access denied. Insufficient permissions.".
Definition NOT_FOUND := "Requested resource not found.".
Definition SERVER_ERROR := "Server error. Please try again later.".
Definition VALIDATION_ERROR := "Please check your input and try again.".
Definition UNKNOWN := "An unknown error occurred.".

Definition handleApiError (error : Thrown) : string :=
  match error with
  | AxiosError response _ =>
      match option_map status response with
      | None => NETWORK
      | Some code =>
          if (code =? 400)%nat then Js.orElse (responseDetail response) VALIDATION_ERROR
          else if (code =? 401)%nat then UNAUTHORIZED
          else if (code =? 403)%nat then FORBIDDEN
          else if (code =? 404)%nat then NOT_FOUND
          else if (code =? 500)%nat then SERVER_ERROR
          else Js.orElse (responseDetail response) UNKNOWN
      end
  | OtherError message => message
  | NotAnError => UNKNOWN
  end.

End ApiService.

(** ** [types.ts] *)

Module Types.

Record TradeRecord := {
  week : string;
  strategy : string;
  symbol : string;
  action : string;
  quantity : Js.number;
  price : Js.number;
  strike : option Js.number;
  cash_flow : Js.number;
  notes : string;
  timestamp : string
}.

(** The five declared fields and, for the index signature
    [[key: string]: any], the further entries in their order. *)
Record StrategySummary := {
  total_trades : Js.number;
  initial_capital : Js.number;
  final_capital : Js.number;
  total_return : Js.number;
  execution_time : Js.number;
  additional : list (string * Js.value)
}.

Record StrategyResult := {
  trades : list TradeRecord;
  summary : StrategySummary;
  strategy_name : string;
  result_execution_time : Js.number;
  error : option string
}.

Record CombinedSummary := {
  total_execution_time : Js.number;
  total_strategies_run : Js.number;
  combined_cash_flow : Js.number;
  strategies_requested : list string;
  data_mode : string
}.

Record StrategyResults := {
  wheel : option StrategyResult;
  rotator : option StrategyResult;
  results_status : string;
  ran_at : string;
  results_total_trades : Js.number;
  combined_summary : CombinedSummary
}.

(** [Object.entries(summary)] *)
Definition entries (s : StrategySummary) : list (string * Js.value) :=
  [ ("total_trades", Js.VNumber (total_trades s));
    ("initial_capital", Js.VNumber (initial_capital s));
    ("final_capital", Js.VNumber (final_capital s));
    ("total_return", Js.VNumber (total_return s));
    ("execution_time", Js.VNumber (execution_time s)) ]
  ++ additional s.

End Types.

(** ** The host environment

    Two built-ins the components call depend on the browser: the collation
    behind [String.prototype.localeCompare], and the date parser behind
    [new Date(s).getTime()].  Both are taken as given. *)

Record Host := {
  localeCompare : string -> string -> Js.number;
  getTime : string -> Js.number
}.

(** ** [components/TradesTable.tsx] *)

Module TradesTable.

Import Types.

Inductive SortField :=
| Week | Symbol | Action | Quantity | Price | CashFlow | Timestamp.

Inductive SortDirection := Asc | Desc.

Definition sortFieldEqb (f g : SortField) : bool :=
  match f, g with
  | Week, Week | Symbol, Symbol | Action, Action | Quantity, Quantity
  | Price, Price | CashFlow, CashFlow | Timestamp, Timestamp => true
  | _, _ => false
  end.

(** The three [useState] cells of the component. *)
Record State := {
  sortField : SortField;
  sortDirection : SortDirection;
  isCollapsed : bool
}.

Definition initialState : State :=
  {| sortField := Timestamp; sortDirection := Desc; isCollapsed := false |}.

Definition handleSort (field : SortField) (st : State) : State :=
  if sortFieldEqb (sortField st) field
  then {| sortField := sortField st;
          sortDirection := match sortDirection st with Asc => Desc | Desc => Asc end;
          isCollapsed := isCollapsed st |}
  else {| sortField := field; sortDirection := Asc; isCollapsed := isCollapsed st |}.

Definition toggleCollapsed (st : State) : State :=
  {| sortField := sortField st; sortDirection := sortDirection st;
     isCollapsed := negb (isCollapsed st) |}.

(** [aValue] and [bValue] after the [switch]: both come from the same field,
    so both are strings or both are numbers. *)
Inductive SortValues :=
| Strings (aValue bValue : string)
| Numbers (aValue bValue : Js.number).

Definition sortValues (host : Host) (field : SortField) (a b : TradeRecord) : SortValues :=
  match field with
  | Week => Strings (week a) (week b)
  | Symbol => Strings (symbol a) (symbol b)
  | Action => Strings (action a) (action b)
  | Quantity => Numbers (quantity a) (quantity b)
  | Price => Numbers (price a) (price b)
  | CashFlow => Numbers (cash_flow a) (cash_flow b)
  | Timestamp => Numbers (getTime host (timestamp a)) (getTime host (timestamp b))
  end.

(** The arrow function passed to [sort]. *)
Definition compareTrades (host : Host) (field : SortField) (direction : SortDirection)
    (a b : TradeRecord) : Js.number :=
  match sortValues host field a b with
  | Strings aValue bValue =>
      match direction with
      | Asc => localeCompare host aValue bValue
      | Desc => localeCompare host bValue aValue
      end
  | Numbers aValue bValue =>
      match direction with
      | Asc => PrimFloat.sub aValue bValue
      | Desc => PrimFloat.sub bValue aValue
      end
  end.

(** [[...trades].sort(...)] *)
Definition sortedTrades (host : Host) (field : SortField) (direction : SortDirection)
    (trades : list TradeRecord) : list TradeRecord :=
  Js.sort (compareTrades host field direction) trades.

(** One [<tr>] of the table body. *)
Record Row := {
  weekCell : string;
  symbolCell : string;
  actionCell : string;
  quantityCell : Js.number;
  priceCell : Js.number;
  cashFlowCell : Js.number;
  notesCell : string
}.

Definition row (trade : TradeRecord) : Row :=
  {| weekCell := week trade;
     symbolCell := symbol trade;
     actionCell := Js.replaceFirstUnderscore (action trade);
     quantityCell := quantity trade;
     priceCell := price trade;
     cashFlowCell := cash_flow trade;
     notesCell := notes trade |}.

Inductive View :=
| NoTradesExecuted (title : string)
| Table (title : string) (count : nat) (body : option (list Row)).

(** The component [TradesTable], for the current values of its state. *)
Definition render (host : Host) (st : State) (trades : list TradeRecord)
    (title : string) : View :=
  match trades with
  | [] => NoTradesExecuted title
  | _ =>
      Table title (List.length trades)
        (if isCollapsed st then None
         else Some (map row (sortedTrades host (sortField st) (sortDirection st) trades)))
  end.

End TradesTable.

(** ** [components/SummaryMetrics.tsx] *)

Module SummaryMetrics.

Import Types.

Local Open Scope float_scope.

(** [formatPercentage(value)], [value.toLocaleString()] and [String(value)]
    in the additional-metrics grid. *)
Inductive MetricText :=
| FormatPercentage (x : Js.number)
| ToLocaleString (x : Js.number)
| StringOf (v : Js.value).

Inductive Duration :=
| Seconds (x : Js.number)
| Minutes (x : Js.number).

Definition returnPercentage (s : StrategySummary) : Js.number :=
  if 0 <? initial_capital s
  then ((final_capital s - initial_capital s) / initial_capital s) * 100
  else 0.

Definition totalPnL (s : StrategySummary) : Js.number :=
  final_capital s - initial_capital s.

Definition formatDuration (seconds : Js.number) : Duration :=
  if seconds <? 60 then Seconds seconds else Minutes (seconds / 60).

Definition mainMetrics : list string :=
  ["total_trades"; "initial_capital"; "final_capital"; "total_return";
   "execution_time"]%string.

Definition displayKey (key : string) : string :=
  Js.capitalizeWords false (Js.replaceAllUnderscores key).

Definition isPercentageKey (key : string) : bool :=
  Js.includes "rate" key || Js.includes "percentage" key || Js.includes "ratio" key.

Definition metricText (key : string) (value : Js.value) : MetricText :=
  match value with
  | Js.VNumber x => if isPercentageKey key then FormatPercentage x else ToLocaleString x
  | _ => StringOf value
  end.

(** The callback of [Object.entries(summary).map]: [None] is [return null]. *)
Definition additionalMetric (entry : string * Js.value) : option (string * MetricText) :=
  let (key, value) := entry in
  if Js.arrayIncludes mainMetrics key then None
  else Some (displayKey key, metricText key value).

Definition additionalMetrics (s : StrategySummary)
    : option (list (option (string * MetricText))) :=
  if (5 <? List.length (entries s))%nat
  then Some (map additionalMetric (entries s))
  else None.

Inductive View :=
| ErrorCard (strategyName : string) (error : string)
| PerformanceSummary (strategyName : string)
    (initialCapital finalCapital pnl returnPct totalTrades : Js.number)
    (duration : Duration)
    (more : option (list (option (string * MetricText)))).

(** The component [SummaryMetrics]. *)
Definition render (result : StrategyResult) (strategyName : string) : View :=
  let card :=
    let s := summary result in
    PerformanceSummary strategyName (initial_capital s) (final_capital s)
      (totalPnL s) (returnPercentage s) (total_trades s)
      (formatDuration (execution_time s)) (additionalMetrics s) in
  match error result with
  | Some e => if Js.truthy (Some e) then ErrorCard strategyName e else card
  | None => card
  end.

End SummaryMetrics.

(** ** [components/PerformanceChart.tsx] *)

Module PerformanceChart.

Import Types.

Local Open Scope float_scope.

(** An element of [comparisonData]. *)
Record ComparisonRow := {
  strategyLabel : string;
  returnAmount : Js.number;
  returnPercent : Js.number;
  tradeCount : Js.number;
  initialCapital : Js.number;
  finalCapital : Js.number
}.

(** [result && !result.error] *)
Definition succeeded (result : option StrategyResult) : option StrategyResult :=
  match result with
  | Some r => if negb (Js.truthy (error r)) then Some r else None
  | None => None
  end.

(** The body of each of the two [if] blocks that push to [comparisonData]. *)
Definition comparisonRow (label : string) (r : StrategyResult) : ComparisonRow :=
  let ret := final_capital (summary r) - initial_capital (summary r) in
  let pct := (ret / initial_capital (summary r)) * 100 in
  {| strategyLabel := label;
     returnAmount := ret;
     returnPercent := pct;
     tradeCount := total_trades (summary r);
     initialCapital := initial_capital (summary r);
     finalCapital := final_capital (summary r) |}.

Definition pushRow (label : string) (result : option StrategyResult)
    (rows : list ComparisonRow) : list ComparisonRow :=
  match succeeded result with
  | Some r => rows ++ [comparisonRow label r]
  | None => rows
  end.

Definition comparisonData (wheelResult rotatorResult : option StrategyResult)
    : list ComparisonRow :=
  pushRow "Crypto Rotator" rotatorResult (pushRow "Options Wheel" wheelResult []).

(** [actionData[action] = (actionData[action] || 0) + 1] on an object whose
    keys are kept in the order they were first written. *)
Fixpoint countAction (label : string) (counts : list (string * nat))
    : list (string * nat) :=
  match counts with
  | [] => [(label, 1%nat)]
  | (l, n) :: rest =>
      if String.eqb l label then (l, S n) :: rest
      else (l, n) :: countAction label rest
  end.

Definition countTrades (result : option StrategyResult) (counts : list (string * nat))
    : list (string * nat) :=
  match succeeded result with
  | Some r =>
      fold_left (fun acc trade => countAction (Js.replaceFirstUnderscore (action trade)) acc)
        (trades r) counts
  | None => counts
  end.

Definition actionChartData (wheelResult rotatorResult : option StrategyResult)
    : list (string * nat) :=
  countTrades rotatorResult (countTrades wheelResult []).

(** The action distribution card is rendered only for a non-empty
    [actionChartData]. *)
Inductive View :=
| NoDataAvailable
| Charts (comparison : list ComparisonRow) (actions : option (list (string * nat))).

(** The component [PerformanceChart]. *)
Definition render (wheelResult rotatorResult : option StrategyResult) : View :=
  match comparisonData wheelResult rotatorResult with
  | [] => NoDataAvailable
  | rows =>
      Charts rows
        match actionChartData wheelResult rotatorResult with
        | [] => None
        | counts => Some counts
        end
  end.

End PerformanceChart.

(** ** [components/ResultsPanel.tsx] *)

Module ResultsPanel.

Import Types.

Record ExecutionSummary := {
  ranAt : string;
  totalTrades : Js.number;
  strategiesRun : Js.number;
  netCashFlow : Js.number;
  requested : list string;
  mode : string
}.

Definition executionSummary (results : StrategyResults) : ExecutionSummary :=
  {| ranAt := ran_at results;
     totalTrades := results_total_trades results;
     strategiesRun := total_strategies_run (combined_summary results);
     netCashFlow := combined_cash_flow (combined_summary results);
     requested :=
       map (fun s => if String.eqb s "wheel" then "Options Wheel" else "Crypto Rotator")
         (strategies_requested (combined_summary results));
     mode := data_mode (combined_summary results) |}.

(** The block rendered for one strategy: its [SummaryMetrics] and its
    [TradesTable], the latter on first render. *)
Definition strategySection (host : Host) (result : StrategyResult)
    (strategyName title : string) : SummaryMetrics.View * TradesTable.View :=
  (SummaryMetrics.render result strategyName,
   TradesTable.render host TradesTable.initialState (trades result) title).

Inductive View :=
| RunningStrategies (dataMode : string)
| ReadyToRun
| NoResults
| Results (summary : ExecutionSummary)
    (wheelSection rotatorSection : option (SummaryMetrics.View * TradesTable.View))
    (chart : PerformanceChart.View).

(** The component [ResultsPanel]; of [config] it reads [data_mode] only. *)
Definition render (host : Host) (results : option StrategyResults) (isLoading : bool)
    (configDataMode : string) : View :=
  if isLoading then RunningStrategies configDataMode
  else match results with
       | None => ReadyToRun
       | Some res =>
           match wheel res, rotator res with
           | None, None => NoResults
           | w, r =>
               Results (executionSummary res)
                 (option_map
                    (fun x => strategySection host x "Wheel" "Wheel Strategy Trades") w)
                 (option_map
                    (fun x => strategySection host x "Rotator" "Crypto Rotator Trades") r)
                 (PerformanceChart.render w r)
           end
       end.

End ResultsPanel.

(** ** Test fixtures and a host for running the components

    The trade and the summary are the mocks of [tests/utils/test-utils.tsx]. *)

Module Fixtures.

Import Types.

Local Open Scope float_scope.

Definition mockTrade : TradeRecord :=
  {| week := "Week0"; strategy := "Wheel"; symbol := "IWM"; action := "SELL_PUT";
     quantity := 1; price := 3.96; strike := Some 198.12; cash_flow := 3.96;
     notes := "Sold put with strike $198.12";
     timestamp := "2025-06-28T13:09:31.211424" |}.

Definition mockSummary : StrategySummary :=
  {| total_trades := 4; initial_capital := 50000; final_capital := 50016.11;
     total_return := 0.03; execution_time := 1.5; additional := [] |}.

Definition mockResult : StrategyResult :=
  {| trades := [mockTrade]; summary := mockSummary; strategy_name := "wheel";
     result_execution_time := 1.5; error := None |}.

Definition mockResults (w r : option StrategyResult) : StrategyResults :=
  {| wheel := w; rotator := r; results_status := "success";
     ran_at := "2025-06-28T13:09:31.211424"; results_total_trades := 15;
     combined_summary :=
       {| total_execution_time := 3.6; total_strategies_run := 2;
          combined_cash_flow := -46376.17;
          strategies_requested := ["wheel"; "rotator"]%string;
          data_mode := "live" |} |}.

Definition withWeek (w : string) (t : TradeRecord) : TradeRecord :=
  {| week := w; strategy := strategy t; symbol := symbol t; action := action t;
     quantity := quantity t; price := price t; strike := strike t;
     cash_flow := cash_flow t; notes := notes t; timestamp := timestamp t |}.

Definition withSymbol (sym : string) (q : Js.number) (t : TradeRecord) : TradeRecord :=
  {| week := week t; strategy := strategy t; symbol := sym; action := action t;
     quantity := q; price := price t; strike := strike t;
     cash_flow := cash_flow t; notes := notes t; timestamp := timestamp t |}.

Definition withCapital (initial final : Js.number) (r : StrategyResult) : StrategyResult :=
  {| trades := trades r;
     summary :=
       {| total_trades := total_trades (summary r); initial_capital := initial;
          final_capital := final; total_return := total_return (summary r);
          execution_time := execution_time (summary r);
          additional := additional (summary r) |};
     strategy_name := strategy_name r;
     result_execution_time := result_execution_time r; error := error r |}.

Definition withError (e : string) (r : StrategyResult) : StrategyResult :=
  {| trades := trades r; summary := summary r; strategy_name := strategy_name r;
     result_execution_time := result_execution_time r; error := Some e |}.

(** The same entry with another payload. *)
Definition withPayload (ts : list TradeRecord) (s : StrategySummary)
    (r : StrategyResult) : StrategyResult :=
  {| trades := ts; summary := s; strategy_name := strategy_name r;
     result_execution_time := result_execution_time r; error := error r |}.

(** A collation that orders strings by their code units: every collation
    agrees with it on strings of decimal digits. *)
Definition codeUnitCompare (s t : string) : Js.number :=
  match String.compare s t with
  | Lt => -1
  | Eq => 0
  | Gt => 1
  end.

(** A host with that collation and in which no string parses as a date
    ([getTime] of an invalid date is [NaN]). *)
Definition asciiHost : Host :=
  {| localeCompare := codeUnitCompare; getTime := fun _ => nan |}.

End Fixtures.

(** ** Notions the statements below are phrased with *)

Module Spec.

Import Types.

(** The reading of C1 as it is stated: after A starts, B starts, B resolves
    and A resolves, [data] holds B's result. *)
Definition last_initiated_wins (T : Type) : Prop :=
  forall (h : UseApi.Hook T) (a b : nat) (ra rb : T),
    UseApi.data (UseApi.state
      (UseApi.run h [UseApi.Execute a; UseApi.Execute b;
                     UseApi.Settled b (UseApi.Fulfilled rb);
                     UseApi.Settled a (UseApi.Fulfilled ra)])) = Some rb.

(** The reading of C2 as it is stated: a call that resolves after [reset]
    leaves the state as [reset] set it. *)
Definition reset_discards_late_result (T : Type) : Prop :=
  forall (h : UseApi.Hook T) (c : nat) (r : T),
    UseApi.isPending c (UseApi.pending h) = true ->
    UseApi.state (UseApi.run h [UseApi.Reset; UseApi.Settled c (UseApi.Fulfilled r)])
    = UseApi.initialState.

(** The reading of C4 as it is stated, for the panel that consumes the whole
    payload: what it renders for an entry with an [error] does not depend on
    that entry's [trades] and [summary]. *)
Definition failed_entry_payload_unread (host : Host) : Prop :=
  forall (res : StrategyResults) (r : StrategyResult)
         (ts : list TradeRecord) (s : StrategySummary),
    wheel res = Some r ->
    Js.truthy (error r) = true ->
    ResultsPanel.render host (Some res) false "live"
    = ResultsPanel.render host
        (Some {| wheel := Some (Fixtures.withPayload ts s r); rotator := rotator res;
                 results_status := results_status res; ran_at := ran_at res;
                 results_total_trades := results_total_trades res;
                 combined_summary := combined_summary res |})
        false "live".

(** A week label that parses as a number: a non-empty string of decimal
    digits, with its value. *)
Definition weekNumber (w : string) : option N :=
  match w with
  | EmptyString => None
  | _ => option_map N.of_uint (NilEmpty.uint_of_string w)
  end.

(** The reading of C6 as it is stated, for the ascending direction: in the
    output, weeks that parse as numbers follow each other in numeric order. *)
Definition weeks_in_numeric_order (out : list TradeRecord) : Prop :=
  forall (i j : nat) (a b : TradeRecord) (n m : N),
    i < j ->
    nth_error out i = Some a -> nth_error out j = Some b ->
    weekNumber (week a) = Some n -> weekNumber (week b) = Some m ->
    (n <= m)%N.

(** Two trades have equal sort keys: the same string, or numbers that are
    equal as [===] has it. *)
Definition keyEqb (host : Host) (field : TradesTable.SortField)
    (a b : TradeRecord) : bool :=
  match TradesTable.sortValues host field a b with
  | TradesTable.Strings s t => String.eqb s t
  | TradesTable.Numbers x y => PrimFloat.eqb x y
  end.

(** A compare function does not place [x] strictly after [y]. *)
Definition notAfter {A : Type} (comparefn : A -> A -> Js.number) (x y : A) : Prop :=
  Js.sortCompare (comparefn x y) <> Gt.

(** [a] is placed no later than [b] by the collation of their weeks. *)
Definition weekOrder (host : Host) (direction : TradesTable.SortDirection)
    (a b : TradeRecord) : Prop :=
  match direction with
  | TradesTable.Asc => notAfter (localeCompare host) (week a) (week b)
  | TradesTable.Desc => notAfter (localeCompare host) (week b) (week a)
  end.

(** [needle] occurs in [key], code unit for code unit. *)
Definition occursIn (needle key : string) : Prop :=
  exists pre post : string, key = (pre ++ needle ++ post)%string.

(** The case-insensitive match of C8 as it is stated. *)
Definition includesIgnoringCase (needle key : string) : bool :=
  Js.includes needle (Js.toLowerCaseString key).

(** The reading of C8 as it is stated: a number under a key that matches
    when case is ignored is rendered as a percentage. *)
Definition percentage_key_ignoring_case : Prop :=
  forall (key : string) (x : Js.number),
    (includesIgnoringCase "rate" key || includesIgnoringCase "percentage" key
     || includesIgnoringCase "ratio" key) = true ->
    SummaryMetrics.metricText key (Js.VNumber x) = SummaryMetrics.FormatPercentage x.

(** The reading of C5's last part as it is stated: what [execute] reports
    for a failure without a response is one fixed message. *)
Definition network_failure_message_is_stable : Prop :=
  exists fixed : string,
    forall message : string,
      UseApi.errorMessage (UseApi.AxiosError None message) = fixed.

(** The reading of C3 as it is stated, for the chart builder: with an
    initial capital of zero the return percent of a row is zero. *)
Definition chart_return_percent_guarded : Prop :=
  forall (label : string) (r : StrategyResult),
    PrimFloat.eqb (initial_capital (summary r)) 0%float = true ->
    PerformanceChart.returnPercent (PerformanceChart.comparisonRow label r) = 0%float.

(** The keys C8 is about, in the spelling the code looks for. *)
Definition percentageKey (key : string) : Prop :=
  occursIn "rate" key \/ occursIn "percentage" key \/ occursIn "ratio" key.

(** The comparison rows in the words of the specification.  A view is either
    a success or a failure carrying an [error]; per successful view
    [pnl = finalCapital - initialCapital] and
    [returnPct = initialCapital > 0 ? pnl / initialCapital * 100 : 0]. *)
Definition isSuccess (view : StrategyResult) : bool :=
  match error view with
  | None => true
  | Some _ => false
  end.

Definition pnl (s : StrategySummary) : Js.number :=
  PrimFloat.sub (final_capital s) (initial_capital s).

Definition returnPct (s : StrategySummary) : Js.number :=
  if PrimFloat.ltb 0%float (initial_capital s)
  then PrimFloat.mul (PrimFloat.div (pnl s) (initial_capital s)) 100%float
  else 0%float.

(** The [ChartDatum] of a successful view. *)
Definition chartDatum (label : string) (view : StrategyResult)
    : PerformanceChart.ComparisonRow :=
  {| PerformanceChart.strategyLabel := label;
     PerformanceChart.returnAmount := pnl (summary view);
     PerformanceChart.returnPercent := returnPct (summary view);
     PerformanceChart.tradeCount := total_trades (summary view);
     PerformanceChart.initialCapital := initial_capital (summary view);
     PerformanceChart.finalCapital := final_capital (summary view) |}.

(** [buildComparison]: one row per successful view, none for a view that
    failed or is not there. *)
Definition buildComparison (views : list (string * option StrategyResult))
    : list PerformanceChart.ComparisonRow :=
  flat_map
    (fun entry =>
       match snd entry with
       | Some view => if isSuccess view then [chartDatum (fst entry) view] else []
       | None => []
       end)
    views.

(** The two views the chart is given, under the labels the chart gives
    them. *)
Definition chartViews (wheelResult rotatorResult : option StrategyResult)
    : list (string * option StrategyResult) :=
  [("Options Wheel", wheelResult); ("Crypto Rotator", rotatorResult)].

(** The reading of C9 as it is stated: whatever the views, the chart's
    comparison dataset is the specified one. *)
Definition comparison_rows_as_specified : Prop :=
  forall wheelResult rotatorResult : option StrategyResult,
    PerformanceChart.comparisonData wheelResult rotatorResult
    = buildComparison (chartViews wheelResult rotatorResult).

(** A view as the data model of the specification has it: a failure's
    [error] is not the empty string, a success has an initial capital above
    zero. *)
Definition inDataModel (view : option StrategyResult) : bool :=
  match view with
  | Some v =>
      match error v with
      | Some e => negb (String.eqb e "")
      | None => PrimFloat.ltb 0%float (initial_capital (summary v))
      end
  | None => true
  end.

End Spec.

(** ** More of the standard library of the language *)

Module JsText.

(** White space and line terminators among the code units below 256, as
    [String.prototype.trim] strips them. *)
Definition isWhiteSpace (c : ascii) : bool :=
  let n := nat_of_ascii c in
  (((9 <=? n) && (n <=? 13)) || (n =? 32) || (n =? 160))%nat.

(** [s.trimStart()], [s.trimEnd()] and [s.trim()] *)
Fixpoint trimStart (s : string) : string :=
  match s with
  | EmptyString => EmptyString
  | String c rest => if isWhiteSpace c then trimStart rest else s
  end.

Fixpoint trimEnd (s : string) : string :=
  match s with
  | EmptyString => EmptyString
  | String c rest =>
      match trimEnd rest with
      | EmptyString => if isWhiteSpace c then EmptyString else String c EmptyString
      | kept => String c kept
      end
  end.

Definition trim (s : string) : string := trimEnd (trimStart s).

(** [s.split(sep)] for a separator of one code unit: the pieces between the
    separators, of which there is always at least one. *)
Fixpoint split (sep : ascii) (s : string) : list string :=
  match s with
  | EmptyString => [EmptyString]
  | String c rest =>
      if Ascii.eqb c sep then EmptyString :: split sep rest
      else match split sep rest with
           | [] => [String c EmptyString]
           | piece :: pieces => String c piece :: pieces
           end
  end.

(** [items.join(sep)] *)
Definition join (sep : string) (items : list string) : string :=
  String.concat sep items.

(** [text.substring(0, end)] for an integer [end]: a negative [end] counts
    as zero, one beyond the length as the length. *)
Definition substringTo (finish : Z) (text : string) : string :=
  String.substring 0 (Z.to_nat finish) text.

(** The decimal digits of a natural number, as a template literal prints
    them. *)
Definition natToString (n : nat) : string :=
  NilEmpty.string_of_uint (Nat.to_uint n).

End JsText.

(** ** [utils/formatters.ts] *)

Module Formatters.

Local Open Scope float_scope.

(** The three shapes of [formatDuration]'s result: the number printed with
    one decimal, followed by [s], [m] or [h]. *)
Inductive Duration :=
| Seconds (x : Js.number)
| Minutes (x : Js.number)
| Hours (x : Js.number).

Definition formatDuration (seconds : Js.number) : Duration :=
  if seconds <? 60 then Seconds seconds
  else if seconds <? 3600 then Minutes (seconds / 60)
  else Hours (seconds / 3600).

(** [formatPercentage(value, {includeSign, decimals})]: whether a [+] is
    printed, and the number with its count of decimals. *)
Record Percentage := {
  plusSign : bool;
  shown : Js.number;
  decimals : nat
}.

Definition formatPercentage (value : Js.number) (includeSign : option bool)
    (decimalsOption : option nat) : Percentage :=
  let includeSign := match includeSign with Some b => b | None => true end in
  let decimals := match decimalsOption with Some d => d | None => 2%nat end in
  {| plusSign := includeSign && (0 <=? value); shown := value; decimals := decimals |}.

Definition getPnLColor (value : Js.number) : string :=
  if 0 <=? value then "text-green-600"%string else "text-red-600"%string.

(** [truncateText(text, maxLength)] for an integer [maxLength]. *)
Definition truncateText (text : string) (maxLength : Z) : string :=
  if (Z.of_nat (String.length text) <=? maxLength)%Z then text
  else (JsText.substringTo (maxLength - 3) text ++ "...")%string.

End Formatters.

(** ** [hooks/useApi.ts]: [useApiState] *)

Module UseApiState.

Section Hook.

Variable T : Type.

(** The argument of the hook. *)
Variable initialData : option T.

(** The three [useState] cells [data], [loading] and [error], held together. *)
Definition Cells := UseApi.ApiState T.

Definition initialCells : Cells :=
  {| UseApi.data := initialData; UseApi.loading := false; UseApi.error := None |}.

Definition setData (d : option T) (s : Cells) : Cells :=
  {| UseApi.data := d; UseApi.loading := UseApi.loading s; UseApi.error := UseApi.error s |}.

Definition setLoading (b : bool) (s : Cells) : Cells :=
  {| UseApi.data := UseApi.data s; UseApi.loading := b; UseApi.error := UseApi.error s |}.

Definition setError (e : option string) (s : Cells) : Cells :=
  {| UseApi.data := UseApi.data s; UseApi.loading := UseApi.loading s; UseApi.error := e |}.

(** How a call of [execute] ends: it returns the result or rethrows what it
    caught. *)
Inductive Outcome :=
| Returned (result : T)
| Rethrown (err : UseApi.Thrown).

(** [execute] up to its [await]. *)
Definition executeStart (s : Cells) : Cells :=
  setError None (setLoading true s).

(** [execute] from its [await] on: the [try] or the [catch] block, then the
    [finally] block. *)
Definition executeSettled (settled : UseApi.Settlement T) (s : Cells) : Cells * Outcome :=
  match settled with
  | UseApi.Fulfilled result =>
      (setLoading false (setData (Some result) s), Returned result)
  | UseApi.RejectedWith err =>
      (setLoading false (setError (Some (UseApi.errorMessage err)) s), Rethrown err)
  end.

Definition reset (s : Cells) : Cells :=
  setLoading false (setError None (setData initialData s)).

(** The events of [useApi], and calls of the two setters the hook hands out. *)
Inductive Event :=
| Shared (ev : UseApi.Event T)
| SetData (d : option T)
| SetError (e : option string).

Definition mount : UseApi.Hook T :=
  {| UseApi.state := initialCells; UseApi.pending := [] |}.

Definition step (h : UseApi.Hook T) (ev : Event) : UseApi.Hook T :=
  match ev with
  | Shared (UseApi.Execute call) =>
      {| UseApi.state := executeStart (UseApi.state h);
         UseApi.pending := call :: UseApi.pending h |}
  | Shared (UseApi.Settled call settled) =>
      if UseApi.isPending call (UseApi.pending h)
      then {| UseApi.state := fst (executeSettled settled (UseApi.state h));
              UseApi.pending := UseApi.resume call (UseApi.pending h) |}
      else h
  | Shared UseApi.Reset =>
      {| UseApi.state := reset (UseApi.state h); UseApi.pending := UseApi.pending h |}
  | SetData d =>
      {| UseApi.state := setData d (UseApi.state h); UseApi.pending := UseApi.pending h |}
  | SetError e =>
      {| UseApi.state := setError e (UseApi.state h); UseApi.pending := UseApi.pending h |}
  end.

Definition run (h : UseApi.Hook T) (evs : list Event) : UseApi.Hook T :=
  fold_left step evs h.

End Hook.

Arguments Shared {T} _.
Arguments SetData {T} _.
Arguments SetError {T} _.

End UseApiState.

(** ** [types.ts] and [types/api.ts]: the configuration *)

Module Config.

Record Simulation := {
  weeks_to_simulate : Js.number;
  enable_deterministic_mode : bool
}.

(** [ConfigData]; [more] holds the entries of its index signature. *)
Record ConfigData := {
  initial_capital : Js.number;
  strategies_wheel : bool;
  strategies_rotator : bool;
  allocation_wheel : Js.number;
  allocation_rotator : Js.number;
  data_mode : string;
  wheel_symbols : list string;
  rotator_symbols : list string;
  simulation : option Simulation;
  more : list (string * Js.value)
}.

Record ConfigUpdateResponse := {
  config : ConfigData;
  message : string
}.

End Config.

(** ** [components/ControlsPanel.tsx] *)

Module ControlsPanel.

(** The two [useState] cells of the component. *)
Record State := {
  localConfig : Config.ConfigData;
  selectedStrategies : list string
}.

Definition initialState (config : Config.ConfigData) : State :=
  {| localConfig := config; selectedStrategies := ["wheel"; "rotator"] |}.

(** The updater [handleStrategyToggle] passes to [setSelectedStrategies]. *)
Definition toggle (strategy : string) (prev : list string) : list string :=
  if Js.arrayIncludes prev strategy
  then filter (fun s => negb (String.eqb s strategy)) prev
  else prev ++ [strategy].

Definition handleStrategyToggle (strategy : string) (st : State) : State :=
  {| localConfig := localConfig st;
     selectedStrategies := toggle strategy (selectedStrategies st) |}.

(** The [symbols] computed by [handleSymbolsChange] from the text of the
    input. *)
Definition symbolsOf (value : string) : list string :=
  filter (fun s => (0 <? String.length s)%nat)
    (map JsText.trim (JsText.split "," value)).

Inductive SymbolsField := WheelSymbols | RotatorSymbols.

(** [handleSymbolsChange(type, value)], with the un-nested branch of
    [handleConfigChange] for the key it is given. *)
Definition handleSymbolsChange (type : SymbolsField) (value : string) (st : State) : State :=
  let c := localConfig st in
  let symbols := symbolsOf value in
  {| localConfig :=
       {| Config.initial_capital := Config.initial_capital c;
          Config.strategies_wheel := Config.strategies_wheel c;
          Config.strategies_rotator := Config.strategies_rotator c;
          Config.allocation_wheel := Config.allocation_wheel c;
          Config.allocation_rotator := Config.allocation_rotator c;
          Config.data_mode := Config.data_mode c;
          Config.wheel_symbols :=
            match type with WheelSymbols => symbols | RotatorSymbols => Config.wheel_symbols c end;
          Config.rotator_symbols :=
            match type with RotatorSymbols => symbols | WheelSymbols => Config.rotator_symbols c end;
          Config.simulation := Config.simulation c;
          Config.more := Config.more c |};
     selectedStrategies := selectedStrategies st |}.

(** The text shown in the input of a symbol list. *)
Definition symbolsText (symbols : list string) : string :=
  JsText.join ", " symbols.

(** [configOverrides] *)
Record ConfigOverrides := {
  override_data_mode : string;
  override_wheel_symbols : list string;
  override_rotator_symbols : list string;
  override_simulation : option Config.Simulation
}.

(** What [handleRun] does: an [alert], or a call of [onRunStrategies]. *)
Inductive RunAction :=
| Alert (text : string)
| OnRunStrategies (strategies : list string) (configOverrides : ConfigOverrides).

Definition handleRun (st : State) : RunAction :=
  match selectedStrategies st with
  | [] => Alert "Please select at least one strategy to run"
  | strategies =>
      OnRunStrategies strategies
        {| override_data_mode := Config.data_mode (localConfig st);
           override_wheel_symbols := Config.wheel_symbols (localConfig st);
           override_rotator_symbols := Config.rotator_symbols (localConfig st);
           override_simulation := Config.simulation (localConfig st) |}
  end.

Inductive Icon := Clock | AlertCircle | CheckCircle.

Definition getStatusIcon (isLoading : bool) (error : option string) (status : string)
    : option Icon :=
  if isLoading then Some Clock
  else if Js.truthy error then Some AlertCircle
  else if Js.includes "Completed" status then Some CheckCircle
  else None.

(** [Status: {error || status}] *)
Definition statusText (error : option string) (status : string) : string :=
  Js.orElse error status.

(** The [disabled] attribute and the text of the run button. *)
Definition runDisabled (isLoading : bool) (st : State) : bool :=
  isLoading || (List.length (selectedStrategies st) =? 0)%nat.

Definition runLabel (isLoading : bool) (st : State) : string :=
  if isLoading then "Running Strategies..."
  else
    let n := List.length (selectedStrategies st) in
    ("Run " ++ JsText.natToString n ++ " Strategy"
     ++ (if negb (n =? 1)%nat then "ies" else ""))%string.

End ControlsPanel.

(** ** [App.tsx] *)

Module App.

Inductive Tab := Help | Portfolio | Recommendations | Backtest | Strategy.

Section Application.

(** The browser, and the type of what the back-testing end point returns
    (it is [any] in the source). *)
Variable host : Host.
Variable B : Type.

(** The four [useState] cells and the four [useApi] hooks. *)
Record State := {
  config : option Config.ConfigData;
  results : option Types.StrategyResults;
  status : string;
  activeTab : Tab;
  configApi : UseApi.Hook Config.ConfigData;
  updateConfigApi : UseApi.Hook Config.ConfigUpdateResponse;
  runStrategiesApi : UseApi.Hook Types.StrategyResults;
  backtestApi : UseApi.Hook B
}.

Definition initialState : State :=
  {| config := None; results := None; status := "Ready"; activeTab := Help;
     configApi := UseApi.mount; updateConfigApi := UseApi.mount;
     runStrategiesApi := UseApi.mount; backtestApi := UseApi.mount |}.

(** Each handler awaits [execute] once, so it runs in two parts: up to the
    [await] (which starts the call), and from it on (when the call has
    settled).  [loadConfig]: *)
Definition loadConfigStart (call : nat) (st : State) : State :=
  {| config := config st; results := results st; status := status st;
     activeTab := activeTab st;
     configApi := UseApi.step (configApi st) (UseApi.Execute call);
     updateConfigApi := updateConfigApi st; runStrategiesApi := runStrategiesApi st;
     backtestApi := backtestApi st |}.

Definition loadConfigSettled (call : nat) (settled : UseApi.Settlement Config.ConfigData)
    (st : State) : State :=
  if UseApi.isPending call (UseApi.pending (configApi st))
  then
    {| config :=
         match settled with
         | UseApi.Fulfilled data => Some data
         | UseApi.RejectedWith _ => config st
         end;
       results := results st; status := status st; activeTab := activeTab st;
       configApi := UseApi.step (configApi st) (UseApi.Settled call settled);
       updateConfigApi := updateConfigApi st; runStrategiesApi := runStrategiesApi st;
       backtestApi := backtestApi st |}
  else st.

(** [updateConfig] *)
Definition updateConfigStart (call : nat) (st : State) : State :=
  {| config := config st; results := results st; status := status st;
     activeTab := activeTab st; configApi := configApi st;
     updateConfigApi := UseApi.step (updateConfigApi st) (UseApi.Execute call);
     runStrategiesApi := runStrategiesApi st; backtestApi := backtestApi st |}.

Definition updateConfigSettled (call : nat)
    (settled : UseApi.Settlement Config.ConfigUpdateResponse) (st : State) : State * bool :=
  if UseApi.isPending call (UseApi.pending (updateConfigApi st))
  then
    ({| config :=
          match settled with
          | UseApi.Fulfilled data => Some (Config.config data)
          | UseApi.RejectedWith _ => config st
          end;
        results := results st; status := status st; activeTab := activeTab st;
        configApi := configApi st;
        updateConfigApi := UseApi.step (updateConfigApi st) (UseApi.Settled call settled);
        runStrategiesApi := runStrategiesApi st; backtestApi := backtestApi st |},
     match settled with UseApi.Fulfilled _ => true | UseApi.RejectedWith _ => false end)
  else (st, false).

(** [runStrategies]; [now] is [new Date().toLocaleTimeString()]. *)
Definition runStrategiesStart (call : nat) (st : State) : State :=
  {| config := config st; results := None; status := "Running strategies...";
     activeTab := activeTab st; configApi := configApi st;
     updateConfigApi := updateConfigApi st;
     runStrategiesApi := UseApi.step (runStrategiesApi st) (UseApi.Execute call);
     backtestApi := backtestApi st |}.

Definition runStrategiesSettled (call : nat)
    (settled : UseApi.Settlement Types.StrategyResults) (now : string) (st : State) : State :=
  if UseApi.isPending call (UseApi.pending (runStrategiesApi st))
  then
    {| config := config st;
       results :=
         match settled with
         | UseApi.Fulfilled data => Some data
         | UseApi.RejectedWith _ => results st
         end;
       status :=
         match settled with
         | UseApi.Fulfilled _ => ("Completed at " ++ now)%string
         | UseApi.RejectedWith _ => "Failed"
         end;
       activeTab := activeTab st; configApi := configApi st;
       updateConfigApi := updateConfigApi st;
       runStrategiesApi := UseApi.step (runStrategiesApi st) (UseApi.Settled call settled);
       backtestApi := backtestApi st |}
  else st.

(** [runBacktest] *)
Definition runBacktestStart (call : nat) (st : State) : State :=
  {| config := config st; results := results st; status := status st;
     activeTab := activeTab st; configApi := configApi st;
     updateConfigApi := updateConfigApi st; runStrategiesApi := runStrategiesApi st;
     backtestApi := UseApi.step (backtestApi st) (UseApi.Execute call) |}.

Definition runBacktestSettled (call : nat) (settled : UseApi.Settlement B)
    (st : State) : State :=
  {| config := config st; results := results st; status := status st;
     activeTab := activeTab st; configApi := configApi st;
     updateConfigApi := updateConfigApi st; runStrategiesApi := runStrategiesApi st;
     backtestApi := UseApi.step (backtestApi st) (UseApi.Settled call settled) |}.

Definition setActiveTab (tab : Tab) (st : State) : State :=
  {| config := config st; results := results st; status := status st;
     activeTab := tab; configApi := configApi st;
     updateConfigApi := updateConfigApi st; runStrategiesApi := runStrategiesApi st;
     backtestApi := backtestApi st |}.

(** What is on the screen. *)
Record ControlsProps := {
  controlsConfig : Config.ConfigData;
  controlsLoading : bool;
  controlsStatus : string;
  controlsError : option string
}.

Inductive Content :=
| ExplainerPanel
| PortfolioPanel
| RecommendationsPanel
| BacktestPanel (isLoading : bool) (error : option string) (results : option B)
| StrategyTesting (controls : ControlsProps) (resultsPanel : ResultsPanel.View).

Inductive View :=
| LoadingConfiguration
| Page (tab : Tab) (content : Content).

Definition render (st : State) : View :=
  match UseApi.loading (UseApi.state (configApi st)), config st with
  | false, Some cfg =>
      Page (activeTab st)
        match activeTab st with
        | Help => ExplainerPanel
        | Portfolio => PortfolioPanel
        | Recommendations => RecommendationsPanel
        | Backtest =>
            BacktestPanel (UseApi.loading (UseApi.state (backtestApi st)))
              (UseApi.error (UseApi.state (backtestApi st)))
              (UseApi.data (UseApi.state (backtestApi st)))
        | Strategy =>
            StrategyTesting
              {| controlsConfig := cfg;
                 controlsLoading := UseApi.loading (UseApi.state (runStrategiesApi st));
                 controlsStatus := status st;
                 controlsError := UseApi.error (UseApi.state (runStrategiesApi st)) |}
              (ResultsPanel.render host (results st)
                 (UseApi.loading (UseApi.state (runStrategiesApi st)))
                 (Config.data_mode cfg))
        end
  | _, _ => LoadingConfiguration
  end.

(** A click on the run button of the controls panel, whose state is
    [panel]: nothing happens unless the button is on the screen and enabled;
    otherwise [handleRun] runs and calls [runStrategies]. *)
Definition clickRun (call : nat) (panel : ControlsPanel.State) (st : State) : State :=
  match render st with
  | Page Strategy (StrategyTesting controls _) =>
      if ControlsPanel.runDisabled (controlsLoading controls) panel then st
      else match ControlsPanel.handleRun panel with
           | ControlsPanel.OnRunStrategies _ _ => runStrategiesStart call st
           | ControlsPanel.Alert _ => st
           end
  | _ => st
  end.

(** What can happen to the application. *)
Inductive Event :=
| LoadConfig (call : nat)
| LoadConfigSettled (call : nat) (settled : UseApi.Settlement Config.ConfigData)
| UpdateConfig (call : nat)
| UpdateConfigSettled (call : nat) (settled : UseApi.Settlement Config.ConfigUpdateResponse)
| ClickRun (call : nat) (panel : ControlsPanel.State)
| RunStrategiesSettled (call : nat) (settled : UseApi.Settlement Types.StrategyResults)
    (now : string)
| RunBacktest (call : nat)
| RunBacktestSettled (call : nat) (settled : UseApi.Settlement B)
| SetActiveTab (tab : Tab).

Definition step (st : State) (ev : Event) : State :=
  match ev with
  | LoadConfig call => loadConfigStart call st
  | LoadConfigSettled call settled => loadConfigSettled call settled st
  | UpdateConfig call => updateConfigStart call st
  | UpdateConfigSettled call settled => fst (updateConfigSettled call settled st)
  | ClickRun call panel => clickRun call panel st
  | RunStrategiesSettled call settled now => runStrategiesSettled call settled now st
  | RunBacktest call => runBacktestStart call st
  | RunBacktestSettled call settled => runBacktestSettled call settled st
  | SetActiveTab tab => setActiveTab tab st
  end.

Definition run (st : State) (evs : list Event) : State :=
  fold_left step evs st.

End Application.

Arguments config {B} _.
Arguments results {B} _.
Arguments status {B} _.
Arguments activeTab {B} _.
Arguments configApi {B} _.
Arguments updateConfigApi {B} _.
Arguments runStrategiesApi {B} _.
Arguments backtestApi {B} _.
Arguments initialState {B}.
Arguments LoadConfig {B} _.
Arguments LoadConfigSettled {B} _ _.
Arguments UpdateConfig {B} _.
Arguments UpdateConfigSettled {B} _ _.
Arguments ClickRun {B} _ _.
Arguments RunStrategiesSettled {B} _ _ _.
Arguments RunBacktest {B} _.
Arguments RunBacktestSettled {B} _ _.
Arguments SetActiveTab {B} _.
Arguments step host {B} _ _.
Arguments run host {B} _ _.
Arguments render host {B} _.
Arguments clickRun host {B} _ _ _.
Arguments runStrategiesStart {B} _ _.
Arguments runStrategiesSettled {B} _ _ _ _.
Arguments StrategyTesting {B} _ _.
Arguments LoadingConfiguration {B}.
Arguments Page {B} _ _.

End App.

(** The configuration mock of [tests/utils/test-utils.tsx], and a controls
    panel freshly mounted on it. *)

Module ConfigFixtures.

Local Open Scope float_scope.

Definition mockConfig : Config.ConfigData :=
  {| Config.initial_capital := 100000;
     Config.strategies_wheel := true;
     Config.strategies_rotator := true;
     Config.allocation_wheel := 0.5;
     Config.allocation_rotator := 0.5;
     Config.data_mode := "live";
     Config.wheel_symbols := ["SPY"; "QQQ"; "IWM"]%string;
     Config.rotator_symbols := ["BTC"; "ETH"; "SOL"]%string;
     Config.simulation :=
       Some {| Config.weeks_to_simulate := 8;
               Config.enable_deterministic_mode := true |};
     Config.more := [] |}.

Definition mockPanel : ControlsPanel.State :=
  ControlsPanel.initialState mockConfig.

End ConfigFixtures.

(** ** Notions the further statements are phrased with *)

Module Notions.

(** The trades the action chart counts for one view: those of a view that
    is there and has no error. *)
Definition countedTrades (view : option Types.StrategyResult) : list Types.TradeRecord :=
  match PerformanceChart.succeeded view with
  | Some r => Types.trades r
  | None => []
  end.

(** How many of the trades are shown under the action label [label]. *)
Definition tradesLabelled (label : string) (trades : list Types.TradeRecord) : nat :=
  List.length
    (filter (fun t => String.eqb (Js.replaceFirstUnderscore (Types.action t)) label) trades).

(** The names every object inherits from [Object.prototype].  Looking one
    of them up in the fresh [actionData] object finds the inherited member,
    not a count, so the action chart is embedded for other labels only. *)
Definition inheritedKeys : list string :=
  ["constructor"; "toString"; "toLocaleString"; "valueOf"; "hasOwnProperty";
   "isPrototypeOf"; "propertyIsEnumerable"; "__proto__"; "__defineGetter__";
   "__defineSetter__"; "__lookupGetter__"; "__lookupSetter__"].

Definition ownLabels (trades : list Types.TradeRecord) : Prop :=
  Forall (fun t => ~ In (Js.replaceFirstUnderscore (Types.action t)) inheritedKeys)
    trades.

(** The count an action chart dataset holds for [label]: zero if there is
    no entry for it. *)
Fixpoint countFor (label : string) (counts : list (string * nat)) : nat :=
  match counts with
  | [] => 0
  | (l, n) :: rest => if String.eqb l label then n else countFor label rest
  end.

(** A string begins, respectively ends, with a code unit that is not white
    space (or is empty). *)
Definition startsClean (s : string) : bool :=
  match s with
  | EmptyString => true
  | String c _ => negb (JsText.isWhiteSpace c)
  end.

Fixpoint endsClean (s : string) : bool :=
  match s with
  | EmptyString => true
  | String c EmptyString => negb (JsText.isWhiteSpace c)
  | String _ rest => endsClean rest
  end.

(** A symbol as the symbol inputs produce them: not empty, without a comma,
    and without white space at either end. *)
Definition cleanSymbol (s : string) : Prop :=
  s <> "" /\ Js.includes "," s = false /\ startsClean s = true /\ endsClean s = true.

(** A hook is idle, or loading with exactly one call in flight. *)
Definition singleFlight {T : Type} (h : UseApi.Hook T) : Prop :=
  (UseApi.loading (UseApi.state h) = false /\ UseApi.pending h = [])
  \/ (UseApi.loading (UseApi.state h) = true /\ exists c, UseApi.pending h = [c]).

(** An event that delivers a configuration to the application. *)
Definition deliversConfig {B : Type} (ev : App.Event B) : bool :=
  match ev with
  | App.LoadConfigSettled _ (UseApi.Fulfilled _) => true
  | App.UpdateConfigSettled _ (UseApi.Fulfilled _) => true
  | _ => false
  end.

End Notions.

(** ** The sort as the V8 engine runs it

    What [Array.prototype.sort] returns is fixed by the language only for a
    consistent compare function; there every stable sort returns the same
    array, and [Js.sort] is that array.  A compare function that subtracts
    two sort keys stops being consistent when a key is [NaN], and the order
    is then the engine's business.  This is V8's [ArrayTimSortImpl]
    ([third_party/v8/builtins/array-sort.tq]) for an array of fewer than 64
    elements, where [ComputeMinRunLength] returns the length: the first run
    is counted (and reversed if it descends), and the elements after it are
    put in place by binary insertion. *)

Module V8.

Section TimSort.

Variable A : Type.
Variable comparefn : A -> A -> Js.number.

(** [sortState.Compare(x, y)]: the compare function's number, [NaN] read
    as zero. *)
Definition order (x y : A) : comparison := Js.sortCompare (comparefn x y).

Definition isLt (c : comparison) : bool :=
  match c with Lt => true | _ => false end.

(** The loop of [CountAndMakeRun]: the elements that continue the run after
    [previousElement], and those left over.  A run that is not descending
    ends before an element with [order < 0], a descending one before an
    element with [order >= 0]. *)
Fixpoint extendRun (isDescending : bool) (previousElement : A) (rest : list A)
    : list A * list A :=
  match rest with
  | [] => ([], [])
  | currentElement :: rest' =>
      let o := order currentElement previousElement in
      if (if isDescending then negb (isLt o) else isLt o) then ([], rest)
      else
        let (run, left) := extendRun isDescending currentElement rest' in
        (currentElement :: run, left)
  end.

(** [CountAndMakeRun]: the first run, made ascending, and what follows it. *)
Definition countAndMakeRun (items : list A) : list A * list A :=
  match items with
  | [] => ([], [])
  | [x] => ([x], [])
  | elementHigh :: elementLow :: rest =>
      let isDescending := isLt (order elementLow elementHigh) in
      let (run, left) := extendRun isDescending elementLow rest in
      let whole := elementHigh :: elementLow :: run in
      (if isDescending then rev whole else whole, left)
  end.

(** The [while (left < right)] loop of [BinaryInsertionSort]; each turn
    shortens the interval, so [fuel] turns are enough for an interval of
    [fuel] elements. *)
Fixpoint search (fuel : nat) (pivot : A) (sorted : list A) (left right : nat) : nat :=
  match fuel with
  | O => left
  | S fuel' =>
      if (left <? right)%nat then
        let mid := left + Nat.div2 (right - left) in
        match nth_error sorted mid with
        | Some element =>
            if isLt (order pivot element) then search fuel' pivot sorted left mid
            else search fuel' pivot sorted (mid + 1) right
        | None => left
        end
      else left
  end.

(** One turn of the outer loop of [BinaryInsertionSort]: the pivot is put
    at the place the search found, the elements from there on move up. *)
Definition insertPivot (sorted : list A) (pivot : A) : list A :=
  let left := search (List.length sorted) pivot sorted 0 (List.length sorted) in
  firstn left sorted ++ pivot :: skipn left sorted.

Definition binaryInsertionSort (run rest : list A) : list A :=
  fold_left insertPivot rest run.

Definition sort (items : list A) : list A :=
  let (run, rest) := countAndMakeRun items in
  binaryInsertionSort run rest.

End TimSort.

Arguments order {A} _ _ _.
Arguments extendRun {A} _ _ _ _.
Arguments sort {A} _ _.
Arguments search {A} _ _ _ _ _ _.
Arguments insertPivot {A} _ _ _.
Arguments countAndMakeRun {A} _ _.
Arguments binaryInsertionSort {A} _ _ _.

End V8.

(** A host that parses three of the strings used below as dates and no
    other string, and seven trades of which the third has a time stamp that
    is not a date. *)

Module DateFixtures.

Local Open Scope float_scope.

Definition timeOf (s : string) : Js.number :=
  if String.eqb s "2025-06-28T13:09:01Z" then 1751116141000
  else if String.eqb s "2025-06-28T13:09:02Z" then 1751116142000
  else if String.eqb s "2025-06-28T13:09:03Z" then 1751116143000
  else nan.

Definition dateHost : Host :=
  {| localeCompare := Fixtures.codeUnitCompare; getTime := timeOf |}.

Definition tradeAt (w stamp : string) : Types.TradeRecord :=
  {| Types.week := w; Types.strategy := "Wheel"; Types.symbol := "IWM";
     Types.action := "SELL_PUT"; Types.quantity := 1; Types.price := 3.96;
     Types.strike := Some 198.12; Types.cash_flow := 3.96; Types.notes := "";
     Types.timestamp := stamp |}.

Definition withBadStamp : list Types.TradeRecord :=
  [ tradeAt "0" "2025-06-28T13:09:01Z";
    tradeAt "1" "2025-06-28T13:09:02Z";
    tradeAt "2" "not a date";
    tradeAt "3" "2025-06-28T13:09:02Z";
    tradeAt "4" "2025-06-28T13:09:02Z";
    tradeAt "5" "2025-06-28T13:09:02Z";
    tradeAt "6" "2025-06-28T13:09:02Z" ].

Definition withGoodStamps : list Types.TradeRecord :=
  [ tradeAt "0" "2025-06-28T13:09:01Z";
    tradeAt "1" "2025-06-28T13:09:02Z";
    tradeAt "2" "2025-06-28T13:09:03Z";
    tradeAt "3" "2025-06-28T13:09:02Z";
    tradeAt "4" "2025-06-28T13:09:02Z";
    tradeAt "5" "2025-06-28T13:09:02Z";
    tradeAt "6" "2025-06-28T13:09:02Z" ].

End DateFixtures.

(** ** Notions for the agreement of the two sorts *)

Module SortNotions.

Section Places.

Variable A : Type.
Variable comparefn : A -> A -> Js.number.

(** Insertion from the far end: [x] goes before the first element that is
    strictly after it, so behind every element it compares equal to. *)
Fixpoint insertLast (x : A) (sorted : list A) : list A :=
  match sorted with
  | [] => [x]
  | y :: rest =>
      if V8.isLt (V8.order comparefn x y) then x :: sorted
      else y :: insertLast x rest
  end.

(** The place of [p] in a list: no element before it is strictly after
    [p], every element from it on is. *)
Definition placeOf (p : A) (s : list A) (k : nat) : Prop :=
  (k <= List.length s)%nat
  /\ (forall i e, (i < k)%nat -> nth_error s i = Some e ->
                  V8.isLt (V8.order comparefn p e) = false)
  /\ (forall i e, (k <= i)%nat -> nth_error s i = Some e ->
                  V8.isLt (V8.order comparefn p e) = true).

(** Neighbours in a run: in an ascending run the next element is not
    strictly before the one it follows, in a descending run it is. *)
Definition runStep (isDescending : bool) (a b : A) : Prop :=
  V8.isLt (V8.order comparefn b a) = isDescending.

End Places.

Arguments insertLast {A} _ _ _.
Arguments placeOf {A} _ _ _ _.
Arguments runStep {A} _ _ _ _.

End SortNotions.

(** ** Numbers as integers

    Every number of the binary64 format other than [NaN] and the infinities
    is a multiple of the smallest positive number; [rank] is that multiple,
    with the infinities put outside of every other number. *)

Module Binary64.

Local Open Scope Z_scope.

(** The sign of a number as [Js.sortCompare] reads it. *)
Definition sign (f : spec_float) : comparison :=
  match f with
  | S754_zero _ | S754_nan => Eq
  | S754_infinity s | S754_finite s _ _ => if s then Lt else Gt
  end.

Definition scaled (prec emax : Z) (f : spec_float) : Z :=
  match f with
  | S754_zero _ | S754_nan => 0
  | S754_infinity s => cond_Zopp s (2 ^ (emax - SpecFloat.emin prec emax))
  | S754_finite s m e => cond_Zopp s (Zpos m * 2 ^ (e - SpecFloat.emin prec emax))
  end.

Definition rank (x : Js.number) : Z := scaled FloatOps.prec FloatOps.emax (Prim2SF x).

End Binary64.

(** ** Notions for the stability of the sort *)

Module Stability.

(** The reading of C7 as it is stated, for one column, one list and one
    array [sorted] made of it: the trades that share a sort key are in
    [sorted] in the order they have in the list. *)
Definition tiesKeepOrder (host : Host) (field : TradesTable.SortField)
    (trades sorted : list Types.TradeRecord) : Prop :=
  forall a : Types.TradeRecord,
    filter (Spec.keyEqb host field a) sorted
    = filter (Spec.keyEqb host field a) trades.

(** The sort key of a trade is not [NaN]: it equals itself. *)
Definition comparableKey (host : Host) (field : TradesTable.SortField)
    (t : Types.TradeRecord) : Prop :=
  Spec.keyEqb host field t t = true.

Definition comparableKeys (host : Host) (field : TradesTable.SortField)
    (trades : list Types.TradeRecord) : Prop :=
  Forall (comparableKey host field) trades.

(** The collation is consistent: comparing two strings the other way round
    gives the opposite sign, and not being after is transitive. *)
Definition consistentCollation (host : Host) : Prop :=
  (forall s t, Js.sortCompare (localeCompare host t s)
               = CompOpp (Js.sortCompare (localeCompare host s t)))
  /\ (forall s t u,
        Js.sortCompare (localeCompare host s t) <> Gt ->
        Js.sortCompare (localeCompare host t u) <> Gt ->
        Js.sortCompare (localeCompare host s u) <> Gt).

End Stability.

(** * Properties *)

(** ** The request lifecycle controller *)

Section UseApiFacts.

Import UseApi.

Variable T : Type.

Lemma isPending_head (c : nat) (calls : list nat) :
  isPending c (c :: calls) = true.
Proof. simpl. now rewrite Nat.eqb_refl. Qed.

Lemma resume_head (c : nat) (calls : list nat) :
  resume c (c :: calls) = calls.
Proof. simpl. now rewrite Nat.eqb_refl. Qed.

(** [reset] does not cancel anything: the suspended calls stay suspended. *)
Lemma reset_keeps_pending (h : Hook T) :
  pending (step h Reset) = pending h.
Proof. reflexivity. Qed.

(** The settlement of a suspended call is applied whatever happened in
    between: there is no generation check in [execute]. *)
Lemma resolved_applies (h : Hook T) (c : nat) (r : T) :
  isPending c (pending h) = true ->
  state (step h (Settled c (Fulfilled r))) =
    {| data := Some r; loading := false; error := error (state h) |}.
Proof. intros Hp. unfold step. now rewrite Hp. Qed.

Lemma rejected_applies (h : Hook T) (c : nat) (e : Thrown) :
  isPending c (pending h) = true ->
  state (step h (Settled c (RejectedWith e))) =
    {| data := data (state h); loading := false; error := Some (errorMessage e) |}.
Proof. intros Hp. unfold step. now rewrite Hp. Qed.


End UseApiFacts.

(** C1, as stated, fails: with call 1 started before call 2 and resolved
    after it, the state ends with the result of call 1. *)
Lemma overlapping_calls_keep_earlier_result :
  UseApi.state
    (UseApi.run UseApi.mount
       [UseApi.Execute 1; UseApi.Execute 2;
        UseApi.Settled 2 (UseApi.Fulfilled "result of B");
        UseApi.Settled 1 (UseApi.Fulfilled "result of A")])
  = {| UseApi.data := Some "result of A"; UseApi.loading := false;
       UseApi.error := None |}
  /\ ~ Spec.last_initiated_wins string.
Proof.
  split; [reflexivity |].
  intros H.
  specialize (H UseApi.mount 1 2 "result of A" "result of B").
  discriminate H.
Qed.

(** C1, amended: for overlapping calls A and B (A started, B started, B
    resolved, A resolved) the state after B resolves holds B's result, and
    the final state holds A's result, the one that settled last: results are
    applied in completion order and none is discarded. *)
Theorem overlapping_calls_last_settled_wins (T : Type) (h : UseApi.Hook T)
    (a b : nat) (ra rb : T) :
  UseApi.state
    (UseApi.run h [UseApi.Execute a; UseApi.Execute b;
                   UseApi.Settled b (UseApi.Fulfilled rb)])
  = {| UseApi.data := Some rb; UseApi.loading := false; UseApi.error := None |}
  /\
  UseApi.state
    (UseApi.run h [UseApi.Execute a; UseApi.Execute b;
                   UseApi.Settled b (UseApi.Fulfilled rb);
                   UseApi.Settled a (UseApi.Fulfilled ra)])
  = {| UseApi.data := Some ra; UseApi.loading := false; UseApi.error := None |}.
Proof.
  unfold UseApi.run. cbn [fold_left].
  set (h2 := UseApi.step (UseApi.step h (UseApi.Execute a)) (UseApi.Execute b)).
  assert (Hb : UseApi.isPending b (UseApi.pending h2) = true)
    by apply isPending_head.
  assert (H3 : UseApi.step h2 (UseApi.Settled b (UseApi.Fulfilled rb)) =
               {| UseApi.state :=
                    fst (UseApi.executeSettled T (UseApi.Fulfilled rb)) (UseApi.state h2);
                  UseApi.pending := a :: UseApi.pending h |}).
  { unfold UseApi.step at 1. rewrite Hb. f_equal. apply resume_head. }
  split.
  - rewrite H3. reflexivity.
  - rewrite H3. unfold UseApi.step at 1. cbn [UseApi.pending].
    rewrite isPending_head. reflexivity.
Qed.

(** C2, as stated, fails: call 1 is started, [reset] is called, call 1
    resolves, and its result is in the state. *)
Lemma late_resolution_after_reset_is_applied :
  UseApi.state
    (UseApi.run UseApi.mount
       [UseApi.Execute 1; UseApi.Reset; UseApi.Settled 1 (UseApi.Fulfilled "stale")])
  = {| UseApi.data := Some "stale"; UseApi.loading := false;
       UseApi.error := None |}
  /\ ~ Spec.reset_discards_late_result string.
Proof.
  split; [reflexivity |].
  intros H.
  specialize (H (UseApi.step UseApi.mount (UseApi.Execute 1)) 1 "stale" eq_refl).
  discriminate H.
Qed.

(** C2, amended: for every in-flight call, [reset] sets the state to
    [{data: null, loading: false, error: null}] and leaves the call in
    flight; when the call later settles, its outcome is applied to the
    state: [data] becomes its result if it resolves, [error] its message if
    it rejects. *)
Theorem reset_then_late_settlement (T : Type) (h : UseApi.Hook T)
    (c : nat) (r : T) (e : UseApi.Thrown) :
  UseApi.isPending c (UseApi.pending h) = true ->
  UseApi.state (UseApi.step h UseApi.Reset)
  = {| UseApi.data := None; UseApi.loading := false; UseApi.error := None |}
  /\ UseApi.isPending c (UseApi.pending (UseApi.step h UseApi.Reset)) = true
  /\ UseApi.state (UseApi.run h [UseApi.Reset; UseApi.Settled c (UseApi.Fulfilled r)])
     = {| UseApi.data := Some r; UseApi.loading := false; UseApi.error := None |}
  /\ UseApi.state (UseApi.run h [UseApi.Reset; UseApi.Settled c (UseApi.RejectedWith e)])
     = {| UseApi.data := None; UseApi.loading := false;
          UseApi.error := Some (UseApi.errorMessage e) |}.
Proof.
  intros Hp.
  assert (Hp' : UseApi.isPending c (UseApi.pending (UseApi.step h UseApi.Reset)) = true)
    by exact Hp.
  repeat split; try assumption.
  - unfold UseApi.run. cbn [fold_left]. now rewrite resolved_applies.
  - unfold UseApi.run. cbn [fold_left]. now rewrite rejected_applies.
Qed.

(** A call started on a fresh hook, then [reset], then the late result. *)
Lemma reset_then_late_settlement_witness :
  UseApi.state
    (UseApi.run (UseApi.run UseApi.mount [UseApi.Execute 7])
       [UseApi.Reset; UseApi.Settled 7 (UseApi.Fulfilled "late")])
  = {| UseApi.data := Some "late"; UseApi.loading := false; UseApi.error := None |}.
Proof.
  exact (proj1 (proj2 (proj2
    (reset_then_late_settlement string
       (UseApi.run UseApi.mount [UseApi.Execute 7]) 7 "late" UseApi.NotAnError
       eq_refl)))).
Defined.



(** ** Error mapping *)

(** The order in which [execute] picks the error string. *)
Lemma errorMessage_priority :
  (forall (resp : UseApi.AxiosResponse) (d message : string),
      UseApi.detail resp = Some d -> d <> "" ->
      UseApi.errorMessage (UseApi.AxiosError (Some resp) message) = d)
  /\ (forall (response : option UseApi.AxiosResponse) (message : string),
      Js.truthy (UseApi.responseDetail response) = false ->
      UseApi.errorMessage (UseApi.AxiosError response message) = message)
  /\ (forall message : string,
      UseApi.errorMessage (UseApi.OtherError message) = message)
  /\ UseApi.errorMessage UseApi.NotAnError = "An unknown error occurred".
Proof.
  repeat split.
  - intros resp d message Hd Hne. simpl. rewrite Hd.
    destruct d; [now elim Hne | reflexivity].
  - intros response message Hf. simpl.
    destruct (UseApi.responseDetail response) as [[| c d] |]; try reflexivity.
    discriminate Hf.
Qed.

(** [handleApiError] maps every failure without a response to one message. *)
Lemma handleApiError_network (message : string) :
  ApiService.handleApiError (UseApi.AxiosError None message) = ApiService.NETWORK.
Proof. reflexivity. Qed.

(** C5: a request that times out without a response.  [execute] reports the
    transport's own message, which changes with the failure, where
    [handleApiError] reports the fixed network message. *)
Theorem execute_reports_raw_network_message :
  UseApi.errorMessage (UseApi.AxiosError None "timeout of 30000ms exceeded")
  = "timeout of 30000ms exceeded"
  /\ UseApi.errorMessage (UseApi.AxiosError None "Network Error") = "Network Error"
  /\ ApiService.handleApiError (UseApi.AxiosError None "timeout of 30000ms exceeded")
     = "Network error. Please check your connection."
  /\ ~ Spec.network_failure_message_is_stable.
Proof.
  repeat split.
  intros [fixed H].
  pose proof (H "timeout of 30000ms exceeded") as H1.
  pose proof (H "Network Error") as H2.
  simpl in H1, H2. congruence.
Qed.

(** ** Return percent *)

Section FloatFacts.

Local Open Scope float_scope.

(** Subtracting two numbers that are equal gives a zero, or [NaN] when both
    are the same infinity. *)
Lemma SFsub_of_equal (x y : spec_float) :
  SFeqb x y = true ->
  SF64sub x y = S754_nan \/ exists s, SF64sub x y = S754_zero s.
Proof.
  unfold SFeqb, SF64sub.
  destruct x as [sx | sx | | sx mx ex], y as [sy | sy | | sy my ey]; simpl;
    try discriminate; try (destruct sx; discriminate); try (destruct sy; discriminate).
  - intros _. right. destruct sx, sy; eauto.
  - destruct sx, sy; try discriminate; intros _; now left.
  - intros H. right. exists false.
    assert (Hs : sx = sy /\ ex = ey /\ mx = my).
    { destruct sx, sy; try discriminate;
        destruct (Z.compare ex ey) eqn:He; try discriminate;
        apply Z.compare_eq in He;
        destruct (Pos.compare_cont Eq mx my) eqn:Hm; try discriminate;
        apply Pos.compare_eq in Hm; auto. }
    destruct Hs as (-> & -> & ->).
    rewrite Z.sub_diag. reflexivity.
Qed.

Lemma sortCompare_sub_of_equal (x y : float) :
  (x =? y) = true -> Js.sortCompare (x - y) = Eq.
Proof.
  intros H. rewrite FloatAxioms.eqb_spec in H.
  unfold Js.sortCompare. rewrite !ltb_spec, sub_spec.
  destruct (SFsub_of_equal _ _ H) as [-> | [s ->]]; reflexivity.
Qed.

(** [==] is symmetric, and two numbers equal to a third are equal. *)
Lemma SFeqb_sym (x y : spec_float) : SFeqb x y = true -> SFeqb y x = true.
Proof.
  unfold SFeqb.
  destruct x as [sx | sx | | sx mx ex], y as [sy | sy | | sy my ey]; simpl;
    try discriminate; try reflexivity;
    try (destruct sx; discriminate); try (destruct sy; discriminate).
  - destruct sx, sy; intros; try discriminate; reflexivity.
  - destruct sx, sy; try discriminate;
      destruct (Z.compare ex ey) eqn:He; try discriminate;
      apply Z.compare_eq in He; subst ey;
      destruct (Pos.compare_cont Eq mx my) eqn:Hm; try discriminate;
      apply Pos.compare_eq in Hm; subst my; intros _;
      rewrite Z.compare_refl, Pos.compare_cont_refl; reflexivity.
Qed.

Lemma SFeqb_trans (x y z : spec_float) :
  SFeqb x y = true -> SFeqb y z = true -> SFeqb x z = true.
Proof.
  unfold SFeqb.
  destruct x as [sx | sx | | sx mx ex], y as [sy | sy | | sy my ey]; simpl;
    try discriminate;
    try (destruct sx; discriminate); try (destruct sy; discriminate).
  - intros _. destruct z; simpl; auto.
  - destruct sx, sy; try discriminate; intros _; destruct z; simpl; auto.
  - intros H.
    assert (Hs : sx = sy /\ ex = ey /\ mx = my).
    { destruct sx, sy; try discriminate;
        destruct (Z.compare ex ey) eqn:He; try discriminate;
        apply Z.compare_eq in He;
        destruct (Pos.compare_cont Eq mx my) eqn:Hm; try discriminate;
        apply Pos.compare_eq in Hm; auto. }
    destruct Hs as (-> & -> & ->). auto.
Qed.

Lemma float_eqb_sym (x y : float) : (x =? y) = true -> (y =? x) = true.
Proof. rewrite !FloatAxioms.eqb_spec. apply SFeqb_sym. Qed.

Lemma float_eqb_trans (x y z : float) :
  (x =? y) = true -> (y =? z) = true -> (x =? z) = true.
Proof. rewrite !FloatAxioms.eqb_spec. apply SFeqb_trans. Qed.

(** A number equal to zero is not greater than zero. *)
Lemma not_positive_of_zero (x : float) : (x =? 0) = true -> (0 <? x) = false.
Proof.
  rewrite FloatAxioms.eqb_spec, ltb_spec.
  change (Prim2SF 0) with (S754_zero false).
  unfold SFeqb, SFltb.
  destruct (Prim2SF x) as [s | s | | s m e]; simpl; try discriminate; try reflexivity.
  - destruct s; discriminate.
  - destruct s; discriminate.
Qed.

End FloatFacts.

(** The summary card guards the division: its return percent is the
    quotient for a positive initial capital and zero for a zero one. *)
Lemma returnPercentage_guarded (s : Types.StrategySummary) :
  (PrimFloat.ltb 0%float (Types.initial_capital s) = true ->
   SummaryMetrics.returnPercentage s
   = PrimFloat.mul
       (PrimFloat.div (PrimFloat.sub (Types.final_capital s) (Types.initial_capital s))
                      (Types.initial_capital s)) 100%float)
  /\ (PrimFloat.eqb (Types.initial_capital s) 0%float = true ->
      SummaryMetrics.returnPercentage s = 0%float).
Proof.
  unfold SummaryMetrics.returnPercentage. split; intros H.
  - now rewrite H.
  - now rewrite (not_positive_of_zero _ H).
Qed.

(** The chart builder divides without a guard. *)
Lemma comparisonRow_returnPercent (label : string) (r : Types.StrategyResult) :
  PerformanceChart.returnPercent (PerformanceChart.comparisonRow label r)
  = PrimFloat.mul
      (PrimFloat.div
         (PrimFloat.sub (Types.final_capital (Types.summary r))
                        (Types.initial_capital (Types.summary r)))
         (Types.initial_capital (Types.summary r))) 100%float.
Proof. reflexivity. Qed.

(** C3: a successful view with an initial capital of zero.  The summary card
    shows a return of zero; the row the chart builder makes of the same view
    holds [Infinity] (final capital 100) or [NaN] (final capital 0). *)
Theorem chart_return_percent_unguarded :
  SummaryMetrics.returnPercentage
    (Types.summary (Fixtures.withCapital 0%float 100%float Fixtures.mockResult))
  = 0%float
  /\ PerformanceChart.comparisonData
       (Some (Fixtures.withCapital 0%float 100%float Fixtures.mockResult)) None
     = [ {| PerformanceChart.strategyLabel := "Options Wheel";
            PerformanceChart.returnAmount := 100%float;
            PerformanceChart.returnPercent := infinity;
            PerformanceChart.tradeCount := 4%float;
            PerformanceChart.initialCapital := 0%float;
            PerformanceChart.finalCapital := 100%float |} ]
  /\ PrimFloat.is_nan
       (PerformanceChart.returnPercent
          (PerformanceChart.comparisonRow "Options Wheel"
             (Fixtures.withCapital 0%float 0%float Fixtures.mockResult))) = true
  /\ ~ Spec.chart_return_percent_guarded.
Proof.
  repeat split; try (vm_compute; reflexivity).
  intros H.
  specialize (H "Options Wheel"
                (Fixtures.withCapital 0%float 100%float Fixtures.mockResult) eq_refl).
  vm_compute in H. discriminate H.
Qed.

(** ** Entries that carry an error *)

(** The summary card of an entry with an [error] is the error card: neither
    [summary] nor [trades] is read. *)
Lemma summary_of_failed_entry (r : Types.StrategyResult) (name e : string) :
  Types.error r = Some e -> e <> "" ->
  SummaryMetrics.render r name = SummaryMetrics.ErrorCard name e.
Proof.
  intros He Hne. unfold SummaryMetrics.render. rewrite He.
  destruct e; [now elim Hne | reflexivity].
Qed.

(** The chart builder skips an entry with an [error] whatever its payload. *)
Lemma chart_skips_failed_entry (r : Types.StrategyResult)
    (ts : list Types.TradeRecord) (s : Types.StrategySummary) :
  Js.truthy (Types.error r) = true ->
  PerformanceChart.succeeded (Some (Fixtures.withPayload ts s r)) = None
  /\ PerformanceChart.succeeded (Some r) = None.
Proof. intros H. unfold PerformanceChart.succeeded. simpl. now rewrite H. Qed.

(** C4: the wheel entry carries the error ["timeout"] and one trade.  The
    results panel renders the error card, and next to it a trades table
    built from the [trades] of that same entry. *)
Theorem results_panel_reads_trades_of_failed_entry (host : Host) :
  ResultsPanel.render host
    (Some (Fixtures.mockResults
             (Some (Fixtures.withError "timeout" Fixtures.mockResult)) None))
    false "live"
  = ResultsPanel.Results
      (ResultsPanel.executionSummary
         (Fixtures.mockResults
            (Some (Fixtures.withError "timeout" Fixtures.mockResult)) None))
      (Some (SummaryMetrics.ErrorCard "Wheel" "timeout",
             TradesTable.Table "Wheel Strategy Trades" 1
               (Some [TradesTable.row Fixtures.mockTrade])))
      None
      PerformanceChart.NoDataAvailable
  /\ ~ Spec.failed_entry_payload_unread host.
Proof.
  split; [reflexivity |].
  intros H.
  specialize (H (Fixtures.mockResults
                   (Some (Fixtures.withError "timeout" Fixtures.mockResult)) None)
                (Fixtures.withError "timeout" Fixtures.mockResult)
                [] Fixtures.mockSummary eq_refl eq_refl).
  discriminate H.
Qed.

(** ** Additional metrics *)

Section IncludesFacts.

Lemma prefix_app (needle hay : string) :
  String.prefix needle hay = true <-> exists post, hay = (needle ++ post)%string.
Proof.
  revert hay. induction needle as [| a needle IH]; intros hay.
  - split; [intros _; now exists hay | intros _; now destruct hay].
  - destruct hay as [| b hay]; simpl.
    + split; [discriminate | intros [post H]; discriminate H].
    + destruct (Ascii.ascii_dec a b) as [-> | Hab].
      * rewrite IH. split; intros [post H]; exists post.
        -- now rewrite H.
        -- now injection H.
      * split; [discriminate |].
        intros [post H]. injection H as Hb _. now elim Hab.
Qed.

Lemma includes_unfold (needle hay : string) :
  Js.includes needle hay =
    if String.prefix needle hay then true
    else match hay with
         | EmptyString => false
         | String _ rest => Js.includes needle rest
         end.
Proof. destruct hay; reflexivity. Qed.

(** [includes] finds exactly the occurrences that match code unit for code
    unit. *)
Lemma includes_occursIn (needle hay : string) :
  Js.includes needle hay = true <-> Spec.occursIn needle hay.
Proof.
  unfold Spec.occursIn. induction hay as [| c hay IH].
  - rewrite includes_unfold. destruct (String.prefix needle "") eqn:Hp.
    + split; [intros _ | reflexivity].
      apply prefix_app in Hp. destruct Hp as [post Hp]. now exists "", post.
    + split; [discriminate |].
      intros (pre & post & H).
      destruct pre; [| discriminate H].
      assert (String.prefix needle "" = true) by (apply prefix_app; now exists post).
      congruence.
  - rewrite includes_unfold. destruct (String.prefix needle (String c hay)) eqn:Hp.
    + split; [intros _ | reflexivity].
      apply prefix_app in Hp. destruct Hp as [post Hp]. now exists "", post.
    + rewrite IH. split.
      * intros (pre & post & H). exists (String c pre), post. simpl. now rewrite H.
      * intros (pre & post & H). destruct pre as [| c' pre].
        -- assert (String.prefix needle (String c hay) = true)
             by (apply prefix_app; now exists post).
           congruence.
        -- simpl in H. injection H as _ H. now exists pre, post.
Qed.

End IncludesFacts.

(** C8, as stated, fails: the number under the key [Win_Rate] is rendered as
    a plain number, although the key contains [rate] when case is ignored. *)
Lemma capitalized_rate_key_is_plain :
  Spec.includesIgnoringCase "rate" "Win_Rate" = true
  /\ SummaryMetrics.metricText "Win_Rate" (Js.VNumber 0.5%float)
     = SummaryMetrics.ToLocaleString 0.5%float
  /\ SummaryMetrics.metricText "SHARPE_RATIO" (Js.VNumber 1.5%float)
     = SummaryMetrics.ToLocaleString 1.5%float
  /\ ~ Spec.percentage_key_ignoring_case.
Proof.
  repeat split.
  intros H. specialize (H "Win_Rate" 0.5%float eq_refl). discriminate H.
Qed.

(** C8, amended: an additional metric is rendered as a percentage exactly
    when its value is a number and its key contains [rate], [percentage] or
    [ratio] in exactly this lower-case spelling; every other number is
    rendered as a plain number, and every value that is not a number as its
    string form. *)
Theorem percentage_rendering_is_case_sensitive (key : string) (value : Js.value) :
  (forall x, SummaryMetrics.metricText key value = SummaryMetrics.FormatPercentage x
             <-> value = Js.VNumber x /\ Spec.percentageKey key)
  /\ (forall x, value = Js.VNumber x -> ~ Spec.percentageKey key ->
                SummaryMetrics.metricText key value = SummaryMetrics.ToLocaleString x)
  /\ ((forall x, value <> Js.VNumber x) ->
      SummaryMetrics.metricText key value = SummaryMetrics.StringOf value).
Proof.
  assert (Hk : SummaryMetrics.isPercentageKey key = true <-> Spec.percentageKey key).
  { unfold SummaryMetrics.isPercentageKey, Spec.percentageKey.
    rewrite !orb_true_iff, !includes_occursIn. tauto. }
  split; [| split].
  - intros x. split.
    + destruct value as [y | | | |]; simpl; try discriminate.
      destruct (SummaryMetrics.isPercentageKey key) eqn:Hp; [| discriminate].
      intros [= ->]. split; [reflexivity | now apply Hk].
    + intros [-> Hf]. simpl. apply Hk in Hf. now rewrite Hf.
  - intros x -> Hnf. simpl.
    destruct (SummaryMetrics.isPercentageKey key) eqn:Hp; [| reflexivity].
    elim Hnf. now apply Hk.
  - intros Hn. destruct value as [y | | | |]; try reflexivity.
    now elim (Hn y).
Qed.

(** ** The comparison dataset *)

(** The rows the chart builds are the specified ones for every pair of
    views of the data model: one row for each successful view, the wheel's
    before the rotator's, none for a view that failed. *)
Lemma comparisonData_in_data_model (w r : option Types.StrategyResult) :
  Spec.inDataModel w = true -> Spec.inDataModel r = true ->
  PerformanceChart.comparisonData w r = Spec.buildComparison (Spec.chartViews w r).
Proof.
  assert (Hrow : forall label v,
             Spec.inDataModel (Some v) = true ->
             PerformanceChart.pushRow label (Some v) []
             = if Spec.isSuccess v then [Spec.chartDatum label v] else []).
  { intros label v. unfold Spec.inDataModel, Spec.isSuccess,
      PerformanceChart.pushRow, PerformanceChart.succeeded.
    destruct (Types.error v) as [[| c e] |] eqn:He; simpl; intros H;
      [discriminate H | reflexivity |].
    unfold Spec.chartDatum, Spec.returnPct, PerformanceChart.comparisonRow.
    now rewrite H. }
  assert (Hpush : forall label view rows,
             PerformanceChart.pushRow label view rows
             = rows ++ PerformanceChart.pushRow label view []).
  { intros label view rows. unfold PerformanceChart.pushRow.
    destruct (PerformanceChart.succeeded view); [reflexivity |].
    now rewrite app_nil_r. }
  intros Hw Hr.
  unfold PerformanceChart.comparisonData, Spec.buildComparison, Spec.chartViews.
  rewrite Hpush. cbn [flat_map fst snd]. rewrite app_nil_r.
  destruct w as [w |], r as [r |];
    rewrite ?Hrow by assumption; reflexivity.
Qed.

Lemma comparisonData_in_data_model_witness :
  PerformanceChart.comparisonData (Some Fixtures.mockResult)
    (Some (Fixtures.withError "timeout" Fixtures.mockResult))
  = Spec.buildComparison
      (Spec.chartViews (Some Fixtures.mockResult)
         (Some (Fixtures.withError "timeout" Fixtures.mockResult))).
Proof.
  apply (comparisonData_in_data_model (Some Fixtures.mockResult)
           (Some (Fixtures.withError "timeout" Fixtures.mockResult)));
    reflexivity.
Defined.

(** C9: a successful view with an initial capital of zero and a final
    capital of 100, and no other view.  The specified dataset has one row for
    it, with a return percent of zero; the dataset the chart builds has one
    row for it, too, but with a return percent of [Infinity].  The other
    parts of the claim hold of the code: the example of two views of which
    one failed gives the one row specified, and the chart shows its no-data
    state exactly when the dataset is empty. *)
Theorem comparison_row_of_zero_capital_view :
  Spec.buildComparison
    (Spec.chartViews
       (Some (Fixtures.withCapital 0%float 100%float Fixtures.mockResult)) None)
  = [ {| PerformanceChart.strategyLabel := "Options Wheel";
         PerformanceChart.returnAmount := 100%float;
         PerformanceChart.returnPercent := 0%float;
         PerformanceChart.tradeCount := 4%float;
         PerformanceChart.initialCapital := 0%float;
         PerformanceChart.finalCapital := 100%float |} ]
  /\ PerformanceChart.comparisonData
       (Some (Fixtures.withCapital 0%float 100%float Fixtures.mockResult)) None
     = [ {| PerformanceChart.strategyLabel := "Options Wheel";
            PerformanceChart.returnAmount := 100%float;
            PerformanceChart.returnPercent := infinity;
            PerformanceChart.tradeCount := 4%float;
            PerformanceChart.initialCapital := 0%float;
            PerformanceChart.finalCapital := 100%float |} ]
  /\ ~ Spec.comparison_rows_as_specified
  /\ PerformanceChart.comparisonData
       (Some (Fixtures.withError "timeout" Fixtures.mockResult))
       (Some Fixtures.mockResult)
     = [ Spec.chartDatum "Crypto Rotator" Fixtures.mockResult ]
  /\ (forall w r : option Types.StrategyResult,
        PerformanceChart.comparisonData w r = [] <->
        PerformanceChart.render w r = PerformanceChart.NoDataAvailable).
Proof.
  split; [reflexivity |].
  split; [reflexivity |].
  split.
  - intros H.
    specialize (H (Some (Fixtures.withCapital 0%float 100%float Fixtures.mockResult))
                  None).
    vm_compute in H. discriminate H.
  - split; [reflexivity |].
    intros w r. unfold PerformanceChart.render.
    destruct (PerformanceChart.comparisonData w r);
      split; intros H; try reflexivity; discriminate H.
Qed.

(** ** The trade ledger sort *)

Section SortFacts.

Variable A : Type.
Variable comparefn : A -> A -> Js.number.

Local Abbreviation notAfter := (Spec.notAfter comparefn).

Lemma insert_perm (x : A) (l : list A) :
  Permutation (Js.insert comparefn x l) (x :: l).
Proof.
  induction l as [| y l IH]; simpl; [reflexivity |].
  destruct (Js.sortCompare (comparefn x y)); try reflexivity.
  rewrite IH. apply perm_swap.
Qed.

Lemma sort_perm (l : list A) : Permutation (Js.sort comparefn l) l.
Proof.
  induction l as [| x l IH]; simpl; [reflexivity |].
  rewrite insert_perm. now constructor.
Qed.

(** Inserting [x] leaves a class of elements in its order when [x] is never
    placed strictly after a member of its own class. *)
Lemma filter_insert (P : A -> bool) (x : A) (l : list A) :
  (forall y, P x = true -> P y = true -> notAfter x y) ->
  filter P (Js.insert comparefn x l) = filter P (x :: l).
Proof.
  intros Hx. induction l as [| y l IH]; [reflexivity |].
  simpl. destruct (Js.sortCompare (comparefn x y)) eqn:Hc; try reflexivity.
  simpl. rewrite IH. simpl.
  destruct (P x) eqn:Px, (P y) eqn:Py; try reflexivity.
  now elim (Hx y eq_refl Py).
Qed.

Lemma sort_stable (P : A -> bool) (l : list A) :
  (forall x y, P x = true -> P y = true -> notAfter x y) ->
  filter P (Js.sort comparefn l) = filter P l.
Proof.
  intros HP. induction l as [| x l IH]; [reflexivity |].
  simpl Js.sort. rewrite filter_insert by (intros y; apply HP).
  simpl. now rewrite IH.
Qed.

(** An array already in the order of the compare function is left as it
    is. *)
Lemma sort_of_sorted (l : list A) :
  StronglySorted notAfter l -> Js.sort comparefn l = l.
Proof.
  induction 1 as [| x l Hs IH Hx]; [reflexivity |].
  simpl. rewrite IH. destruct l as [| y l]; [reflexivity |].
  simpl. inversion Hx as [| ? ? Hxy _]; subst.
  unfold Spec.notAfter in Hxy.
  destruct (Js.sortCompare (comparefn x y)); try reflexivity. now elim Hxy.
Qed.

Hypothesis total : forall x y, ~ notAfter x y -> notAfter y x.
Hypothesis trans : forall x y z, notAfter x y -> notAfter y z -> notAfter x z.

Lemma insert_sorted (x : A) (l : list A) :
  StronglySorted notAfter l -> StronglySorted notAfter (Js.insert comparefn x l).
Proof.
  induction 1 as [| y l Hs IH Hy]; simpl.
  - repeat constructor.
  - destruct (Js.sortCompare (comparefn x y)) eqn:Hc.
    + assert (Hxy : notAfter x y) by (unfold Spec.notAfter; congruence).
      constructor; [now constructor |].
      constructor; [exact Hxy |].
      eapply Forall_impl; [| exact Hy]. intros z Hz. now apply trans with y.
    + assert (Hxy : notAfter x y) by (unfold Spec.notAfter; congruence).
      constructor; [now constructor |].
      constructor; [exact Hxy |].
      eapply Forall_impl; [| exact Hy]. intros z Hz. now apply trans with y.
    + constructor; [exact IH |].
      assert (Hyx : notAfter y x) by (apply total; unfold Spec.notAfter; congruence).
      eapply Permutation_Forall; [symmetry; apply insert_perm |].
      now constructor.
Qed.

Lemma sort_sorted (l : list A) : StronglySorted notAfter (Js.sort comparefn l).
Proof.
  induction l as [| x l IH]; simpl; [constructor | now apply insert_sorted].
Qed.

End SortFacts.

Section CodeUnitCollation.

Lemma sortCompare_codeUnitCompare (s t : string) :
  Js.sortCompare (Fixtures.codeUnitCompare s t) = String.compare s t.
Proof.
  unfold Fixtures.codeUnitCompare. now destruct (String.compare s t).
Qed.

Lemma codeUnitCompare_refl (s : string) :
  Js.sortCompare (Fixtures.codeUnitCompare s s) = Eq.
Proof.
  rewrite sortCompare_codeUnitCompare. now apply String_as_OT.cmp_eq.
Qed.

Lemma codeUnitCompare_total (s t : string) :
  Js.sortCompare (Fixtures.codeUnitCompare s t) = Gt ->
  Js.sortCompare (Fixtures.codeUnitCompare t s) <> Gt.
Proof.
  rewrite !sortCompare_codeUnitCompare, (String.compare_antisym t s).
  intros ->. discriminate.
Qed.

Lemma codeUnitCompare_trans (s t u : string) :
  Js.sortCompare (Fixtures.codeUnitCompare s t) <> Gt ->
  Js.sortCompare (Fixtures.codeUnitCompare t u) <> Gt ->
  Js.sortCompare (Fixtures.codeUnitCompare s u) <> Gt.
Proof.
  rewrite !sortCompare_codeUnitCompare.
  change String.compare with String_as_OT.cmp.
  destruct (String_as_OT.cmp s t) eqn:Hst; intros H1; [| | now elim H1].
  - apply String_as_OT.cmp_eq in Hst. now subst t.
  - destruct (String_as_OT.cmp t u) eqn:Htu; intros H2; [| | now elim H2].
    + apply String_as_OT.cmp_eq in Htu. subst u. rewrite Hst. discriminate.
    + apply String_as_OT.cmp_lt in Hst, Htu.
      pose proof (String_as_OT.lt_trans _ _ _ Hst Htu) as H.
      apply String_as_OT.cmp_lt in H. rewrite H. discriminate.
Qed.

End CodeUnitCollation.

(** Trades with equal sort keys are never placed strictly after one
    another, whatever the field and the direction. *)
Lemma equal_keys_compare_equal (host : Host) (field : TradesTable.SortField)
    (direction : TradesTable.SortDirection) (a x y : Types.TradeRecord) :
  (forall s, Js.sortCompare (localeCompare host s s) = Eq) ->
  Spec.keyEqb host field a x = true ->
  Spec.keyEqb host field a y = true ->
  Js.sortCompare (TradesTable.compareTrades host field direction x y) = Eq.
Proof.
  intros Hrefl Hx Hy.
  unfold Spec.keyEqb in Hx, Hy. unfold TradesTable.compareTrades.
  destruct field; simpl in *;
    try (apply String.eqb_eq in Hx, Hy; rewrite <- Hx, <- Hy;
         destruct direction; apply Hrefl);
    destruct direction; apply sortCompare_sub_of_equal;
    eauto using float_eqb_sym, float_eqb_trans.
Qed.

(** ** The sign of a difference

    The compare function of the numeric columns is a difference of two
    keys.  The difference of two numbers of a binary format is rounded, but
    never to zero and never across it: its sign is the order of the two
    numbers. *)

Section BinaryRounding.

Variables prec emax : Z.
Hypothesis prec_pos : (0 < prec)%Z.
Hypothesis emax_pos : (0 < emax)%Z.

Local Open Scope Z_scope.

Local Abbreviation emin := (SpecFloat.emin prec emax).
Local Abbreviation fexp := (SpecFloat.fexp prec emax).

Lemma digits2_pos_bounds (m : positive) :
  2 ^ (Zpos (digits2_pos m) - 1) <= Zpos m < 2 ^ Zpos (digits2_pos m).
Proof.
  induction m as [m IH | m IH |]; cbn [digits2_pos].
  - rewrite Pos2Z.inj_succ, Z.pow_succ_r by lia.
    replace (Z.succ (Zpos (digits2_pos m)) - 1) with (Z.succ (Zpos (digits2_pos m) - 1)) by lia.
    rewrite Z.pow_succ_r by lia. lia.
  - rewrite Pos2Z.inj_succ, Z.pow_succ_r by lia.
    replace (Z.succ (Zpos (digits2_pos m)) - 1) with (Z.succ (Zpos (digits2_pos m) - 1)) by lia.
    rewrite Z.pow_succ_r by lia. lia.
  - cbn. lia.
Qed.

Lemma shr_m_shr_1 (r : shr_record) :
  0 <= shr_m r -> shr_m (shr_1 r) = shr_m r / 2.
Proof.
  destruct r as [m rr s]. cbn [shr_m shr_1].
  destruct m as [| [p | p |] | p]; cbn [shr_m]; intros H;
    first [reflexivity | lia | idtac].
  - rewrite (Pos2Z.inj_xI p). apply Z.div_unique with 1; lia.
  - rewrite (Pos2Z.inj_xO p). apply Z.div_unique with 0; lia.
Qed.

Lemma shr_m_iter (n : positive) (r : shr_record) :
  0 <= shr_m r -> shr_m (iter_pos shr_1 n r) = shr_m r / 2 ^ Zpos n.
Proof.
  revert r. induction n as [n IH | n IH |]; intros r Hr; cbn [iter_pos].
  - assert (H1 : 0 <= shr_m (shr_1 r)) by (rewrite shr_m_shr_1 by lia; apply Z.div_pos; lia).
    assert (H2 : 0 <= shr_m (iter_pos shr_1 n (shr_1 r)))
      by (rewrite IH by lia; apply Z.div_pos; [lia | apply Z.pow_pos_nonneg; lia]).
    rewrite IH, IH, shr_m_shr_1 by lia.
    rewrite !Z.div_div by (try lia; apply Z.pow_pos_nonneg; lia).
    f_equal. rewrite (Pos2Z.inj_xI n).
    replace (2 * Zpos n + 1) with (1 + Zpos n + Zpos n) by lia.
    rewrite !Z.pow_add_r, Z.pow_1_r by lia. lia.
  - assert (H2 : 0 <= shr_m (iter_pos shr_1 n r))
      by (rewrite IH by lia; apply Z.div_pos; [lia | apply Z.pow_pos_nonneg; lia]).
    rewrite IH, IH by lia.
    rewrite !Z.div_div by (try lia; apply Z.pow_pos_nonneg; lia).
    f_equal. rewrite (Pos2Z.inj_xO n).
    replace (2 * Zpos n) with (Zpos n + Zpos n) by lia.
    rewrite Z.pow_add_r by lia. lia.
  - now rewrite shr_m_shr_1.
Qed.

Lemma shr_fexp_pos (m e : Z) (l : location) :
  0 < m -> emin <= e ->
  0 < shr_m (fst (shr_fexp prec emax m e l)) /\ emin <= snd (shr_fexp prec emax m e l).
Proof.
  intros Hm He. unfold shr_fexp, shr.
  assert (Hrec : shr_m (shr_record_of_loc m l) = m) by (now destruct l as [| []]).
  destruct m as [| p |]; try lia. cbn [Zdigits2].
  pose proof (digits2_pos_bounds p) as [Hlow _].
  destruct (fexp (Zpos (digits2_pos p) + e) - e) as [| q | q] eqn:Hn; cbn [fst snd];
    rewrite ?Hrec; try (split; lia).
  unfold SpecFloat.fexp in Hn.
  rewrite shr_m_iter by (rewrite Hrec; lia). rewrite Hrec.
  split; [| lia].
  apply Z.div_str_pos. split; [apply Z.pow_pos_nonneg; lia |].
  apply Z.le_trans with (2 ^ (Zpos (digits2_pos p) - 1)); [| exact Hlow].
  apply Z.pow_le_mono_r; lia.
Qed.

Lemma binary_round_aux_sign (sx : bool) (m e : Z) (l : location) :
  0 < m -> emin <= e ->
  Binary64.sign (binary_round_aux prec emax sx m e l) = if sx then Lt else Gt.
Proof.
  intros Hm He. unfold binary_round_aux.
  pose proof (shr_fexp_pos m e l Hm He) as H1.
  destruct (shr_fexp prec emax m e l) as [r1 e1]. cbn [fst snd] in H1.
  destruct H1 as [Hr1 He1].
  assert (Hround : 0 < round_nearest_even (shr_m r1) (loc_of_shr_record r1)).
  { unfold round_nearest_even.
    destruct (loc_of_shr_record r1) as [| []]; try lia.
    destruct (Z.even (shr_m r1)); lia. }
  pose proof (shr_fexp_pos _ e1 loc_Exact Hround He1) as H2.
  destruct (shr_fexp prec emax _ e1 loc_Exact) as [r2 e2]. cbn [fst snd] in H2.
  destruct H2 as [Hr2 _].
  destruct (shr_m r2) as [| p |]; try lia.
  now destruct (e2 <=? emax - prec).
Qed.

Lemma shl_align_exponent (m : positive) (e e' : Z) :
  snd (shl_align m e e') = Z.min e e'.
Proof.
  unfold shl_align. destruct (e' - e) eqn:H; cbn [snd]; lia.
Qed.

Lemma binary_normalize_sign (z e : Z) :
  emin <= e -> Binary64.sign (binary_normalize prec emax z e false) = (z ?= 0).
Proof.
  intros He.
  assert (Hround : forall sx m,
             Binary64.sign (binary_round prec emax sx m e) = if sx then Lt else Gt).
  { intros sx m. unfold binary_round.
    pose proof (shl_align_exponent m e (fexp (Zpos (digits2_pos m) + e))) as Hs.
    destruct (shl_align m e _) as [mz ez]. cbn [snd] in Hs.
    apply binary_round_aux_sign; [lia |].
    unfold SpecFloat.fexp in Hs. lia. }
  destruct z as [| p | p]; cbn [binary_normalize]; [reflexivity | |]; apply Hround.
Qed.

Lemma iter_xO_value (m d : positive) :
  Zpos (Pos.iter xO m d) = Zpos m * 2 ^ Zpos d.
Proof.
  induction d as [| d IH] using Pos.peano_ind.
  - cbn [Pos.iter]. rewrite (Pos2Z.inj_xO m). lia.
  - rewrite Pos.iter_succ, (Pos2Z.inj_xO (Pos.iter xO m d)), IH, Pos2Z.inj_succ,
      Z.pow_succ_r by lia.
    lia.
Qed.

Lemma shl_align_value (m : positive) (e e' : Z) :
  e' <= e -> Zpos (fst (shl_align m e e')) = Zpos m * 2 ^ (e - e').
Proof.
  intros H. unfold shl_align.
  destruct (e' - e) as [| d | d] eqn:Hd; cbn [fst]; try lia.
  - replace (e - e') with 0 by lia. lia.
  - rewrite iter_xO_value. f_equal. f_equal. lia.
Qed.

Lemma bounded_exponent (m : positive) (e : Z) :
  bounded prec emax m e = true ->
  emin <= e /\ Zpos m * 2 ^ (e - emin) < 2 ^ (emax - emin).
Proof.
  unfold bounded, canonical_mantissa, SpecFloat.fexp. intros H.
  apply andb_prop in H. destruct H as [Hc He].
  apply Z.eqb_eq in Hc. apply Z.leb_le in He.
  split; [lia |].
  pose proof (digits2_pos_bounds m) as [_ Hup].
  assert (Hd : Zpos (digits2_pos m) <= prec) by lia.
  apply Z.lt_le_trans with (2 ^ prec * 2 ^ (e - emin)).
  - apply Z.mul_lt_mono_pos_r; [apply Z.pow_pos_nonneg; lia |].
    apply Z.lt_le_trans with (2 ^ Zpos (digits2_pos m)); [exact Hup |].
    apply Z.pow_le_mono_r; lia.
  - rewrite <- Z.pow_add_r by lia. apply Z.pow_le_mono_r; lia.
Qed.

Lemma compare_cond_Zopp (sx sy : bool) (x y : Z) :
  0 < x -> 0 < y ->
  (cond_Zopp sx x ?= cond_Zopp sy y)
  = match sx, sy with
    | true, false => Lt
    | false, true => Gt
    | false, false => (x ?= y)
    | true, true => (y ?= x)
    end.
Proof.
  intros Hx Hy. destruct sx, sy; cbn [cond_Zopp].
  - now rewrite Z.compare_opp.
  - apply Z.compare_lt_iff. lia.
  - apply Z.compare_gt_iff. lia.
  - reflexivity.
Qed.

Lemma cond_Zopp_mul (s : bool) (x k : Z) : cond_Zopp s (x * k) = cond_Zopp s x * k.
Proof. destruct s; cbn [cond_Zopp]; lia. Qed.

(** The sign of a difference is the order of the two numbers. *)
Lemma SFsub_sign (x y : spec_float) :
  SpecFloat.valid_binary prec emax x = true ->
  SpecFloat.valid_binary prec emax y = true ->
  x <> S754_nan -> y <> S754_nan ->
  Binary64.sign (SFsub prec emax x y)
  = (Binary64.scaled prec emax x ?= Binary64.scaled prec emax y).
Proof.
  intros Vx Vy Nx Ny.
  assert (Hbig : 0 < 2 ^ (emax - emin)).
  { apply Z.pow_pos_nonneg; [lia |]. unfold SpecFloat.emin. lia. }
  assert (Hfin : forall m e, bounded prec emax m e = true ->
                   emin <= e /\ 0 < Zpos m * 2 ^ (e - emin) < 2 ^ (emax - emin)).
  { intros m e H. apply bounded_exponent in H. destruct H as [He Hlt].
    repeat split; try assumption.
    apply Z.mul_pos_pos; [lia | apply Z.pow_pos_nonneg; lia]. }
  assert (Hzero : forall s z, 0 < z ->
                    (cond_Zopp s z ?= 0) = (if s then Lt else Gt)
                    /\ (0 ?= cond_Zopp s z) = (if s then Gt else Lt)).
  { intros s z Hz. destruct s; cbn [cond_Zopp]; split;
      first [apply Z.compare_lt_iff; lia | apply Z.compare_gt_iff; lia]. }
  destruct x as [sx | sx | | sx mx ex]; [| | now elim Nx |];
    (destruct y as [sy | sy | | sy my ey]; [| | now elim Ny |]);
    cbn [SpecFloat.valid_binary] in Vx, Vy; cbn [SFsub Binary64.scaled].
  - destruct sx, sy; reflexivity.
  - cbn [Binary64.sign]. rewrite (proj2 (Hzero sy _ Hbig)). now destruct sy.
  - destruct (Hfin _ _ Vy) as (_ & Hpos & _).
    cbn [Binary64.sign]. rewrite (proj2 (Hzero sy _ Hpos)). now destruct sy.
  - cbn [Binary64.sign]. now rewrite (proj1 (Hzero sx _ Hbig)).
  - rewrite compare_cond_Zopp, Z.compare_refl by exact Hbig.
    destruct sx, sy; reflexivity.
  - destruct (Hfin _ _ Vy) as (_ & Hpos & Hlt).
    rewrite compare_cond_Zopp by assumption.
    destruct sx, sy; cbn [Binary64.sign]; try reflexivity; symmetry;
      first [apply Z.compare_lt_iff; lia | apply Z.compare_gt_iff; lia].
  - destruct (Hfin _ _ Vx) as (_ & Hpos & _).
    cbn [Binary64.sign]. now rewrite (proj1 (Hzero sx _ Hpos)).
  - destruct (Hfin _ _ Vx) as (_ & Hpos & Hlt).
    rewrite compare_cond_Zopp by assumption.
    destruct sx, sy; cbn [Binary64.sign negb]; try reflexivity; symmetry;
      first [apply Z.compare_lt_iff; lia | apply Z.compare_gt_iff; lia].
  - destruct (Hfin _ _ Vx) as (Hex & _), (Hfin _ _ Vy) as (Hey & _).
    rewrite binary_normalize_sign by lia.
    rewrite !shl_align_value by lia.
    set (ez := Z.min ex ey).
    assert (Hx : Zpos mx * 2 ^ (ex - emin) = Zpos mx * 2 ^ (ex - ez) * 2 ^ (ez - emin)).
    { rewrite <- Z.mul_assoc, <- Z.pow_add_r by lia. do 2 f_equal. lia. }
    assert (Hy : Zpos my * 2 ^ (ey - emin) = Zpos my * 2 ^ (ey - ez) * 2 ^ (ez - emin)).
    { rewrite <- Z.mul_assoc, <- Z.pow_add_r by lia. do 2 f_equal. lia. }
    rewrite Hx, Hy, !cond_Zopp_mul.
    rewrite <- Zmult_compare_compat_r by (apply Z.lt_gt, Z.pow_pos_nonneg; lia).
    now rewrite <- Z.compare_sub.
Qed.

End BinaryRounding.


Lemma sortCompare_sign (v : float) : Js.sortCompare v = Binary64.sign (Prim2SF v).
Proof.
  unfold Js.sortCompare. rewrite !ltb_spec.
  change (Prim2SF 0) with (S754_zero false).
  destruct (Prim2SF v) as [s | s | | s m e]; try reflexivity; now destruct s.
Qed.

Lemma not_nan_of_eqb (x : float) : PrimFloat.eqb x x = true -> Prim2SF x <> S754_nan.
Proof.
  rewrite FloatAxioms.eqb_spec. intros H E. rewrite E in H. discriminate H.
Qed.

Lemma sortCompare_sub (x y : float) :
  PrimFloat.eqb x x = true -> PrimFloat.eqb y y = true ->
  Js.sortCompare (PrimFloat.sub x y) = (Binary64.rank x ?= Binary64.rank y)%Z.
Proof.
  intros Hx Hy. rewrite sortCompare_sign, sub_spec. unfold Binary64.rank.
  apply SFsub_sign; try reflexivity;
    auto using Prim2SF_valid, not_nan_of_eqb.
Qed.

(** ** The sort of the engine and the stable sort

    For a compare function that is consistent on the elements of an array
    (comparing the other way round gives the opposite sign, and not being
    after is transitive), what V8 returns is the array of the stable sort:
    the first run is the sorted array of its elements, and binary insertion
    puts every further element where a stable sort has it. *)

Section Agreement.

Variable A : Type.
Variable comparefn : A -> A -> Js.number.
Variable ok : A -> Prop.

Local Abbreviation order := (V8.order comparefn).
Local Abbreviation notAfter := (Spec.notAfter comparefn).

Hypothesis sym : forall x y, ok x -> ok y -> order y x = CompOpp (order x y).
Hypothesis trans :
  forall x y z, ok x -> ok y -> ok z -> notAfter x y -> notAfter y z -> notAfter x z.

Lemma isLt_order (x y : A) :
  ok x -> ok y -> V8.isLt (order x y) = true <-> order y x = Gt.
Proof.
  intros Hx Hy. rewrite (sym x y Hx Hy).
  destruct (order x y); simpl; split; congruence.
Qed.

Lemma isLt_false (x y : A) :
  ok x -> ok y -> V8.isLt (order x y) = false <-> notAfter y x.
Proof.
  intros Hx Hy. unfold Spec.notAfter. fold (order y x). rewrite (sym x y Hx Hy).
  destruct (order x y); simpl; split; congruence.
Qed.

(** Strictly before, then not after: strictly before. *)
Lemma lt_le_trans (x y z : A) :
  ok x -> ok y -> ok z ->
  V8.isLt (order x y) = true -> notAfter y z -> V8.isLt (order x z) = true.
Proof.
  intros Hx Hy Hz Hxy Hyz.
  destruct (V8.isLt (order x z)) eqn:Hxz; [reflexivity |].
  apply isLt_false in Hxz; try assumption.
  apply isLt_order in Hxy; try assumption.
  elim (trans y z x Hy Hz Hx Hyz Hxz). exact Hxy.
Qed.

Lemma le_lt_trans (x y z : A) :
  ok x -> ok y -> ok z ->
  notAfter x y -> V8.isLt (order y z) = true -> V8.isLt (order x z) = true.
Proof.
  intros Hx Hy Hz Hxy Hyz.
  destruct (V8.isLt (order x z)) eqn:Hxz; [reflexivity |].
  apply isLt_false in Hxz; try assumption.
  apply isLt_order in Hyz; try assumption.
  elim (trans z x y Hz Hx Hy Hxz Hxy). exact Hyz.
Qed.

Lemma insert_insertLast (x p : A) (s : list A) :
  ok x -> ok p -> Forall ok s ->
  Js.insert comparefn x (SortNotions.insertLast comparefn p s)
  = SortNotions.insertLast comparefn p (Js.insert comparefn x s).
Proof.
  intros Hx Hp Hs. induction Hs as [| y s Hy Hs IH].
  - cbn [SortNotions.insertLast Js.insert]. fold (order x p). fold (order p x).
    rewrite (sym x p Hx Hp). destruct (order x p); reflexivity.
  - cbn [SortNotions.insertLast Js.insert]. fold (order x y). fold (order p y).
    destruct (V8.isLt (order p y)) eqn:Hpy.
    + destruct (order x y) eqn:Hxy.
      * cbn [SortNotions.insertLast Js.insert]. fold (order x p). fold (order p x).
        rewrite (sym x p Hx Hp).
        destruct (order x p) eqn:Hxp; cbn [CompOpp V8.isLt];
          cbn [SortNotions.insertLast Js.insert]; fold (order x y); fold (order p y);
          rewrite ?Hxy, ?Hpy; reflexivity.
      * cbn [SortNotions.insertLast Js.insert]. fold (order x p). fold (order p x).
        rewrite (sym x p Hx Hp).
        destruct (order x p) eqn:Hxp; cbn [CompOpp V8.isLt];
          cbn [SortNotions.insertLast Js.insert]; fold (order x y); fold (order p y);
          rewrite ?Hxy, ?Hpy; reflexivity.
      * assert (Hxp : order x p = Gt).
        { apply isLt_order; try assumption.
          apply lt_le_trans with y; try assumption.
          unfold Spec.notAfter. fold (order y x).
          rewrite (sym x y Hx Hy), Hxy. discriminate. }
        cbn [SortNotions.insertLast Js.insert]. fold (order x p). fold (order x y). fold (order p y).
        now rewrite Hxp, Hxy, Hpy.
    + destruct (order x y) eqn:Hxy.
      * assert (Hpx : V8.isLt (order p x) = false).
        { apply isLt_false; try assumption.
          apply trans with y; try assumption.
          - unfold Spec.notAfter. fold (order x y). rewrite Hxy. discriminate.
          - now apply isLt_false. }
        cbn [SortNotions.insertLast Js.insert]. fold (order x y). fold (order p x). fold (order p y).
        now rewrite Hxy, Hpx, Hpy.
      * assert (Hpx : V8.isLt (order p x) = false).
        { apply isLt_false; try assumption.
          apply trans with y; try assumption.
          - unfold Spec.notAfter. fold (order x y). rewrite Hxy. discriminate.
          - now apply isLt_false. }
        cbn [SortNotions.insertLast Js.insert]. fold (order x y). fold (order p x). fold (order p y).
        now rewrite Hxy, Hpx, Hpy.
      * cbn [SortNotions.insertLast Js.insert]. fold (order x y). fold (order p y).
        now rewrite Hxy, Hpy, IH.
Qed.

Lemma insert_ok (x : A) (l : list A) :
  ok x -> Forall ok l -> Forall ok (Js.insert comparefn x l).
Proof.
  intros Hx Hl. induction Hl as [| y l Hy Hl IH]; cbn [Js.insert].
  - now constructor.
  - destruct (Js.sortCompare (comparefn x y)); repeat constructor; assumption.
Qed.

Lemma sort_ok (l : list A) : Forall ok l -> Forall ok (Js.sort comparefn l).
Proof.
  induction 1 as [| x l Hx Hl IH]; [constructor |].
  change (Js.sort comparefn (x :: l))
    with (Js.insert comparefn x (Js.sort comparefn l)).
  now apply insert_ok.
Qed.

Lemma sort_snoc (l : list A) (p : A) :
  Forall ok l -> ok p ->
  Js.sort comparefn (l ++ [p]) = SortNotions.insertLast comparefn p (Js.sort comparefn l).
Proof.
  intros Hl Hp. induction Hl as [| x l Hx Hl IH]; [reflexivity |].
  change (Js.sort comparefn ((x :: l) ++ [p]))
    with (Js.insert comparefn x (Js.sort comparefn (l ++ [p]))).
  change (Js.sort comparefn (x :: l))
    with (Js.insert comparefn x (Js.sort comparefn l)).
  rewrite IH. apply insert_insertLast; auto using sort_ok.
Qed.

(** The elements of a list are in the order of the compare function. *)
Local Abbreviation inOrder := (StronglySorted notAfter).

Lemma insert_inOrder (x : A) (l : list A) :
  ok x -> Forall ok l -> inOrder l -> inOrder (Js.insert comparefn x l).
Proof.
  intros Hx Hl Hs. induction Hs as [| y l Hs IH Hy]; cbn [Js.insert].
  - repeat constructor.
  - inversion Hl as [| ? ? Hoy Hol]; subst.
    assert (Hle : notAfter x y -> Forall (notAfter x) (y :: l)).
    { intros Hxy. constructor; [exact Hxy |].
      rewrite Forall_forall in Hy, Hol |- *. intros z Hz.
      apply trans with y; auto. }
    fold (order x y). destruct (order x y) eqn:Hc.
    + constructor; [now constructor |].
      apply Hle. unfold Spec.notAfter. fold (order x y). congruence.
    + constructor; [now constructor |].
      apply Hle. unfold Spec.notAfter. fold (order x y). congruence.
    + constructor; [now apply IH |].
      assert (Hyx : notAfter y x).
      { unfold Spec.notAfter. fold (order y x). rewrite (sym x y Hx Hoy), Hc.
        discriminate. }
      eapply Permutation_Forall; [symmetry; apply insert_perm |].
      now constructor.
Qed.

Lemma sort_inOrder (l : list A) : Forall ok l -> inOrder (Js.sort comparefn l).
Proof.
  induction 1 as [| x l Hx Hl IH]; [constructor |].
  change (Js.sort comparefn (x :: l))
    with (Js.insert comparefn x (Js.sort comparefn l)).
  apply insert_inOrder; auto using sort_ok.
Qed.

Local Abbreviation placeOf := (SortNotions.placeOf comparefn).

Lemma placeOf_exists (p : A) (s : list A) :
  ok p -> Forall ok s -> inOrder s -> exists k, placeOf p s k.
Proof.
  intros Hp Hok Hs. induction Hs as [| y s Hs IH Hy].
  - exists 0%nat. split; [reflexivity |]. split; intros [| i] e; simpl; try lia; discriminate.
  - inversion Hok as [| ? ? Hoy Hos]; subst.
    destruct (V8.isLt (order p y)) eqn:Hpy.
    + exists 0%nat. split; [simpl; lia |]. split; [intros i e Hi; lia |].
      intros [| i] e _ He; simpl in He.
      * now inversion He; subst.
      * apply nth_error_In in He.
        rewrite Forall_forall in Hy, Hos.
        apply lt_le_trans with y; auto.
    + destruct (IH Hos) as (k & Hk & Hbefore & Hafter).
      exists (S k). split; [simpl; lia |]. split.
      * intros [| i] e Hi He; simpl in He.
        -- now inversion He; subst.
        -- apply (Hbefore i); [lia | exact He].
      * intros [| i] e Hi He; simpl in He; [lia |].
        apply (Hafter i); [lia | exact He].
Qed.

Lemma search_placeOf (p : A) (s : list A) (k : nat) :
  placeOf p s k ->
  forall fuel left right,
    (left <= k <= right)%nat -> (right <= List.length s)%nat ->
    (right - left <= fuel)%nat ->
    V8.search comparefn fuel p s left right = k.
Proof.
  intros (Hk & Hbefore & Hafter).
  induction fuel as [| fuel IH]; intros left right Hlr Hr Hfuel; cbn [V8.search].
  - lia.
  - destruct (left <? right)%nat eqn:Hlt.
    + apply Nat.ltb_lt in Hlt.
      pose proof (Nat.div2_div (right - left)) as Hdiv.
      assert (Hmid : (left <= left + Nat.div2 (right - left) < right)%nat).
      { rewrite Hdiv. split; [lia |].
        assert ((right - left) / 2 < right - left)%nat by (apply Nat.div_lt; lia).
        lia. }
      destruct (nth_error s (left + Nat.div2 (right - left))) as [e |] eqn:He.
      * fold (order p e). destruct (V8.isLt (order p e)) eqn:Hpe.
        -- apply IH; try lia.
           split; [lia |].
           destruct (Nat.le_gt_cases k (left + Nat.div2 (right - left))) as [H | H];
             [exact H |].
           rewrite (Hbefore _ _ H He) in Hpe. discriminate.
        -- apply IH; try lia.
           split; [| lia].
           destruct (Nat.le_gt_cases k (left + Nat.div2 (right - left))) as [H | H];
             [| lia].
           rewrite (Hafter _ _ H He) in Hpe. discriminate.
      * apply nth_error_None in He. lia.
    + apply Nat.ltb_ge in Hlt. lia.
Qed.

Lemma insertLast_placeOf (p : A) (s : list A) (k : nat) :
  placeOf p s k -> firstn k s ++ p :: skipn k s = SortNotions.insertLast comparefn p s.
Proof.
  revert k. induction s as [| y s IH]; intros k (Hk & Hbefore & Hafter).
  - simpl in Hk. replace k with 0%nat by lia. reflexivity.
  - cbn [SortNotions.insertLast]. fold (order p y). destruct k as [| k].
    + rewrite (Hafter 0%nat y); [reflexivity | lia | reflexivity].
    + rewrite (Hbefore 0%nat y); [| lia | reflexivity].
      cbn [firstn skipn app]. f_equal. apply IH.
      split; [simpl in Hk; lia |]. split.
      * intros i e Hi He. apply (Hbefore (S i)); [lia | exact He].
      * intros i e Hi He. apply (Hafter (S i)); [lia | exact He].
Qed.

(** In a list in order, binary insertion puts the pivot behind the last
    element that is not strictly after it. *)
Lemma insertPivot_insertLast (s : list A) (p : A) :
  ok p -> Forall ok s -> inOrder s ->
  V8.insertPivot comparefn s p = SortNotions.insertLast comparefn p s.
Proof.
  intros Hp Hok Hs.
  destruct (placeOf_exists p s Hp Hok Hs) as [k Hk].
  unfold V8.insertPivot.
  rewrite (search_placeOf p s k Hk); try lia.
  - now apply insertLast_placeOf.
  - destruct Hk as [Hk _]. lia.
Qed.

Lemma binaryInsertionSort_sort (rest prefix : list A) :
  Forall ok prefix -> Forall ok rest ->
  V8.binaryInsertionSort comparefn (Js.sort comparefn prefix) rest
  = Js.sort comparefn (prefix ++ rest).
Proof.
  unfold V8.binaryInsertionSort.
  revert prefix. induction rest as [| p rest IH]; intros prefix Hprefix Hrest.
  - now rewrite app_nil_r.
  - inversion Hrest as [| ? ? Hp Hrest']; subst. cbn [fold_left].
    rewrite insertPivot_insertLast by auto using sort_ok, sort_inOrder.
    rewrite <- sort_snoc by assumption.
    rewrite IH; [| apply Forall_app; split; [assumption | now constructor] | assumption].
    now rewrite <- app_assoc.
Qed.

Local Abbreviation runStep := (SortNotions.runStep comparefn).

Lemma extendRun_run (isDescending : bool) (rest : list A) :
  forall previousElement run left,
    V8.extendRun comparefn isDescending previousElement rest = (run, left) ->
    rest = run ++ left /\ Sorted (runStep isDescending) (previousElement :: run).
Proof.
  induction rest as [| c rest IH]; intros prev run left; cbn [V8.extendRun].
  - intros H. inversion H; subst. split; [reflexivity |]. repeat constructor.
  - fold (order c prev).
    destruct (if isDescending then negb (V8.isLt (order c prev))
              else V8.isLt (order c prev)) eqn:Hstop.
    + intros H. inversion H; subst. split; [reflexivity |]. repeat constructor.
    + destruct (V8.extendRun comparefn isDescending c rest) as [run' left'] eqn:Hrec.
      intros H. inversion H; subst.
      destruct (IH c run' left Hrec) as [-> Hsorted].
      split; [reflexivity |].
      constructor; [exact Hsorted |]. constructor. unfold SortNotions.runStep.
      destruct isDescending, (V8.isLt (order c prev)); simpl in Hstop; congruence.
Qed.

Lemma ascending_inOrder (l : list A) :
  Forall ok l -> Sorted (runStep false) l -> inOrder l.
Proof.
  intros Hok Hs. induction Hs as [| a l Hs IH Hd]; [constructor |].
  inversion Hok as [| ? ? Ha Hl]; subst.
  constructor; [now apply IH |].
  destruct Hd as [| b l Hab]; [constructor |].
  inversion Hl as [| ? ? Hb Hl']; subst.
  assert (Hle : notAfter a b) by (now apply isLt_false).
  constructor; [exact Hle |].
  specialize (IH Hl). inversion IH as [| ? ? _ Hbl]; subst.
  rewrite Forall_forall in Hbl, Hl' |- *. intros z Hz.
  apply trans with b; auto.
Qed.

Lemma descending_all_before (l : list A) :
  Forall ok l -> Sorted (runStep true) l ->
  StronglySorted (fun a b => order a b = Gt) l.
Proof.
  intros Hok Hs. induction Hs as [| a l Hs IH Hd]; [constructor |].
  inversion Hok as [| ? ? Ha Hl]; subst.
  constructor; [now apply IH |].
  destruct Hd as [| b l Hab]; [constructor |].
  inversion Hl as [| ? ? Hb Hl']; subst.
  unfold SortNotions.runStep in Hab.
  constructor; [now apply isLt_order |].
  specialize (IH Hl). inversion IH as [| ? ? _ Hbl]; subst.
  rewrite Forall_forall in Hbl, Hl' |- *. intros z Hz.
  apply isLt_order; auto.
  apply lt_le_trans with b; auto.
  - apply isLt_order; auto.
  - unfold Spec.notAfter. fold (order b a). now destruct (order b a).
Qed.

Lemma insert_behind_all (x : A) (s : list A) :
  Forall (fun y => order x y = Gt) s -> Js.insert comparefn x s = s ++ [x].
Proof.
  induction 1 as [| y s Hy Hs IH]; [reflexivity |].
  cbn [Js.insert app]. fold (order x y). now rewrite Hy, IH.
Qed.

Lemma sort_descending (l : list A) :
  StronglySorted (fun a b => order a b = Gt) l -> Js.sort comparefn l = rev l.
Proof.
  induction 1 as [| x l Hs IH Hx]; [reflexivity |].
  change (Js.sort comparefn (x :: l))
    with (Js.insert comparefn x (Js.sort comparefn l)).
  rewrite IH. cbn [rev]. apply insert_behind_all.
  rewrite Forall_forall in Hx |- *. intros y Hy. apply Hx. now apply in_rev.
Qed.

(** The first run is the sorted array of the elements it is made of. *)
Lemma countAndMakeRun_sort (items run rest : list A) :
  Forall ok items ->
  V8.countAndMakeRun comparefn items = (run, rest) ->
  exists prefix, items = prefix ++ rest /\ run = Js.sort comparefn prefix.
Proof.
  intros Hok. unfold V8.countAndMakeRun.
  destruct items as [| high [| low items]].
  - intros H. inversion H; subst. now exists [].
  - intros H. inversion H; subst. now exists [high].
  - fold (order low high).
    destruct (V8.extendRun comparefn (V8.isLt (order low high)) low items)
      as [run' left] eqn:Hrun.
    intros H. inversion H; subst. clear H.
    destruct (extendRun_run _ _ _ _ _ Hrun) as [-> Hsorted].
    exists (high :: low :: run'). split; [reflexivity |].
    assert (Hwhole : Sorted (runStep (V8.isLt (order low high))) (high :: low :: run'))
      by (constructor; [exact Hsorted | now constructor]).
    assert (Hokw : Forall ok (high :: low :: run')).
    { change (high :: low :: run' ++ rest) with ((high :: low :: run') ++ rest) in Hok.
      now apply Forall_app in Hok. }
    destruct (V8.isLt (order low high)).
    + symmetry. apply sort_descending. now apply descending_all_before.
    + symmetry. apply sort_of_sorted. now apply ascending_inOrder.
Qed.

(** For a compare function that is consistent on the elements of an array,
    V8 returns the array of the stable sort. *)
Lemma V8_sort_stable_sort (items : list A) :
  Forall ok items -> V8.sort comparefn items = Js.sort comparefn items.
Proof.
  intros Hok. unfold V8.sort.
  destruct (V8.countAndMakeRun comparefn items) as [run rest] eqn:Hrun.
  destruct (countAndMakeRun_sort _ _ _ Hok Hrun) as (prefix & -> & ->).
  apply Forall_app in Hok. destruct Hok as [Hprefix Hrest].
  now apply binaryInsertionSort_sort.
Qed.

End Agreement.

(** ** The compare function of the table *)

Lemma consistentCollation_refl (host : Host) (s : string) :
  Stability.consistentCollation host ->
  Js.sortCompare (localeCompare host s s) = Eq.
Proof.
  intros [Hsym _]. specialize (Hsym s s).
  destruct (Js.sortCompare (localeCompare host s s)); try reflexivity;
    discriminate Hsym.
Qed.

Lemma codeUnitCompare_sym (s t : string) :
  Js.sortCompare (Fixtures.codeUnitCompare t s)
  = CompOpp (Js.sortCompare (Fixtures.codeUnitCompare s t)).
Proof.
  rewrite !sortCompare_codeUnitCompare. apply String.compare_antisym.
Qed.

Lemma codeUnitCollation_consistent (parse : string -> Js.number) :
  Stability.consistentCollation
    {| localeCompare := Fixtures.codeUnitCompare; getTime := parse |}.
Proof.
  split; [exact codeUnitCompare_sym | exact codeUnitCompare_trans].
Qed.

(** On trades with comparable keys the compare function of every column is
    consistent, in both directions. *)
Lemma compareTrades_sym (host : Host) (field : TradesTable.SortField)
    (direction : TradesTable.SortDirection) (x y : Types.TradeRecord) :
  Stability.consistentCollation host ->
  Stability.comparableKey host field x -> Stability.comparableKey host field y ->
  V8.order (TradesTable.compareTrades host field direction) y x
  = CompOpp (V8.order (TradesTable.compareTrades host field direction) x y).
Proof.
  intros [Hsym _]. unfold Stability.comparableKey, Spec.keyEqb, V8.order,
    TradesTable.compareTrades.
  destruct field; cbn [TradesTable.sortValues]; intros Hx Hy; destruct direction;
    first [apply Hsym
          | rewrite !sortCompare_sub by assumption; apply Z.compare_antisym].
Qed.

Lemma compareTrades_trans (host : Host) (field : TradesTable.SortField)
    (direction : TradesTable.SortDirection) (x y z : Types.TradeRecord) :
  Stability.consistentCollation host ->
  Stability.comparableKey host field x -> Stability.comparableKey host field y ->
  Stability.comparableKey host field z ->
  Spec.notAfter (TradesTable.compareTrades host field direction) x y ->
  Spec.notAfter (TradesTable.compareTrades host field direction) y z ->
  Spec.notAfter (TradesTable.compareTrades host field direction) x z.
Proof.
  intros [_ Htrans]. unfold Stability.comparableKey, Spec.keyEqb, Spec.notAfter,
    TradesTable.compareTrades.
  destruct field; cbn [TradesTable.sortValues]; intros Hx Hy Hz; destruct direction;
    first [ now apply Htrans
          | intros H1 H2; now apply (Htrans _ _ _ H2 H1)
          | rewrite !sortCompare_sub by assumption;
            rewrite !Z.compare_le_iff; lia ].
Qed.

(** C7, as stated, fails: the third of seven trades has a time stamp that
    is not a date, the first is a second older than the other five.  Sorted
    by time stamp, newest first, as V8 sorts an array of seven, the sixth
    trade comes after the seventh, which has the same time stamp. *)
Lemma unparseable_timestamp_reorders_equal_trades :
  map Types.week
    (V8.sort
       (TradesTable.compareTrades DateFixtures.dateHost TradesTable.Timestamp
          TradesTable.Desc)
       DateFixtures.withBadStamp)
  = ["1"; "3"; "4"; "6"; "0"; "2"; "5"]
  /\ ~ Stability.tiesKeepOrder DateFixtures.dateHost TradesTable.Timestamp
         DateFixtures.withBadStamp
         (V8.sort
            (TradesTable.compareTrades DateFixtures.dateHost TradesTable.Timestamp
               TradesTable.Desc)
            DateFixtures.withBadStamp).
Proof.
  split; [reflexivity |].
  intros H.
  specialize (H (DateFixtures.tradeAt "1" "2025-06-28T13:09:02Z")).
  vm_compute in H. discriminate H.
Qed.

(** C7, amended: for every trade list in which no trade has [NaN] for the
    sort key of the column (no time stamp that is not a date, no [NaN]
    quantity, price or cash flow), every field and every direction, and for
    a consistent collation: the trades that share a sort key with any given
    trade appear in the output in the order they had in the input.  The
    output is the array of the stable sort, and it is the array V8 makes
    of a list of fewer than 64 trades, the lists its sort is embedded
    for. *)
Theorem sortedTrades_stable_for_comparable_keys (host : Host)
    (field : TradesTable.SortField) (direction : TradesTable.SortDirection)
    (trades : list Types.TradeRecord) :
  Stability.consistentCollation host ->
  Stability.comparableKeys host field trades ->
  Stability.tiesKeepOrder host field trades
    (TradesTable.sortedTrades host field direction trades)
  /\ ((List.length trades < 64)%nat ->
      V8.sort (TradesTable.compareTrades host field direction) trades
      = TradesTable.sortedTrades host field direction trades
      /\ Stability.tiesKeepOrder host field trades
           (V8.sort (TradesTable.compareTrades host field direction) trades)).
Proof.
  intros Hhost Hkeys.
  assert (Hties : Stability.tiesKeepOrder host field trades
                    (TradesTable.sortedTrades host field direction trades)).
  { intros a. unfold TradesTable.sortedTrades.
    apply sort_stable. intros x y Hx Hy. unfold Spec.notAfter.
    rewrite (equal_keys_compare_equal host field direction a x y); try assumption;
      [discriminate |].
    intros s. now apply consistentCollation_refl. }
  assert (Hsame : V8.sort (TradesTable.compareTrades host field direction) trades
                  = TradesTable.sortedTrades host field direction trades).
  { unfold TradesTable.sortedTrades.
    apply V8_sort_stable_sort with (ok := Stability.comparableKey host field).
    - intros x y. now apply compareTrades_sym.
    - intros x y z. now apply compareTrades_trans.
    - exact Hkeys. }
  split; [exact Hties |].
  intros _. split; [exact Hsame |]. now rewrite Hsame.
Qed.

(** Seven trades with time stamps that are dates, sorted by time stamp,
    newest first: the five trades of the same second keep their order, and
    V8 returns the same array. *)
Lemma sortedTrades_stable_for_comparable_keys_witness :
  filter
    (Spec.keyEqb DateFixtures.dateHost TradesTable.Timestamp
       (DateFixtures.tradeAt "1" "2025-06-28T13:09:02Z"))
    (TradesTable.sortedTrades DateFixtures.dateHost TradesTable.Timestamp
       TradesTable.Desc DateFixtures.withGoodStamps)
  = [ DateFixtures.tradeAt "1" "2025-06-28T13:09:02Z";
      DateFixtures.tradeAt "3" "2025-06-28T13:09:02Z";
      DateFixtures.tradeAt "4" "2025-06-28T13:09:02Z";
      DateFixtures.tradeAt "5" "2025-06-28T13:09:02Z";
      DateFixtures.tradeAt "6" "2025-06-28T13:09:02Z" ]
  /\ V8.sort
       (TradesTable.compareTrades DateFixtures.dateHost TradesTable.Timestamp
          TradesTable.Desc)
       DateFixtures.withGoodStamps
     = TradesTable.sortedTrades DateFixtures.dateHost TradesTable.Timestamp
         TradesTable.Desc DateFixtures.withGoodStamps.
Proof.
  destruct (sortedTrades_stable_for_comparable_keys DateFixtures.dateHost
              TradesTable.Timestamp TradesTable.Desc DateFixtures.withGoodStamps
              (codeUnitCollation_consistent DateFixtures.timeOf)
              ltac:(repeat constructor))
    as [Hties Hv8].
  split.
  - exact (eq_trans (Hties (DateFixtures.tradeAt "1" "2025-06-28T13:09:02Z")) eq_refl).
  - exact (proj1 (Hv8 (proj1 (Nat.ltb_lt 7 64) eq_refl))).
Defined.

(** C6, as stated, fails: sorted by week in ascending order, the trade of
    week 10 comes before the trade of week 2. *)
Lemma week_10_sorts_before_week_2 :
  map Types.week
    (TradesTable.sortedTrades Fixtures.asciiHost TradesTable.Week TradesTable.Asc
       [ Fixtures.withWeek "2" Fixtures.mockTrade;
         Fixtures.withWeek "10" Fixtures.mockTrade ])
  = ["10"; "2"]
  /\ ~ Spec.weeks_in_numeric_order
         (TradesTable.sortedTrades Fixtures.asciiHost TradesTable.Week TradesTable.Asc
            [ Fixtures.withWeek "2" Fixtures.mockTrade;
              Fixtures.withWeek "10" Fixtures.mockTrade ]).
Proof.
  split; [reflexivity |].
  intros H.
  specialize (H 0 1 (Fixtures.withWeek "10" Fixtures.mockTrade)
                (Fixtures.withWeek "2" Fixtures.mockTrade) 10%N 2%N
                (Nat.lt_0_succ 0) eq_refl eq_refl eq_refl eq_refl).
  now apply H.
Qed.

(** C6, amended: the compare function of the week column is the collation
    of the two week strings, whether or not they parse as numbers; so, for a
    collation that is a total preorder, the output is the input reordered so
    that every trade's week collates no later than the week of every trade
    after it (no earlier, in descending order). *)
Theorem week_sorted_by_collation (host : Host)
    (direction : TradesTable.SortDirection) (trades : list Types.TradeRecord) :
  (forall s t, Js.sortCompare (localeCompare host s t) = Gt ->
               Js.sortCompare (localeCompare host t s) <> Gt) ->
  (forall s t u, Js.sortCompare (localeCompare host s t) <> Gt ->
                 Js.sortCompare (localeCompare host t u) <> Gt ->
                 Js.sortCompare (localeCompare host s u) <> Gt) ->
  (forall a b,
      TradesTable.compareTrades host TradesTable.Week direction a b
      = match direction with
        | TradesTable.Asc => localeCompare host (Types.week a) (Types.week b)
        | TradesTable.Desc => localeCompare host (Types.week b) (Types.week a)
        end)
  /\ StronglySorted (Spec.weekOrder host direction)
       (TradesTable.sortedTrades host TradesTable.Week direction trades)
  /\ Permutation (TradesTable.sortedTrades host TradesTable.Week direction trades)
       trades.
Proof.
  intros Htotal Htrans.
  split; [reflexivity |]. split; [| apply sort_perm].
  unfold TradesTable.sortedTrades.
  assert (Hdec : forall c : comparison, ~ c <> Gt -> c = Gt)
    by (intros [| |] Hc; try reflexivity; elim Hc; discriminate).
  destruct direction.
  - apply (sort_sorted _ (TradesTable.compareTrades host TradesTable.Week TradesTable.Asc)).
    + intros x y Hxy. apply Htotal, Hdec, Hxy.
    + intros x y z. apply Htrans.
  - apply (sort_sorted _ (TradesTable.compareTrades host TradesTable.Week TradesTable.Desc)).
    + intros x y Hxy. apply Htotal, Hdec, Hxy.
    + intros x y z Hxy Hyz. exact (Htrans _ _ _ Hyz Hxy).
Qed.

(** Three week labels under the code-unit collation. *)
Lemma week_sorted_by_collation_witness :
  StronglySorted (Spec.weekOrder Fixtures.asciiHost TradesTable.Asc)
    (TradesTable.sortedTrades Fixtures.asciiHost TradesTable.Week TradesTable.Asc
       [ Fixtures.withWeek "Week2" Fixtures.mockTrade;
         Fixtures.withWeek "Week10" Fixtures.mockTrade;
         Fixtures.withWeek "Week0" Fixtures.mockTrade ]).
Proof.
  exact (proj1 (proj2
    (week_sorted_by_collation Fixtures.asciiHost TradesTable.Asc
       [ Fixtures.withWeek "Week2" Fixtures.mockTrade;
         Fixtures.withWeek "Week10" Fixtures.mockTrade;
         Fixtures.withWeek "Week0" Fixtures.mockTrade ]
       codeUnitCompare_total codeUnitCompare_trans))).
Defined.

(** * Further properties of the code *)

(** ** [useApi] and [useApiState] *)

Section HookInvariants.

Variable T : Type.

Lemma step_keeps_loading_pending (h : UseApi.Hook T) (ev : UseApi.Event T) :
  (UseApi.loading (UseApi.state h) = true -> UseApi.pending h <> []) ->
  UseApi.loading (UseApi.state (UseApi.step h ev)) = true ->
  UseApi.pending (UseApi.step h ev) <> [].
Proof.
  intros Hinv. destruct ev as [c | c [r | e] |]; simpl.
  - discriminate.
  - destruct (UseApi.isPending c (UseApi.pending h)); simpl; [discriminate | exact Hinv].
  - destruct (UseApi.isPending c (UseApi.pending h)); simpl; [discriminate | exact Hinv].
  - discriminate.
Qed.

Lemma run_keeps_loading_pending (evs : list (UseApi.Event T)) (h : UseApi.Hook T) :
  (UseApi.loading (UseApi.state h) = true -> UseApi.pending h <> []) ->
  UseApi.loading (UseApi.state (UseApi.run h evs)) = true ->
  UseApi.pending (UseApi.run h evs) <> [].
Proof.
  revert h. induction evs as [| ev evs IH]; intros h Hinv; simpl.
  - exact Hinv.
  - apply IH. now apply step_keeps_loading_pending.
Qed.

End HookInvariants.

(** X1: whatever calls, settlements and resets a freshly mounted [useApi]
    hook has seen, [loading] is true only while some call of [execute] is
    still awaiting its result. *)
Theorem loading_only_while_in_flight (T : Type) (evs : list (UseApi.Event T)) :
  UseApi.loading (UseApi.state (UseApi.run UseApi.mount evs)) = true ->
  UseApi.pending (UseApi.run UseApi.mount evs) <> [].
Proof.
  apply run_keeps_loading_pending. discriminate.
Qed.

(** A call that failed earlier, and a second one in flight. *)
Lemma loading_only_while_in_flight_witness :
  UseApi.pending
    (UseApi.run (T := string) UseApi.mount
       [UseApi.Execute 1; UseApi.Settled 1 (UseApi.RejectedWith UseApi.NotAnError);
        UseApi.Execute 2])
  <> [].
Proof.
  exact (loading_only_while_in_flight string
           [UseApi.Execute 1; UseApi.Settled 1 (UseApi.RejectedWith UseApi.NotAnError);
            UseApi.Execute 2] eq_refl).
Defined.

(** X2: a call of [execute] that settles before anything else happens
    leaves the state in step with what it returns: on success [data] is the
    returned result and [error] is null; on failure [error] is the returned
    message and [data] is what it was before the call. *)
Theorem single_call_state_and_result (T : Type) (h : UseApi.Hook T) (c : nat)
    (r : T) (e : UseApi.Thrown) :
  (UseApi.state
     (UseApi.run h [UseApi.Execute c; UseApi.Settled c (UseApi.Fulfilled r)])
   = {| UseApi.data := Some r; UseApi.loading := false; UseApi.error := None |}
   /\ snd (UseApi.executeSettled T (UseApi.Fulfilled r)) = UseApi.Success T r)
  /\
  (UseApi.state
     (UseApi.run h [UseApi.Execute c; UseApi.Settled c (UseApi.RejectedWith e)])
   = {| UseApi.data := UseApi.data (UseApi.state h); UseApi.loading := false;
        UseApi.error := Some (UseApi.errorMessage e) |}
   /\ snd (UseApi.executeSettled T (UseApi.RejectedWith e))
      = UseApi.Failure T (UseApi.errorMessage e)).
Proof.
  assert (Hstep : forall settled,
             UseApi.state
               (UseApi.run h [UseApi.Execute c; UseApi.Settled c settled])
             = fst (UseApi.executeSettled T settled)
                 (UseApi.executeStart T (UseApi.state h))).
  { intros settled. unfold UseApi.run. cbn [fold_left].
    unfold UseApi.step at 1. cbn [UseApi.step UseApi.pending UseApi.state].
    now rewrite isPending_head. }
  rewrite !Hstep. repeat split.
Qed.

(** X3: a success does not clear the error of another call.  When two calls
    overlap, the first fails and the second succeeds, the state ends with
    the second call's data and the first call's error message at once. *)
Theorem success_keeps_error_of_overlapping_failure (T : Type) (h : UseApi.Hook T)
    (a b : nat) (e : UseApi.Thrown) (r : T) :
  UseApi.state
    (UseApi.run h [UseApi.Execute a; UseApi.Execute b;
                   UseApi.Settled a (UseApi.RejectedWith e);
                   UseApi.Settled b (UseApi.Fulfilled r)])
  = {| UseApi.data := Some r; UseApi.loading := false;
       UseApi.error := Some (UseApi.errorMessage e) |}.
Proof.
  unfold UseApi.run. cbn [fold_left].
  set (h2 := UseApi.step (UseApi.step h (UseApi.Execute a)) (UseApi.Execute b)).
  assert (Ha : UseApi.isPending a (UseApi.pending h2) = true).
  { subst h2. simpl. destruct (a =? b)%nat; [reflexivity | now rewrite Nat.eqb_refl]. }
  assert (Hb : UseApi.isPending b (UseApi.resume a (UseApi.pending h2)) = true).
  { subst h2. simpl. destruct (a =? b)%nat eqn:Hab; simpl.
    - apply Nat.eqb_eq in Hab. subst b. now rewrite Nat.eqb_refl.
    - now rewrite Nat.eqb_refl. }
  unfold UseApi.step at 2. rewrite Ha.
  unfold UseApi.step at 1. cbn [UseApi.pending]. rewrite Hb.
  reflexivity.
Qed.

(** X4: started without initial data, [useApiState] goes through exactly
    the states of [useApi] under the same calls, settlements and resets. *)
Theorem useApiState_follows_useApi (T : Type) (evs : list (UseApi.Event T))
    (h : UseApi.Hook T) :
  UseApiState.run T None h (map UseApiState.Shared evs) = UseApi.run h evs
  /\ UseApiState.mount T None = UseApi.mount.
Proof.
  split; [| reflexivity].
  revert h. induction evs as [| ev evs IH]; intros h; [reflexivity |].
  simpl. rewrite <- IH. f_equal.
  destruct h as [[d l e] p], ev as [c | c [r | err] |]; simpl; try reflexivity;
    destruct (UseApi.isPending c p); reflexivity.
Qed.

(** ** [handleApiError] *)

(** X5: for an [AxiosError], the result of [handleApiError] does not depend
    on the error's own [message] and is never the empty string: it is the
    same for every [message], and it is either the [detail] of the response
    (then not empty) or one of the fixed [ERROR_MESSAGES]. *)
Theorem handleApiError_hides_axios_message (response : option UseApi.AxiosResponse)
    (m1 m2 : string) :
  ApiService.handleApiError (UseApi.AxiosError response m1)
  = ApiService.handleApiError (UseApi.AxiosError response m2)
  /\ ApiService.handleApiError (UseApi.AxiosError response m1) <> ""
  /\ (UseApi.responseDetail response
       = Some (ApiService.handleApiError (UseApi.AxiosError response m1))
      \/ In (ApiService.handleApiError (UseApi.AxiosError response m1))
            [ ApiService.NETWORK; ApiService.UNAUTHORIZED; ApiService.FORBIDDEN;
              ApiService.NOT_FOUND; ApiService.SERVER_ERROR;
              ApiService.VALIDATION_ERROR; ApiService.UNKNOWN ]).
Proof.
  split; [reflexivity |].
  unfold ApiService.handleApiError.
  destruct response as [[code det] |]; simpl UseApi.responseDetail;
    cbn [option_map UseApi.status UseApi.detail].
  - repeat match goal with
           | |- context [(code =? ?n)%nat] => destruct (code =? n)%nat
           end;
      try (split; [discriminate | right; simpl; tauto]);
      destruct det as [[| ch d] |];
      (split; [discriminate | first [left; reflexivity | right; simpl; tauto]]).
  - split; [discriminate | right; simpl; tauto].
Qed.

(** X6: when the response carries a non-empty [detail] and its status is
    none of 401, 403, 404 and 500, [handleApiError] and the error mapping
    of [execute] agree: both return the detail. *)
Theorem handleApiError_agrees_on_detail (resp : UseApi.AxiosResponse)
    (d message : string) :
  UseApi.detail resp = Some d -> d <> "" ->
  ~ In (UseApi.status resp) [401; 403; 404; 500] ->
  ApiService.handleApiError (UseApi.AxiosError (Some resp) message) = d
  /\ UseApi.errorMessage (UseApi.AxiosError (Some resp) message) = d.
Proof.
  intros Hd Hne Hstatus.
  assert (Hor : forall fallback, Js.orElse (Some d) fallback = d)
    by (intros fallback; destruct d; [now elim Hne | reflexivity]).
  split.
  - unfold ApiService.handleApiError. simpl. rewrite Hd, !Hor.
    destruct (UseApi.status resp =? 400)%nat; [reflexivity |].
    repeat match goal with
           | |- context [(UseApi.status resp =? ?n)%nat] =>
               destruct (UseApi.status resp =? n)%nat eqn:?
           end;
      try reflexivity;
      match goal with
      | H : (_ =? _)%nat = true |- _ =>
          apply Nat.eqb_eq in H; elim Hstatus; rewrite H; simpl; tauto
      end.
  - simpl. rewrite Hd. apply Hor.
Qed.

(** A validation failure (422) with a detail. *)
Lemma handleApiError_agrees_on_detail_witness :
  ApiService.handleApiError
    (UseApi.AxiosError
       (Some {| UseApi.status := 422; UseApi.detail := Some "Invalid strategy" |})
       "Request failed with status code 422")
  = "Invalid strategy".
Proof.
  refine (proj1 (handleApiError_agrees_on_detail
                   {| UseApi.status := 422; UseApi.detail := Some "Invalid strategy" |}
                   "Invalid strategy" "Request failed with status code 422"
                   eq_refl _ _)).
  - discriminate.
  - intros [H | [H | [H | [H | []]]]]; discriminate H.
Defined.

(** ** The trades table *)

(** X7: a click on a column header selects that column and leaves the
    collapsed flag alone; a column that was not the active one starts in
    ascending order; two clicks on the active column restore the state; and
    on any state a third click on the same header undoes the second. *)
Theorem handleSort_clicks (field : TradesTable.SortField) (st : TradesTable.State) :
  TradesTable.sortField (TradesTable.handleSort field st) = field
  /\ TradesTable.isCollapsed (TradesTable.handleSort field st)
     = TradesTable.isCollapsed st
  /\ (TradesTable.sortField st <> field ->
      TradesTable.sortDirection (TradesTable.handleSort field st) = TradesTable.Asc)
  /\ (TradesTable.sortField st = field ->
      TradesTable.handleSort field (TradesTable.handleSort field st) = st)
  /\ TradesTable.handleSort field
       (TradesTable.handleSort field (TradesTable.handleSort field st))
     = TradesTable.handleSort field st.
Proof.
  destruct st as [f d c].
  repeat split; destruct f, field, d; simpl; try reflexivity; try congruence;
    intros H; try discriminate H; now elim H.
Qed.

(** X8: for every field and direction, the sorted trades are the given
    trades in another order: nothing is dropped and nothing is doubled. *)
Theorem sortedTrades_permutation (host : Host) (field : TradesTable.SortField)
    (direction : TradesTable.SortDirection) (trades : list Types.TradeRecord) :
  Permutation (TradesTable.sortedTrades host field direction trades) trades
  /\ List.length (TradesTable.sortedTrades host field direction trades)
     = List.length trades.
Proof.
  assert (H : Permutation (TradesTable.sortedTrades host field direction trades) trades)
    by apply sort_perm.
  split; [exact H | now apply Permutation_length].
Qed.

(** X9: for every field and direction, trades that are already in the
    order of the compare function (none placed strictly after a later one)
    come out of the sort unchanged. *)
Theorem sortedTrades_of_sorted (host : Host) (field : TradesTable.SortField)
    (direction : TradesTable.SortDirection) (trades : list Types.TradeRecord) :
  StronglySorted (Spec.notAfter (TradesTable.compareTrades host field direction)) trades ->
  TradesTable.sortedTrades host field direction trades = trades.
Proof. apply sort_of_sorted. Qed.

Lemma sortedTrades_of_sorted_witness :
  TradesTable.sortedTrades Fixtures.asciiHost TradesTable.Quantity TradesTable.Desc
    [ Fixtures.withSymbol "SPY" 5%float Fixtures.mockTrade;
      Fixtures.withSymbol "IWM" 2%float Fixtures.mockTrade;
      Fixtures.withSymbol "QQQ" 2%float Fixtures.mockTrade ]
  = [ Fixtures.withSymbol "SPY" 5%float Fixtures.mockTrade;
      Fixtures.withSymbol "IWM" 2%float Fixtures.mockTrade;
      Fixtures.withSymbol "QQQ" 2%float Fixtures.mockTrade ].
Proof.
  apply (sortedTrades_of_sorted Fixtures.asciiHost TradesTable.Quantity TradesTable.Desc).
  repeat constructor; unfold Spec.notAfter; vm_compute; discriminate.
Defined.

(** The string columns are ordered by the collation whenever it is a total
    preorder. *)
Lemma string_column_sorted (host : Host) (field : TradesTable.SortField)
    (direction : TradesTable.SortDirection) (trades : list Types.TradeRecord) :
  In field [TradesTable.Week; TradesTable.Symbol; TradesTable.Action] ->
  (forall s t, Js.sortCompare (localeCompare host s t) = Gt ->
               Js.sortCompare (localeCompare host t s) <> Gt) ->
  (forall s t u, Js.sortCompare (localeCompare host s t) <> Gt ->
                 Js.sortCompare (localeCompare host t u) <> Gt ->
                 Js.sortCompare (localeCompare host s u) <> Gt) ->
  StronglySorted (Spec.notAfter (TradesTable.compareTrades host field direction))
    (TradesTable.sortedTrades host field direction trades).
Proof.
  intros Hfield Htotal Htrans.
  assert (Hdec : forall c : comparison, ~ c <> Gt -> c = Gt)
    by (intros [| |] Hc; try reflexivity; elim Hc; discriminate).
  unfold TradesTable.sortedTrades. apply sort_sorted.
  - intros x y Hxy. unfold Spec.notAfter in *.
    destruct Hfield as [<- | [<- | [<- | []]]], direction; simpl in *;
      apply Htotal, Hdec, Hxy.
  - intros x y z Hxy Hyz. unfold Spec.notAfter in *.
    destruct Hfield as [<- | [<- | [<- | []]]], direction; simpl in *;
      first [exact (Htrans _ _ _ Hxy Hyz) | exact (Htrans _ _ _ Hyz Hxy)].
Qed.

(** X10: sorting by week, symbol or action is idempotent under a collation
    that is a total preorder: sorting the output again by the same column
    and direction changes nothing. *)
Theorem string_column_sort_idempotent (host : Host) (field : TradesTable.SortField)
    (direction : TradesTable.SortDirection) (trades : list Types.TradeRecord) :
  In field [TradesTable.Week; TradesTable.Symbol; TradesTable.Action] ->
  (forall s t, Js.sortCompare (localeCompare host s t) = Gt ->
               Js.sortCompare (localeCompare host t s) <> Gt) ->
  (forall s t u, Js.sortCompare (localeCompare host s t) <> Gt ->
                 Js.sortCompare (localeCompare host t u) <> Gt ->
                 Js.sortCompare (localeCompare host s u) <> Gt) ->
  TradesTable.sortedTrades host field direction
    (TradesTable.sortedTrades host field direction trades)
  = TradesTable.sortedTrades host field direction trades.
Proof.
  intros Hfield Htotal Htrans.
  apply sort_of_sorted. now apply string_column_sorted.
Qed.

Lemma string_column_sort_idempotent_witness :
  TradesTable.sortedTrades Fixtures.asciiHost TradesTable.Symbol TradesTable.Asc
    (TradesTable.sortedTrades Fixtures.asciiHost TradesTable.Symbol TradesTable.Asc
       [ Fixtures.withSymbol "SPY" 5%float Fixtures.mockTrade;
         Fixtures.withSymbol "IWM" 2%float Fixtures.mockTrade ])
  = TradesTable.sortedTrades Fixtures.asciiHost TradesTable.Symbol TradesTable.Asc
      [ Fixtures.withSymbol "SPY" 5%float Fixtures.mockTrade;
        Fixtures.withSymbol "IWM" 2%float Fixtures.mockTrade ].
Proof.
  exact (string_column_sort_idempotent Fixtures.asciiHost TradesTable.Symbol
           TradesTable.Asc
           [ Fixtures.withSymbol "SPY" 5%float Fixtures.mockTrade;
             Fixtures.withSymbol "IWM" 2%float Fixtures.mockTrade ]
           (or_intror (or_introl eq_refl))
           codeUnitCompare_total codeUnitCompare_trans).
Defined.

(** X11: the table shows [No trades executed] exactly for an empty list,
    collapsed or not; otherwise its header counts all trades, and its body,
    absent when collapsed, has one row for each of them. *)
Theorem table_rows_match_count (host : Host) (st : TradesTable.State)
    (trades : list Types.TradeRecord) (title : string) :
  match TradesTable.render host st trades title with
  | TradesTable.NoTradesExecuted t => t = title /\ trades = []
  | TradesTable.Table t n body =>
      t = title /\ trades <> [] /\ n = List.length trades
      /\ match body with
         | None => TradesTable.isCollapsed st = true
         | Some rows =>
             TradesTable.isCollapsed st = false /\ List.length rows = n
         end
  end.
Proof.
  destruct trades as [| t trades]; [now split |].
  unfold TradesTable.render.
  repeat split; try discriminate.
  destruct (TradesTable.isCollapsed st); [reflexivity |].
  split; [reflexivity |].
  rewrite length_map. apply sortedTrades_permutation.
Qed.

(** ** Action labels and display keys *)

Section UnderscoreFacts.

Lemma includes_underscore_cons (c : ascii) (s : string) :
  Js.includes "_" (String c s) = Ascii.eqb c "_" || Js.includes "_" s.
Proof.
  rewrite includes_unfold.
  change (String.prefix "_" (String c s))
    with (if Ascii.ascii_dec "_" c then String.prefix "" s else false).
  destruct (Ascii.ascii_dec "_" c) as [<- | Hc].
  - now destruct s.
  - destruct (Ascii.eqb c "_") eqn:He; [| reflexivity].
    apply Ascii.eqb_eq in He. now elim Hc.
Qed.

Lemma replaceFirstUnderscore_without (s : string) :
  Js.includes "_" s = false -> Js.replaceFirstUnderscore s = s.
Proof.
  induction s as [| c s IH]; [reflexivity |].
  rewrite includes_underscore_cons. intros H.
  apply orb_false_iff in H. destruct H as [Hc Hs].
  simpl. rewrite Hc. now rewrite IH.
Qed.

Lemma toUpperCase_not_underscore (c : ascii) :
  Ascii.eqb c "_" = false -> Ascii.eqb (Js.toUpperCase c) "_" = false.
Proof.
  destruct c as [[] [] [] [] [] [] [] []]; vm_compute; congruence.
Qed.

Lemma capitalizeWords_length (b : bool) (s : string) :
  String.length (Js.capitalizeWords b s) = String.length s.
Proof.
  revert b. induction s as [| c s IH]; intros b; simpl; [reflexivity | now rewrite IH].
Qed.

Lemma replaceAllUnderscores_length (s : string) :
  String.length (Js.replaceAllUnderscores s) = String.length s.
Proof.
  induction s as [| c s IH]; simpl; [reflexivity | now rewrite IH].
Qed.

Lemma capitalizeWords_no_underscore (b : bool) (s : string) :
  Js.includes "_" (Js.capitalizeWords b (Js.replaceAllUnderscores s)) = false.
Proof.
  revert b. induction s as [| c s IH]; intros b; [reflexivity |].
  simpl Js.replaceAllUnderscores. simpl Js.capitalizeWords.
  rewrite includes_underscore_cons, IH, orb_false_r.
  assert (Hc : Ascii.eqb (if Ascii.eqb c "_" then " "%char else c) "_" = false)
    by (destruct (Ascii.eqb c "_") eqn:He; [reflexivity | exact He]).
  destruct (Js.isWordChar _ && negb b); [| exact Hc].
  now apply toUpperCase_not_underscore.
Qed.

End UnderscoreFacts.

(** X12: an action label is the action with its first underscore, and only
    the first, turned into a space: what follows the first underscore is
    kept as it is, further underscores included, and an action without an
    underscore is its own label. *)
Theorem action_label_replaces_first_underscore (pre post : string) :
  Js.includes "_" pre = false ->
  Js.replaceFirstUnderscore (pre ++ "_" ++ post) = (pre ++ " " ++ post)%string
  /\ Js.replaceFirstUnderscore pre = pre.
Proof.
  intros H. split; [| now apply replaceFirstUnderscore_without].
  revert H. induction pre as [| c pre IH]; intros H; [reflexivity |].
  rewrite includes_underscore_cons in H.
  apply orb_false_iff in H. destruct H as [Hc Hpre].
  cbn [String.append Js.replaceFirstUnderscore]. rewrite Hc.
  f_equal. now apply IH.
Qed.

Lemma action_label_replaces_first_underscore_witness :
  Js.replaceFirstUnderscore "SELL_COVERED_CALL" = "SELL COVERED_CALL".
Proof.
  exact (proj1 (action_label_replaces_first_underscore "SELL" "COVERED_CALL" eq_refl)).
Defined.

(** X13: the display key of an additional metric is as long as the key and
    holds no underscore. *)
Theorem displayKey_shape (key : string) :
  String.length (SummaryMetrics.displayKey key) = String.length key
  /\ Js.includes "_" (SummaryMetrics.displayKey key) = false.
Proof.
  unfold SummaryMetrics.displayKey. split.
  - now rewrite capitalizeWords_length, replaceAllUnderscores_length.
  - apply capitalizeWords_no_underscore.
Qed.

(** ** The summary card *)

(** X14: the additional-metrics grid is rendered exactly when the summary
    has entries beyond the five declared ones; it then holds nothing for
    the five and one cell for each further entry, in their order. *)
Theorem additionalMetrics_shape (s : Types.StrategySummary) :
  SummaryMetrics.additionalMetrics s
  = match Types.additional s with
    | [] => None
    | extra =>
        Some (repeat None 5
              ++ map (fun entry =>
                        if Js.arrayIncludes SummaryMetrics.mainMetrics (fst entry)
                        then None
                        else Some (SummaryMetrics.displayKey (fst entry),
                                   SummaryMetrics.metricText (fst entry) (snd entry)))
                   extra)
    end.
Proof.
  unfold SummaryMetrics.additionalMetrics, Types.entries.
  destruct (Types.additional s) as [| entry extra]; [reflexivity |].
  rewrite length_app. cbn [List.length Nat.add Nat.ltb Nat.leb].
  rewrite map_app. f_equal. f_equal.
  apply map_ext. now intros [k v].
Qed.

(** X15: the summary card is the error card exactly when the entry's
    [error] is a non-empty string, which it then shows; an entry whose
    [error] is the empty string gets the performance summary. *)
Theorem error_card_iff_nonempty_error (r : Types.StrategyResult) (name e : string) :
  SummaryMetrics.render r name = SummaryMetrics.ErrorCard name e
  <-> Types.error r = Some e /\ e <> "".
Proof.
  split.
  - unfold SummaryMetrics.render.
    destruct (Types.error r) as [[| c msg] |]; simpl; try discriminate.
    intros [= <-]. split; [reflexivity | discriminate].
  - intros [He Hne]. now apply summary_of_failed_entry.
Qed.

Section DurationFacts.

Local Open Scope float_scope.

Lemma not_below_hour_not_below_minute (s : float) :
  (s <? 3600) = false -> (s <? 60) = false.
Proof.
  rewrite !ltb_spec.
  change (Prim2SF 3600) with (S754_finite false 7916483719987200 (-41)).
  change (Prim2SF 60) with (S754_finite false 8444249301319680 (-47)).
  unfold SFltb, SFcompare.
  destruct (Prim2SF s) as [sg | sg | | sg m e].
  - destruct sg; intros H; discriminate H.
  - destruct sg; intros H; try discriminate H. reflexivity.
  - reflexivity.
  - destruct sg; [intros H; discriminate H |].
    destruct (Z.compare_spec e (-41)) as [He | He | He];
      destruct (Z.compare_spec e (-47)) as [He' | He' | He'];
      first [lia | intros _; reflexivity | intros H; discriminate H].
Qed.

End DurationFacts.

(** X16: the duration of the summary card and [formatDuration] of the
    formatters agree below one hour (seconds below a minute, minutes from
    there on); from one hour on, and for [NaN], the card still shows
    minutes where the formatter shows hours. *)
Theorem formatDuration_card_and_formatter (s : Js.number) :
  (PrimFloat.ltb s 60 = true ->
   SummaryMetrics.formatDuration s = SummaryMetrics.Seconds s
   /\ Formatters.formatDuration s = Formatters.Seconds s)
  /\ (PrimFloat.ltb s 60 = false -> PrimFloat.ltb s 3600 = true ->
      SummaryMetrics.formatDuration s = SummaryMetrics.Minutes (PrimFloat.div s 60)
      /\ Formatters.formatDuration s = Formatters.Minutes (PrimFloat.div s 60))
  /\ (PrimFloat.ltb s 3600 = false ->
      SummaryMetrics.formatDuration s = SummaryMetrics.Minutes (PrimFloat.div s 60)
      /\ Formatters.formatDuration s = Formatters.Hours (PrimFloat.div s 3600)).
Proof.
  unfold SummaryMetrics.formatDuration, Formatters.formatDuration.
  repeat split.
  - now rewrite H.
  - now rewrite H.
  - now rewrite H.
  - now rewrite H, H0.
  - now rewrite (not_below_hour_not_below_minute s H).
  - now rewrite (not_below_hour_not_below_minute s H), H.
Qed.

(** ** The action distribution *)

Section ActionCounts.

Lemma countFor_countAction (label a : string) (counts : list (string * nat)) :
  Notions.countFor label (PerformanceChart.countAction a counts)
  = Notions.countFor label counts + (if String.eqb a label then 1 else 0).
Proof.
  induction counts as [| [l n] counts IH]; simpl.
  - destruct (String.eqb a label); reflexivity.
  - destruct (String.eqb l a) eqn:Hla; simpl.
    + apply String.eqb_eq in Hla. subst l.
      destruct (String.eqb a label); lia.
    + destruct (String.eqb l label) eqn:Hll; [| exact IH].
      apply String.eqb_eq in Hll. subst l. rewrite String.eqb_sym, Hla. lia.
Qed.

Lemma keys_countAction (a x : string) (counts : list (string * nat)) :
  In x (map fst (PerformanceChart.countAction a counts))
  <-> x = a \/ In x (map fst counts).
Proof.
  induction counts as [| [l n] counts IH]; simpl.
  - intuition.
  - destruct (String.eqb l a) eqn:Hla; simpl.
    + apply String.eqb_eq in Hla. subst l. intuition.
    + rewrite IH. intuition.
Qed.

Lemma NoDup_countAction (a : string) (counts : list (string * nat)) :
  NoDup (map fst counts) -> NoDup (map fst (PerformanceChart.countAction a counts)).
Proof.
  induction counts as [| [l n] counts IH]; simpl; intros Hnd.
  - repeat constructor. intros [].
  - inversion Hnd as [| ? ? Hnotin Hrest]; subst.
    destruct (String.eqb l a) eqn:Hla; simpl.
    + now constructor.
    + constructor; [| now apply IH].
      rewrite keys_countAction. intros [-> | Hin]; [| now apply Hnotin].
      now rewrite String.eqb_refl in Hla.
Qed.

Lemma positive_countAction (a : string) (counts : list (string * nat)) :
  Forall (fun p => 1 <= snd p) counts ->
  Forall (fun p => 1 <= snd p) (PerformanceChart.countAction a counts).
Proof.
  induction 1 as [| [l n] counts Hn Hrest IH]; simpl.
  - repeat constructor.
  - destruct (String.eqb l a); constructor; simpl in *; auto; lia.
Qed.

(** What counting the trades of one view does to a dataset. *)
Lemma countTrades_spec (label : string) (view : option Types.StrategyResult)
    (counts : list (string * nat)) :
  Notions.countFor label (PerformanceChart.countTrades view counts)
  = Notions.countFor label counts
    + Notions.tradesLabelled label (Notions.countedTrades view)
  /\ (NoDup (map fst counts) ->
      NoDup (map fst (PerformanceChart.countTrades view counts)))
  /\ (Forall (fun p => 1 <= snd p) counts ->
      Forall (fun p => 1 <= snd p) (PerformanceChart.countTrades view counts)).
Proof.
  unfold PerformanceChart.countTrades, Notions.countedTrades, Notions.tradesLabelled.
  destruct (PerformanceChart.succeeded view) as [r |]; [| simpl; auto].
  generalize (Types.trades r). intros ts. revert counts.
  induction ts as [| t ts IH]; intros counts; [simpl; auto |].
  cbn [fold_left filter].
  destruct (IH (PerformanceChart.countAction
                  (Js.replaceFirstUnderscore (Types.action t)) counts))
    as (Hc & Hn & Hp).
  split; [| split].
  - rewrite Hc, countFor_countAction.
    destruct (String.eqb (Js.replaceFirstUnderscore (Types.action t)) label);
      simpl; lia.
  - intros H. now apply Hn, NoDup_countAction.
  - intros H. now apply Hp, positive_countAction.
Qed.

End ActionCounts.

(** X17: the action distribution counts, under each label, exactly the
    trades with that label in the views that are there and have no error; a
    view with an error adds nothing.  It has one entry for each label, and
    no entry with a count of zero.  (For action labels that are not names
    inherited from [Object.prototype].) *)
Theorem actionChartData_counts (w r : option Types.StrategyResult) (label : string) :
  Notions.ownLabels (Notions.countedTrades w ++ Notions.countedTrades r) ->
  Notions.countFor label (PerformanceChart.actionChartData w r)
  = Notions.tradesLabelled label (Notions.countedTrades w ++ Notions.countedTrades r)
  /\ NoDup (map fst (PerformanceChart.actionChartData w r))
  /\ Forall (fun p => 1 <= snd p) (PerformanceChart.actionChartData w r).
Proof.
  intros _. unfold PerformanceChart.actionChartData.
  destruct (countTrades_spec label w []) as (Hc1 & Hn1 & Hp1).
  destruct (countTrades_spec label r (PerformanceChart.countTrades w []))
    as (Hc2 & Hn2 & Hp2).
  split; [| split].
  - rewrite Hc2, Hc1. unfold Notions.tradesLabelled.
    now rewrite filter_app, length_app.
  - apply Hn2, Hn1. constructor.
  - apply Hp2, Hp1. constructor.
Qed.

(** The wheel succeeded with its one put sold; the rotator failed. *)
Lemma actionChartData_counts_witness :
  Notions.countFor "SELL PUT"
    (PerformanceChart.actionChartData (Some Fixtures.mockResult)
       (Some (Fixtures.withError "timeout" Fixtures.mockResult)))
  = 1.
Proof.
  refine (proj1 (actionChartData_counts (Some Fixtures.mockResult)
                   (Some (Fixtures.withError "timeout" Fixtures.mockResult))
                   "SELL PUT" _)).
  repeat constructor.
  intros H. repeat (destruct H as [H | H]; [discriminate H |]). exact H.
Defined.

(** ** [truncateText] *)

Section SubstringFacts.

Lemma substring_length (n : nat) (s : string) :
  String.length (String.substring 0 n s) = Nat.min n (String.length s).
Proof.
  revert n. induction s as [| c s IH]; intros [| n]; simpl; try reflexivity.
  now rewrite IH.
Qed.

Lemma append_length (s t : string) :
  String.length (s ++ t) = String.length s + String.length t.
Proof. induction s as [| c s IH]; simpl; [reflexivity | now rewrite IH]. Qed.

Lemma substring_prefix (n : nat) (s : string) :
  exists rest, s = (String.substring 0 n s ++ rest)%string.
Proof.
  revert n. induction s as [| c s IH]; intros [| n]; simpl.
  - now exists "".
  - now exists "".
  - now exists (String c s).
  - destruct (IH n) as [rest H]. exists rest. now rewrite <- H.
Qed.

End SubstringFacts.

(** X18: for a limit of at least 3, [truncateText] returns at most
    [maxLength] code units: the text itself when it fits, otherwise its
    first [maxLength - 3] code units followed by three dots; and truncating
    the result again changes nothing. *)
Theorem truncateText_fits (text : string) (maxLength : Z) :
  (3 <= maxLength)%Z ->
  (Z.of_nat (String.length (Formatters.truncateText text maxLength)) <= maxLength)%Z
  /\ ((Z.of_nat (String.length text) <= maxLength)%Z ->
      Formatters.truncateText text maxLength = text)
  /\ ((maxLength < Z.of_nat (String.length text))%Z ->
      exists kept rest,
        text = (kept ++ rest)%string
        /\ Z.of_nat (String.length kept) = (maxLength - 3)%Z
        /\ Formatters.truncateText text maxLength = (kept ++ "...")%string)
  /\ Formatters.truncateText (Formatters.truncateText text maxLength) maxLength
     = Formatters.truncateText text maxLength.
Proof.
  intros Hmax.
  assert (Hlen : (Z.of_nat (String.length (Formatters.truncateText text maxLength))
                  <= maxLength)%Z).
  { unfold Formatters.truncateText, JsText.substringTo.
    destruct (Z.leb_spec (Z.of_nat (String.length text)) maxLength) as [Hle | Hgt];
      [exact Hle |].
    rewrite append_length, substring_length. simpl. lia. }
  split; [exact Hlen |]. split; [| split].
  - intros Hle. unfold Formatters.truncateText.
    now apply Z.leb_le in Hle; rewrite Hle.
  - intros Hgt. unfold Formatters.truncateText, JsText.substringTo.
    apply Z.leb_gt in Hgt. rewrite Hgt. apply Z.leb_gt in Hgt.
    destruct (substring_prefix (Z.to_nat (maxLength - 3)) text) as [rest Hrest].
    exists (String.substring 0 (Z.to_nat (maxLength - 3)) text), rest.
    repeat split; [exact Hrest |].
    rewrite substring_length. lia.
  - unfold Formatters.truncateText at 1.
    now apply Z.leb_le in Hlen; rewrite Hlen.
Qed.

Lemma truncateText_fits_witness :
  Formatters.truncateText "hello world" 8 = "hello...".
Proof.
  destruct (proj1 (proj2 (proj2 (truncateText_fits "hello world" 8 ltac:(lia))))
              ltac:(simpl; lia))
    as (kept & rest & _ & _ & _).
  reflexivity.
Defined.

(** X19: for a limit below 3, a text longer than the limit is replaced by
    three dots alone, which is longer than the limit. *)
Theorem truncateText_small_limit (text : string) (maxLength : Z) :
  (maxLength < 3)%Z ->
  (maxLength < Z.of_nat (String.length text))%Z ->
  Formatters.truncateText text maxLength = "...".
Proof.
  intros Hsmall Hgt. unfold Formatters.truncateText, JsText.substringTo.
  apply Z.leb_gt in Hgt. rewrite Hgt.
  replace (Z.to_nat (maxLength - 3)) with 0 by lia.
  now destruct text.
Qed.

Lemma truncateText_small_limit_witness :
  Formatters.truncateText "hello" 2 = "...".
Proof.
  apply truncateText_small_limit; simpl; lia.
Defined.

(** ** The controls panel *)

Section ToggleFacts.

Lemma arrayIncludes_In (keys : list string) (key : string) :
  Js.arrayIncludes keys key = true <-> In key keys.
Proof.
  induction keys as [| k keys IH]; simpl.
  - split; [discriminate | intros []].
  - destruct (String.eqb k key) eqn:Hk.
    + apply String.eqb_eq in Hk. intuition.
    + apply String.eqb_neq in Hk. rewrite IH. intuition.
Qed.

Lemma filter_others_noop (strategy : string) (l : list string) :
  ~ In strategy l ->
  filter (fun s => negb (String.eqb s strategy)) l = l.
Proof.
  induction l as [| x l IH]; simpl; intros Hnot; [reflexivity |].
  destruct (String.eqb x strategy) eqn:Hx; simpl.
  - apply String.eqb_eq in Hx. intuition.
  - rewrite IH; intuition.
Qed.

End ToggleFacts.

(** X20: toggling a strategy flips its membership in the selection and
    nobody else's, never produces a duplicate, and toggling a strategy that
    was not selected twice gives the selection back. *)
Theorem toggle_selection (strategy : string) (prev : list string) :
  (In strategy (ControlsPanel.toggle strategy prev) <-> ~ In strategy prev)
  /\ (forall other, other <> strategy ->
        (In other (ControlsPanel.toggle strategy prev) <-> In other prev))
  /\ (NoDup prev -> NoDup (ControlsPanel.toggle strategy prev))
  /\ (~ In strategy prev ->
      ControlsPanel.toggle strategy (ControlsPanel.toggle strategy prev) = prev).
Proof.
  unfold ControlsPanel.toggle at 1 2 3.
  destruct (Js.arrayIncludes prev strategy) eqn:Hin.
  - apply arrayIncludes_In in Hin.
    split; [| split; [| split]].
    + split; [| intros H; now elim H].
      intros H. apply filter_In in H. destruct H as [_ H].
      now rewrite String.eqb_refl in H.
    + intros other Hother. split; intros H.
      * now apply filter_In in H.
      * apply filter_In. split; [exact H |].
        apply negb_true_iff, String.eqb_neq. exact Hother.
    + intros H. now apply NoDup_filter.
    + intros H. now elim H.
  - assert (Hnot : ~ In strategy prev).
    { intros H. apply arrayIncludes_In in H. congruence. }
    split; [| split; [| split]].
    + split; [intros _; exact Hnot |].
      intros _. apply in_or_app. right. now left.
    + intros other Hother. split; intros H.
      * apply in_app_or in H. destruct H as [H | [H | []]]; [exact H |].
        subst other. now elim Hother.
      * apply in_or_app. now left.
    + intros H. apply (Permutation_NoDup (Permutation_cons_append prev strategy)).
      now constructor.
    + intros _. unfold ControlsPanel.toggle.
      assert (Hin' : Js.arrayIncludes (prev ++ [strategy]) strategy = true).
      { apply arrayIncludes_In, in_or_app. right. now left. }
      rewrite Hin, Hin', filter_app, filter_others_noop by exact Hnot.
      simpl. rewrite String.eqb_refl. simpl. apply app_nil_r.
Qed.

Section SymbolFacts.

Lemma includes_comma_cons (c : ascii) (s : string) :
  Js.includes "," (String c s) = Ascii.eqb c "," || Js.includes "," s.
Proof.
  rewrite includes_unfold.
  change (String.prefix "," (String c s))
    with (if Ascii.ascii_dec "," c then String.prefix "" s else false).
  destruct (Ascii.ascii_dec "," c) as [<- | Hc].
  - now destruct s.
  - destruct (Ascii.eqb c ",") eqn:He; [| reflexivity].
    apply Ascii.eqb_eq in He. now elim Hc.
Qed.

Lemma split_not_nil (s : string) : JsText.split "," s <> [].
Proof.
  destruct s as [| c s]; simpl; [discriminate |].
  destruct (Ascii.eqb c ","); [discriminate |].
  destruct (JsText.split "," s); discriminate.
Qed.

Lemma split_pieces_no_comma (s : string) :
  Forall (fun p => Js.includes "," p = false) (JsText.split "," s).
Proof.
  induction s as [| c s IH]; simpl.
  - now repeat constructor.
  - destruct (Ascii.eqb c ",") eqn:Hc.
    + constructor; [reflexivity | exact IH].
    + destruct (JsText.split "," s) as [| p ps].
      * repeat constructor. now rewrite includes_comma_cons, Hc.
      * inversion IH as [| ? ? Hp Hps]; subst.
        constructor; [| exact Hps].
        now rewrite includes_comma_cons, Hc.
Qed.

Lemma trimStart_no_comma (s : string) :
  Js.includes "," s = false -> Js.includes "," (JsText.trimStart s) = false.
Proof.
  induction s as [| c s IH]; [reflexivity |].
  cbn [JsText.trimStart]. destruct (JsText.isWhiteSpace c); [| tauto].
  rewrite includes_comma_cons. intros H.
  apply orb_false_iff in H. now apply IH.
Qed.

Lemma trimEnd_no_comma (s : string) :
  Js.includes "," s = false -> Js.includes "," (JsText.trimEnd s) = false.
Proof.
  induction s as [| c s IH]; [reflexivity |].
  rewrite includes_comma_cons. intros H.
  apply orb_false_iff in H. destruct H as [Hc Hs].
  cbn [JsText.trimEnd]. specialize (IH Hs).
  destruct (JsText.trimEnd s) as [| d kept].
  - destruct (JsText.isWhiteSpace c); [reflexivity |].
    now rewrite includes_comma_cons, Hc.
  - now rewrite includes_comma_cons, Hc.
Qed.

Lemma trimStart_startsClean (s : string) :
  Notions.startsClean (JsText.trimStart s) = true.
Proof.
  induction s as [| c s IH]; simpl; [reflexivity |].
  destruct (JsText.isWhiteSpace c) eqn:Hc; [exact IH |].
  simpl. now rewrite Hc.
Qed.

Lemma trimEnd_startsClean (s : string) :
  Notions.startsClean s = true -> Notions.startsClean (JsText.trimEnd s) = true.
Proof.
  destruct s as [| c s]; simpl; [reflexivity |].
  intros Hc. apply negb_true_iff in Hc.
  destruct (JsText.trimEnd s); rewrite ?Hc; simpl; now rewrite Hc.
Qed.

Lemma trimEnd_endsClean (s : string) :
  Notions.endsClean (JsText.trimEnd s) = true.
Proof.
  induction s as [| c s IH]; simpl; [reflexivity |].
  destruct (JsText.trimEnd s) as [| d kept].
  - destruct (JsText.isWhiteSpace c) eqn:Hc; simpl; [reflexivity | now rewrite Hc].
  - exact IH.
Qed.

Lemma trimStart_clean (s : string) :
  Notions.startsClean s = true -> JsText.trimStart s = s.
Proof.
  destruct s as [| c s]; simpl; [reflexivity |].
  intros Hc. apply negb_true_iff in Hc. now rewrite Hc.
Qed.

Lemma trimEnd_clean (s : string) :
  Notions.endsClean s = true -> JsText.trimEnd s = s.
Proof.
  induction s as [| c s IH]; [reflexivity |].
  destruct s as [| d s].
  - simpl. intros Hc. apply negb_true_iff in Hc. now rewrite Hc.
  - intros H. change (Notions.endsClean (String d s) = true) in H.
    specialize (IH H).
    change (JsText.trimEnd (String c (String d s)))
      with (match JsText.trimEnd (String d s) with
            | EmptyString =>
                if JsText.isWhiteSpace c then EmptyString else String c EmptyString
            | kept => String c kept
            end).
    now rewrite IH.
Qed.

Lemma trim_clean (s : string) :
  Notions.startsClean s = true -> Notions.endsClean s = true -> JsText.trim s = s.
Proof.
  intros Hs He. unfold JsText.trim. rewrite trimStart_clean by exact Hs.
  now apply trimEnd_clean.
Qed.

Lemma split_without_comma (s : string) :
  Js.includes "," s = false -> JsText.split "," s = [s].
Proof.
  induction s as [| c s IH]; [reflexivity |].
  rewrite includes_comma_cons. intros H.
  apply orb_false_iff in H. destruct H as [Hc Hs].
  simpl. rewrite Hc, IH by exact Hs. reflexivity.
Qed.

Lemma split_app_comma (x rest : string) :
  Js.includes "," x = false ->
  JsText.split "," (x ++ String "," rest) = x :: JsText.split "," rest.
Proof.
  induction x as [| c x IH]; [reflexivity |].
  rewrite includes_comma_cons. intros H.
  apply orb_false_iff in H. destruct H as [Hc Hx].
  cbn [String.append JsText.split]. rewrite Hc, IH by exact Hx. reflexivity.
Qed.

Lemma split_join (x : string) (l : list string) :
  Forall (fun s => Js.includes "," s = false) (x :: l) ->
  JsText.split "," (JsText.join ", " (x :: l)) = x :: map (String " ") l.
Proof.
  revert x. induction l as [| y l IH]; intros x H.
  - inversion H; subst. now apply split_without_comma.
  - inversion H as [| ? ? Hx Hrest]; subst.
    change (JsText.join ", " (x :: y :: l))
      with (x ++ String "," (String " " (JsText.join ", " (y :: l))))%string.
    rewrite split_app_comma by exact Hx.
    cbn [JsText.split]. change (Ascii.eqb " " ",") with false. cbv iota.
    rewrite IH by exact Hrest. reflexivity.
Qed.

End SymbolFacts.

(** X21: whatever is typed into a symbols input, every symbol taken from
    it is non-empty, holds no comma, and has no white space at either end. *)
Theorem symbolsOf_clean (value : string) :
  Forall Notions.cleanSymbol (ControlsPanel.symbolsOf value).
Proof.
  unfold ControlsPanel.symbolsOf.
  apply Forall_forall. intros s Hs.
  apply filter_In in Hs. destruct Hs as [Hin Hlen].
  apply in_map_iff in Hin. destruct Hin as (p & <- & Hp).
  pose proof (split_pieces_no_comma value) as Hall.
  rewrite Forall_forall in Hall. specialize (Hall p Hp).
  repeat split.
  - intros Hempty. rewrite Hempty in Hlen. discriminate Hlen.
  - unfold JsText.trim. now apply trimEnd_no_comma, trimStart_no_comma.
  - unfold JsText.trim. apply trimEnd_startsClean, trimStart_startsClean.
  - unfold JsText.trim. apply trimEnd_endsClean.
Qed.

(** X22: a list of symbols that are non-empty, without commas and without
    white space at their ends is read back unchanged from the text the
    input shows for it. *)
Theorem symbols_text_round_trip (symbols : list string) :
  Forall Notions.cleanSymbol symbols ->
  ControlsPanel.symbolsOf (ControlsPanel.symbolsText symbols) = symbols.
Proof.
  intros Hclean. unfold ControlsPanel.symbolsOf, ControlsPanel.symbolsText.
  destruct symbols as [| x l]; [reflexivity |].
  rewrite split_join.
  2:{ eapply Forall_impl; [| exact Hclean]. intros s (_ & H & _). exact H. }
  assert (Hkeep : forall l', Forall Notions.cleanSymbol l' ->
            filter (fun s => (0 <? String.length s)%nat) l' = l').
  { induction 1 as [| s l' (Hne & _) _ IH]; [reflexivity |].
    simpl. rewrite IH. destruct s; [now elim Hne | reflexivity]. }
  assert (Htrim : forall l', Forall Notions.cleanSymbol l' ->
            map JsText.trim (map (String " ") l') = l').
  { induction 1 as [| s l' (_ & _ & Hs & He) _ IH]; [reflexivity |].
    simpl. rewrite IH. f_equal.
    unfold JsText.trim. simpl. now apply trim_clean. }
  inversion Hclean as [| ? ? Hx Hl]; subst.
  cbn [map]. rewrite Htrim by exact Hl.
  destruct Hx as (Hne & Hc & Hs & He).
  rewrite trim_clean by assumption.
  change (x :: l) with ([x] ++ l).
  rewrite filter_app, (Hkeep l Hl).
  cbn [filter]. destruct x; [now elim Hne | reflexivity].
Qed.

Lemma symbols_text_round_trip_witness :
  ControlsPanel.symbolsOf (ControlsPanel.symbolsText ["SPY"; "QQQ"; "IWM"])
  = ["SPY"; "QQQ"; "IWM"].
Proof.
  apply symbols_text_round_trip.
  repeat constructor; discriminate.
Defined.

(** ** The results panel *)

(** X23: which screen the results panel shows.  While loading it shows the
    running screen whatever results it holds; without results, the
    ready-to-run screen; with a payload that has neither a wheel nor a
    rotator entry, the no-results screen; and in every other case the
    results, with a section for each entry that is there. *)
Theorem results_panel_screens (host : Host) (results : option Types.StrategyResults)
    (isLoading : bool) (mode : string) :
  (forall m, ResultsPanel.render host results isLoading mode
             = ResultsPanel.RunningStrategies m
             <-> isLoading = true /\ m = mode)
  /\ (ResultsPanel.render host results isLoading mode = ResultsPanel.ReadyToRun
      <-> isLoading = false /\ results = None)
  /\ (ResultsPanel.render host results isLoading mode = ResultsPanel.NoResults
      <-> isLoading = false
          /\ exists res, results = Some res
                         /\ Types.wheel res = None /\ Types.rotator res = None)
  /\ (forall summary w r chart,
        ResultsPanel.render host results isLoading mode
        = ResultsPanel.Results summary w r chart ->
        exists res, results = Some res
                    /\ (w = None <-> Types.wheel res = None)
                    /\ (r = None <-> Types.rotator res = None)
                    /\ chart = PerformanceChart.render (Types.wheel res) (Types.rotator res)).
Proof.
  unfold ResultsPanel.render.
  destruct isLoading.
  { split; [| split; [| split]].
    - intros m. split; [intros [= <-]; auto | intros [_ ->]; reflexivity].
    - split; [discriminate | intros [H _]; discriminate H].
    - split; [discriminate | intros [H _]; discriminate H].
    - intros; discriminate. }
  destruct results as [res |].
  2:{ split; [| split; [| split]].
      - intros m. split; [discriminate | intros [H _]; discriminate H].
      - split; auto.
      - split; [discriminate | intros (_ & res & H & _); discriminate H].
      - intros; discriminate. }
  assert (Hshown : forall summary w r chart,
             ResultsPanel.Results
               (ResultsPanel.executionSummary res)
               (option_map
                  (fun x => ResultsPanel.strategySection host x "Wheel"
                              "Wheel Strategy Trades") (Types.wheel res))
               (option_map
                  (fun x => ResultsPanel.strategySection host x "Rotator"
                              "Crypto Rotator Trades") (Types.rotator res))
               (PerformanceChart.render (Types.wheel res) (Types.rotator res))
             = ResultsPanel.Results summary w r chart ->
             exists res0, Some res = Some res0
                          /\ (w = None <-> Types.wheel res0 = None)
                          /\ (r = None <-> Types.rotator res0 = None)
                          /\ chart = PerformanceChart.render (Types.wheel res0)
                                       (Types.rotator res0)).
  { intros summary w r chart [= _ <- <- <-]. exists res.
    repeat split; try reflexivity;
      destruct (Types.wheel res), (Types.rotator res); simpl;
      intros H; try discriminate H; reflexivity. }
  destruct (Types.wheel res) as [w0 |] eqn:Hw, (Types.rotator res) as [r0 |] eqn:Hr;
    (split; [| split; [| split]]);
    try (intros m; split; [discriminate | intros [H _]; discriminate H]);
    try (split; [discriminate | intros [_ H]; discriminate H]);
    try (split; [discriminate
                | intros (_ & res' & [= <-] & Hw' & Hr'); congruence]);
    try exact Hshown.
  - split; [intros _ | reflexivity]. split; [reflexivity |]. exists res. auto.
  - intros; discriminate.
Qed.

(** ** The application *)

Section AppFacts.

Variable host : Host.
Variable B : Type.

(** A click on the run button does nothing, or starts a run from a state
    in which no run was loading. *)
Lemma clickRun_cases (call : nat) (panel : ControlsPanel.State) (st : App.State B) :
  App.clickRun host call panel st = st
  \/ (UseApi.loading (UseApi.state (App.runStrategiesApi st)) = false
      /\ App.config st <> None
      /\ App.activeTab st = App.Strategy
      /\ App.clickRun host call panel st = App.runStrategiesStart call st).
Proof.
  unfold App.clickRun, App.render.
  destruct (UseApi.loading (UseApi.state (App.configApi st))); [now left |].
  destruct (App.config st) as [cfg |]; [| now left].
  destruct (App.activeTab st) eqn:Htab; try now left.
  cbn [App.controlsLoading]. unfold ControlsPanel.runDisabled.
  destruct (UseApi.loading (UseApi.state (App.runStrategiesApi st))); [now left |].
  simpl. destruct (List.length (ControlsPanel.selectedStrategies panel) =? 0)%nat;
    [now left |].
  destruct (ControlsPanel.handleRun panel); [now left |].
  right. repeat split. discriminate.
Qed.

Local Abbreviation singleFlight := Notions.singleFlight.

Lemma step_single_flight (st : App.State B) (ev : App.Event B) :
  singleFlight (App.runStrategiesApi st) ->
  singleFlight (App.runStrategiesApi (App.step host st ev)).
Proof.
  intros Hinv. destruct ev as [c | c s | c | c s | c panel | c s now | c | c s | tab];
    simpl; try exact Hinv.
  - unfold App.loadConfigSettled.
    destruct (UseApi.isPending c (UseApi.pending (App.configApi st))); exact Hinv.
  - unfold App.updateConfigSettled.
    destruct (UseApi.isPending c (UseApi.pending (App.updateConfigApi st))); exact Hinv.
  - destruct (clickRun_cases c panel st) as [-> | (Hidle & _ & _ & ->)]; [exact Hinv |].
    destruct Hinv as [[_ Hp] | [Hl _]]; [| congruence].
    right. simpl. rewrite Hp. eauto.
  - unfold App.runStrategiesSettled.
    destruct (UseApi.isPending c (UseApi.pending (App.runStrategiesApi st))) eqn:Hc;
      [| exact Hinv].
    destruct Hinv as [[_ Hp] | [_ [c' Hp]]]; rewrite Hp in Hc; [discriminate Hc |].
    left. cbn [App.runStrategiesApi]. unfold UseApi.step. rewrite Hp, Hc.
    simpl in Hc |- *.
    destruct (c =? c')%nat; [| discriminate Hc].
    destruct s; auto.
Qed.

Lemma run_single_flight (evs : list (App.Event B)) (st : App.State B) :
  singleFlight (App.runStrategiesApi st) ->
  singleFlight (App.runStrategiesApi (App.run host st evs)).
Proof.
  revert st. induction evs as [| ev evs IH]; intros st Hinv; [exact Hinv |].
  simpl. apply IH. now apply step_single_flight.
Qed.

(** What the panel holds is what the run hook holds. *)
Lemma step_results_from_hook (st : App.State B) (ev : App.Event B) :
  (forall d, App.results st = Some d ->
             UseApi.data (UseApi.state (App.runStrategiesApi st)) = Some d) ->
  forall d, App.results (App.step host st ev) = Some d ->
            UseApi.data (UseApi.state (App.runStrategiesApi (App.step host st ev)))
            = Some d.
Proof.
  intros Hinv d.
  destruct ev as [c | c s | c | c s | c panel | c s now | c | c s | tab];
    simpl; try apply Hinv.
  - unfold App.loadConfigSettled.
    destruct (UseApi.isPending c (UseApi.pending (App.configApi st))); apply Hinv.
  - unfold App.updateConfigSettled.
    destruct (UseApi.isPending c (UseApi.pending (App.updateConfigApi st))); apply Hinv.
  - destruct (clickRun_cases c panel st) as [-> | (_ & _ & _ & ->)]; [apply Hinv |].
    discriminate.
  - unfold App.runStrategiesSettled.
    destruct (UseApi.isPending c (UseApi.pending (App.runStrategiesApi st))) eqn:Hc;
      [| apply Hinv].
    simpl. rewrite Hc. destruct s as [r | e]; simpl; [tauto | apply Hinv].
Qed.

Lemma run_results_from_hook (evs : list (App.Event B)) (st : App.State B) :
  (forall d, App.results st = Some d ->
             UseApi.data (UseApi.state (App.runStrategiesApi st)) = Some d) ->
  forall d, App.results (App.run host st evs) = Some d ->
            UseApi.data (UseApi.state (App.runStrategiesApi (App.run host st evs)))
            = Some d.
Proof.
  revert st. induction evs as [| ev evs IH]; intros st Hinv; [exact Hinv |].
  simpl. apply IH. now apply step_results_from_hook.
Qed.

(** Without a delivered configuration there is none. *)
Lemma run_without_config (evs : list (App.Event B)) (st : App.State B) :
  App.config st = None ->
  forallb (fun ev => negb (Notions.deliversConfig ev)) evs = true ->
  App.config (App.run host st evs) = None.
Proof.
  revert st. induction evs as [| ev evs IH]; intros st Hnone Hevs; [exact Hnone |].
  simpl in Hevs. apply andb_true_iff in Hevs. destruct Hevs as [Hev Hevs].
  simpl. apply IH; [| exact Hevs].
  destruct ev as [c | c s | c | c s | c panel | c s now | c | c s | tab];
    simpl; try exact Hnone.
  - unfold App.loadConfigSettled.
    destruct (UseApi.isPending c (UseApi.pending (App.configApi st))); [| exact Hnone].
    destruct s; [discriminate Hev | exact Hnone].
  - unfold App.updateConfigSettled.
    destruct (UseApi.isPending c (UseApi.pending (App.updateConfigApi st)));
      [| exact Hnone].
    destruct s; [discriminate Hev | exact Hnone].
  - destruct (clickRun_cases c panel st) as [-> | (_ & _ & _ & ->)]; exact Hnone.
  - unfold App.runStrategiesSettled.
    destruct (UseApi.isPending c (UseApi.pending (App.runStrategiesApi st)));
      exact Hnone.
Qed.

End AppFacts.

(** X24: however the application is driven, the run button keeps strategy
    runs from overlapping: at most one call of the run hook is in flight,
    and the hook's [loading] is true exactly while one is. *)
Theorem run_button_keeps_runs_single_flight (host : Host) (B : Type)
    (evs : list (App.Event B)) :
  List.length
    (UseApi.pending (App.runStrategiesApi (App.run host App.initialState evs))) <= 1
  /\ (UseApi.loading
        (UseApi.state (App.runStrategiesApi (App.run host App.initialState evs))) = true
      <-> UseApi.pending (App.runStrategiesApi (App.run host App.initialState evs))
          <> []).
Proof.
  assert (H : Notions.singleFlight
                (App.runStrategiesApi (App.run host (B := B) App.initialState evs))).
  { apply run_single_flight. left. split; reflexivity. }
  destruct H as [[Hl Hp] | [Hl [c Hp]]]; rewrite Hl, Hp; simpl; split;
    try lia; split; intros H; try discriminate; try reflexivity.
  now elim H.
Qed.

(** X25: however the application is driven, results held for the results
    panel are the data the run hook holds. *)
Theorem results_shown_are_hook_data (host : Host) (B : Type)
    (evs : list (App.Event B)) (d : Types.StrategyResults) :
  App.results (App.run host App.initialState evs) = Some d ->
  UseApi.data (UseApi.state (App.runStrategiesApi (App.run host App.initialState evs)))
  = Some d.
Proof.
  apply run_results_from_hook. discriminate.
Qed.

Lemma results_shown_are_hook_data_witness :
  UseApi.data
    (UseApi.state
       (App.runStrategiesApi
          (App.run Fixtures.asciiHost (B := unit) App.initialState
             [ App.LoadConfig 0;
               App.LoadConfigSettled 0 (UseApi.Fulfilled ConfigFixtures.mockConfig);
               App.SetActiveTab App.Strategy;
               App.ClickRun 1 ConfigFixtures.mockPanel;
               App.RunStrategiesSettled 1
                 (UseApi.Fulfilled
                    (Fixtures.mockResults (Some Fixtures.mockResult) None))
                 "1:09:31 PM" ])))
  = Some (Fixtures.mockResults (Some Fixtures.mockResult) None).
Proof.
  exact (results_shown_are_hook_data Fixtures.asciiHost unit
           [ App.LoadConfig 0;
             App.LoadConfigSettled 0 (UseApi.Fulfilled ConfigFixtures.mockConfig);
             App.SetActiveTab App.Strategy;
             App.ClickRun 1 ConfigFixtures.mockPanel;
             App.RunStrategiesSettled 1
               (UseApi.Fulfilled
                  (Fixtures.mockResults (Some Fixtures.mockResult) None))
               "1:09:31 PM" ]
           (Fixtures.mockResults (Some Fixtures.mockResult) None) eq_refl).
Defined.

(** X26: as long as no load and no update of the configuration succeeds,
    the application shows the loading screen, whatever else happens: a
    failed first load leaves it there, with no error on the screen. *)
Theorem loading_screen_until_config (host : Host) (B : Type)
    (evs : list (App.Event B)) :
  forallb (fun ev => negb (Notions.deliversConfig ev)) evs = true ->
  App.render host (App.run host App.initialState evs) = App.LoadingConfiguration.
Proof.
  intros Hevs.
  pose proof (run_without_config host B evs App.initialState eq_refl Hevs) as Hnone.
  unfold App.render. rewrite Hnone.
  now destruct (UseApi.loading _).
Qed.

Lemma loading_screen_until_config_witness :
  App.render Fixtures.asciiHost (B := unit)
    (App.run Fixtures.asciiHost App.initialState
       [ App.LoadConfig 0;
         App.LoadConfigSettled 0
           (UseApi.RejectedWith (UseApi.AxiosError None "Network Error"));
         App.SetActiveTab App.Strategy ])
  = App.LoadingConfiguration.
Proof.
  exact (loading_screen_until_config Fixtures.asciiHost unit
           [ App.LoadConfig 0;
             App.LoadConfigSettled 0
               (UseApi.RejectedWith (UseApi.AxiosError None "Network Error"));
             App.SetActiveTab App.Strategy ] eq_refl).
Defined.

(** X27: on the strategy tab with an idle run hook, a run that fails ends
    with the status [Failed], the error message in the controls, and the
    results panel back on its ready-to-run screen: the results shown before
    the run are gone.  The status icon is then the alert, unless the message
    is empty. *)
Theorem failed_run_shows_ready_to_run (host : Host) (B : Type) (st : App.State B)
    (cfg : Config.ConfigData) (c : nat) (panel : ControlsPanel.State)
    (e : UseApi.Thrown) (now : string) :
  App.config st = Some cfg ->
  UseApi.loading (UseApi.state (App.configApi st)) = false ->
  App.activeTab st = App.Strategy ->
  UseApi.loading (UseApi.state (App.runStrategiesApi st)) = false ->
  ControlsPanel.selectedStrategies panel <> [] ->
  App.render host
    (App.run host st
       [App.ClickRun c panel; App.RunStrategiesSettled c (UseApi.RejectedWith e) now])
  = App.Page App.Strategy
      (App.StrategyTesting
         {| App.controlsConfig := cfg; App.controlsLoading := false;
            App.controlsStatus := "Failed";
            App.controlsError := Some (UseApi.errorMessage e) |}
         ResultsPanel.ReadyToRun)
  /\ (UseApi.errorMessage e <> "" ->
      ControlsPanel.getStatusIcon false (Some (UseApi.errorMessage e)) "Failed"
      = Some ControlsPanel.AlertCircle).
Proof.
  intros Hcfg Hload Htab Hidle Hsel.
  split.
  - assert (Hclick : App.clickRun host c panel st = App.runStrategiesStart c st).
    { unfold App.clickRun, App.render. rewrite Hload, Hcfg, Htab.
      cbn [App.controlsLoading]. unfold ControlsPanel.runDisabled, ControlsPanel.handleRun.
      rewrite Hidle.
      destruct (ControlsPanel.selectedStrategies panel); [now elim Hsel | reflexivity]. }
    unfold App.run. cbn [fold_left App.step]. rewrite Hclick.
    unfold App.runStrategiesSettled, App.runStrategiesStart.
    cbn [App.runStrategiesApi UseApi.step UseApi.pending].
    rewrite isPending_head.
    unfold App.render.
    cbn [App.configApi App.config App.activeTab App.runStrategiesApi App.status
         App.results UseApi.state UseApi.loading UseApi.error UseApi.executeSettled
         UseApi.executeStart fst].
    rewrite Hload, Hcfg, Htab. reflexivity.
  - intros Hne. unfold ControlsPanel.getStatusIcon.
    destruct (UseApi.errorMessage e); [now elim Hne | reflexivity].
Qed.

Lemma failed_run_shows_ready_to_run_witness :
  App.render Fixtures.asciiHost (B := unit)
    (App.run Fixtures.asciiHost
       (App.run Fixtures.asciiHost App.initialState
          [ App.LoadConfig 0;
            App.LoadConfigSettled 0 (UseApi.Fulfilled ConfigFixtures.mockConfig);
            App.SetActiveTab App.Strategy ])
       [ App.ClickRun 1 ConfigFixtures.mockPanel;
         App.RunStrategiesSettled 1
           (UseApi.RejectedWith (UseApi.OtherError "boom")) "1:09:31 PM" ])
  = App.Page App.Strategy
      (App.StrategyTesting
         {| App.controlsConfig := ConfigFixtures.mockConfig;
            App.controlsLoading := false;
            App.controlsStatus := "Failed";
            App.controlsError := Some "boom" |}
         ResultsPanel.ReadyToRun).
Proof.
  refine (proj1 (failed_run_shows_ready_to_run Fixtures.asciiHost unit
                   (App.run Fixtures.asciiHost App.initialState
                      [ App.LoadConfig 0;
                        App.LoadConfigSettled 0
                          (UseApi.Fulfilled ConfigFixtures.mockConfig);
                        App.SetActiveTab App.Strategy ])
                   ConfigFixtures.mockConfig 1 ConfigFixtures.mockPanel
                   (UseApi.OtherError "boom") "1:09:31 PM"
                   eq_refl eq_refl eq_refl eq_refl _)).
  discriminate.
Defined.

(** X28: on the strategy tab with an idle run hook, a run that succeeds
    ends with the status [Completed at] the time, no error, and the results
    panel rendering the payload it returned; the status icon is then the
    check mark. *)
Theorem completed_run_shows_results (host : Host) (B : Type) (st : App.State B)
    (cfg : Config.ConfigData) (c : nat) (panel : ControlsPanel.State)
    (data : Types.StrategyResults) (now : string) :
  App.config st = Some cfg ->
  UseApi.loading (UseApi.state (App.configApi st)) = false ->
  App.activeTab st = App.Strategy ->
  UseApi.loading (UseApi.state (App.runStrategiesApi st)) = false ->
  ControlsPanel.selectedStrategies panel <> [] ->
  App.render host
    (App.run host st
       [App.ClickRun c panel; App.RunStrategiesSettled c (UseApi.Fulfilled data) now])
  = App.Page App.Strategy
      (App.StrategyTesting
         {| App.controlsConfig := cfg; App.controlsLoading := false;
            App.controlsStatus := ("Completed at " ++ now)%string;
            App.controlsError := None |}
         (ResultsPanel.render host (Some data) false (Config.data_mode cfg)))
  /\ ControlsPanel.getStatusIcon false None ("Completed at " ++ now)
     = Some ControlsPanel.CheckCircle.
Proof.
  intros Hcfg Hload Htab Hidle Hsel.
  split.
  - assert (Hclick : App.clickRun host c panel st = App.runStrategiesStart c st).
    { unfold App.clickRun, App.render. rewrite Hload, Hcfg, Htab.
      cbn [App.controlsLoading]. unfold ControlsPanel.runDisabled, ControlsPanel.handleRun.
      rewrite Hidle.
      destruct (ControlsPanel.selectedStrategies panel); [now elim Hsel | reflexivity]. }
    unfold App.run. cbn [fold_left App.step]. rewrite Hclick.
    unfold App.runStrategiesSettled, App.runStrategiesStart.
    cbn [App.runStrategiesApi UseApi.step UseApi.pending].
    rewrite isPending_head.
    unfold App.render.
    cbn [App.configApi App.config App.activeTab App.runStrategiesApi App.status
         App.results UseApi.state UseApi.loading UseApi.error UseApi.executeSettled
         UseApi.executeStart fst].
    rewrite Hload, Hcfg, Htab. reflexivity.
  - unfold ControlsPanel.getStatusIcon. cbn [Js.truthy].
    assert (H : Js.includes "Completed" ("Completed at " ++ now) = true).
    { apply includes_occursIn. now exists "", (" at " ++ now)%string. }
    now rewrite H.
Qed.

Lemma completed_run_shows_results_witness :
  ControlsPanel.getStatusIcon false None ("Completed at " ++ "1:09:31 PM")
  = Some ControlsPanel.CheckCircle.
Proof.
  refine (proj2 (completed_run_shows_results Fixtures.asciiHost unit
                   (App.run Fixtures.asciiHost App.initialState
                      [ App.LoadConfig 0;
                        App.LoadConfigSettled 0
                          (UseApi.Fulfilled ConfigFixtures.mockConfig);
                        App.SetActiveTab App.Strategy ])
                   ConfigFixtures.mockConfig 1 ConfigFixtures.mockPanel
                   (Fixtures.mockResults (Some Fixtures.mockResult) None) "1:09:31 PM"
                   eq_refl eq_refl eq_refl eq_refl _)).
  discriminate.
Defined.
